(** * libcamera-apps: the buffer and request lifecycle of [LibcameraApp]

    A shallow embedding of [core/libcamera_app.cpp] and of the
    [LibcameraEncoder] class: the application object is a record of its
    member variables, every member function is a function from states to
    outcomes, and every call into libcamera, the post-processor, the preview
    window or the encoder is recorded on a trace. *)

From Stdlib Require Import ZArith QArith.
From stdpp Require Import gmap strings list fin_maps sorting pretty.

Local Open Scope string_scope.
Local Open Scope list_scope.

(** ** Outcomes of a member function *)

(** A C++ member function returns, throws [std::runtime_error(what)], dies in
    a failed [assert], or runs into undefined behaviour ([front()] or [[0]]
    on an empty container).  [Diverges] is the answer of a loop that was not
    given enough fuel. *)
Inductive result (A : Type) : Type :=
  | Ok (a : A)
  | Throw (what : string)
  | AssertFail (cond : string)
  | Undefined
  | Diverges.
Arguments Ok {A} a.
Arguments Throw {A} what.
Arguments AssertFail {A} cond.
Arguments Undefined {A}.
Arguments Diverges {A}.

Definition rbind {A B : Type} (m : result A) (k : A -> result B) : result B :=
  match m with
  | Ok a => k a
  | Throw w => Throw w
  | AssertFail c => AssertFail c
  | Undefined => Undefined
  | Diverges => Diverges
  end.

#[global] Instance result_ret : MRet result := fun A a => Ok a.
#[global] Instance result_bind : MBind result := fun A B k m => rbind m k.

Definition returns {A : Type} (m : result A) : Prop := exists a, m = Ok a.

(** ** Data model *)

(** [uint64_t] arithmetic. *)
Definition wrap64 (z : Z) : Z := (z mod 2 ^ 64)%Z.

Module StreamConfiguration.
Record t := {
  size_width : N;
  size_height : N;
  stride : N;
  pixelFormat : N;
  bufferCount : N
}.
End StreamConfiguration.

(** A [libcamera::Stream] is identified by its address; it is immutable once
    the camera is configured, so the object travels with its address.  A
    [Stream *] is an [option Stream], [None] being [nullptr]. *)
Record Stream := {
  stream_id : N;
  configuration : StreamConfiguration.t
}.

Record Plane := {
  plane_fd : Z;
  plane_length : Z
}.

Record FrameBuffer := {
  fb_id : N;
  planes : list Plane;
  metadata_timestamp : Z
}.

(** [libcamera::Span<uint8_t>]: address and size. *)
Record Span := {
  span_data : Z;
  span_size : Z
}.

(** [MAP_FAILED] is [(void * ) -1]. *)
Definition MAP_FAILED : Z := (-1)%Z.

(** [BufferMap] is [std::map<Stream const *, FrameBuffer *>], keyed here by
    the stream's address. *)
Abbreviation BufferMap := (gmap N FrameBuffer).
Abbreviation ControlList := (gmap N Z).

(** libcamera's [Request]: its address, status, buffer map, controls and
    metadata. *)
Inductive RequestStatus := RequestPending | RequestComplete | RequestCancelled.

Record Request := {
  request_id : N;
  request_status : RequestStatus;
  request_buffers : BufferMap;
  request_controls : ControlList;
  request_metadata : ControlList
}.

(** Modelled from the spec: the declaration of [CompletedRequest] is in a
    header that is not among the sources.  The members are the ones the
    member functions use and the specification lists: the sequence number,
    the bindings, the metadata and the frame rate.  [cr_ptr] is the address
    of the object, the identity kept in [known_completed_requests_].  The
    sequence number is a natural number (no width is given); the frame rate,
    a floating-point member, is kept as an exact rational. *)
Record CompletedRequest := {
  cr_ptr : N;
  sequence : N;
  buffers : BufferMap;
  metadata : ControlList;
  framerate : Q
}.

Inductive Msg :=
  | MsgRequestComplete (payload : CompletedRequest)
  | MsgQuit.

(** Modelled from the spec: [PreviewItem] is declared in
    [core/libcamera_app.hpp], which is not among the sources.  It pairs a
    shared reference to a completed request with the stream to show;
    default-constructed it holds no request and a null stream. *)
Module PreviewItem.
Record t := {
  completed_request : option CompletedRequest;
  stream : option Stream
}.
Definition default : t := {| completed_request := None; stream := None |}.
End PreviewItem.

(** Calls that leave the class, in program order. *)
Inductive Event :=
  | CameraStop
  | PostProcessorStop
  | RequestCompletedDisconnect
  | PreviewReset
  | CameraQueueRequest (request : Request)
  | PostProcessorProcess (payload : CompletedRequest)
  | PreviewCondVarNotify
  | CameraConfigure
  | AllocatorAllocate (stream : N)
  | EncoderEncodeBuffer (fd size mem : Z) (w h stride : N) (timestamp_us : Z)
  | Cerr (text : string).

(** [CameraConfiguration::Status] *)
Inductive ConfigurationStatus := Valid | Adjusted | Invalid.

(** The answers of the collaborators whose code is not part of the
    repository: libcamera's camera, allocator and requests, and [mmap]. *)
Record Device := {
  camera_stop : Z;
  camera_queueRequest : Request -> Z;
  camera_createRequest : nat -> option N;
  request_addBuffer : N -> N -> N -> Z;
  configuration_validate : ConfigurationStatus;
  camera_configure : Z;
  allocator_allocate : N -> Z;
  allocator_buffers : N -> list FrameBuffer;
  sys_mmap : Z -> Z -> Z
}.

(** ** The application object *)

(** Modelled from the spec: the class declaration, [core/libcamera_app.hpp],
    is not among the sources.  The members are those that the member
    functions below read or write, under their names.  [options_verbose] and
    [options_help] stand for [options_->verbose] and [options_->help];
    [camera_] and [preview_] say whether the pointer is non-null.  The
    counters [sequence_] and [preview_frames_dropped_] are natural numbers
    (no width is given); [last_timestamp_] is a [uint64_t] like the timestamp
    it is compared with.  [requests_] and [free_requests_] hold the requests
    themselves, [requests_] as [makeRequests] built them.  [trace] is not a
    member: it records the calls that leave the class. *)
Record App := {
  options_verbose : bool;
  options_help : bool;
  camera_ : bool;
  preview_ : bool;
  camera_started_ : bool;
  known_completed_requests_ : gset N;
  msg_queue_ : list Msg;
  free_requests_ : list Request;
  requests_ : list Request;
  controls_ : ControlList;
  sequence_ : N;
  last_timestamp_ : Z;
  preview_item_ : PreviewItem.t;
  preview_frames_dropped_ : N;
  configuration_ : list Stream;
  frame_buffers_ : gmap N (list FrameBuffer);
  mapped_buffers_ : gmap N (list Span);
  streams_ : gmap string Stream;
  trace : list Event
}.

(** Assignments to single members. *)

Definition set_camera_started_ (v : bool) (s : App) : App :=
  {| options_verbose := options_verbose s;
     options_help := options_help s;
     camera_ := camera_ s;
     preview_ := preview_ s;
     camera_started_ := v;
     known_completed_requests_ := known_completed_requests_ s;
     msg_queue_ := msg_queue_ s;
     free_requests_ := free_requests_ s;
     requests_ := requests_ s;
     controls_ := controls_ s;
     sequence_ := sequence_ s;
     last_timestamp_ := last_timestamp_ s;
     preview_item_ := preview_item_ s;
     preview_frames_dropped_ := preview_frames_dropped_ s;
     configuration_ := configuration_ s;
     frame_buffers_ := frame_buffers_ s;
     mapped_buffers_ := mapped_buffers_ s;
     streams_ := streams_ s;
     trace := trace s |}.

Definition set_known_completed_requests_ (v : gset N) (s : App) : App :=
  {| options_verbose := options_verbose s;
     options_help := options_help s;
     camera_ := camera_ s;
     preview_ := preview_ s;
     camera_started_ := camera_started_ s;
     known_completed_requests_ := v;
     msg_queue_ := msg_queue_ s;
     free_requests_ := free_requests_ s;
     requests_ := requests_ s;
     controls_ := controls_ s;
     sequence_ := sequence_ s;
     last_timestamp_ := last_timestamp_ s;
     preview_item_ := preview_item_ s;
     preview_frames_dropped_ := preview_frames_dropped_ s;
     configuration_ := configuration_ s;
     frame_buffers_ := frame_buffers_ s;
     mapped_buffers_ := mapped_buffers_ s;
     streams_ := streams_ s;
     trace := trace s |}.

Definition set_msg_queue_ (v : list Msg) (s : App) : App :=
  {| options_verbose := options_verbose s;
     options_help := options_help s;
     camera_ := camera_ s;
     preview_ := preview_ s;
     camera_started_ := camera_started_ s;
     known_completed_requests_ := known_completed_requests_ s;
     msg_queue_ := v;
     free_requests_ := free_requests_ s;
     requests_ := requests_ s;
     controls_ := controls_ s;
     sequence_ := sequence_ s;
     last_timestamp_ := last_timestamp_ s;
     preview_item_ := preview_item_ s;
     preview_frames_dropped_ := preview_frames_dropped_ s;
     configuration_ := configuration_ s;
     frame_buffers_ := frame_buffers_ s;
     mapped_buffers_ := mapped_buffers_ s;
     streams_ := streams_ s;
     trace := trace s |}.

Definition set_free_requests_ (v : list Request) (s : App) : App :=
  {| options_verbose := options_verbose s;
     options_help := options_help s;
     camera_ := camera_ s;
     preview_ := preview_ s;
     camera_started_ := camera_started_ s;
     known_completed_requests_ := known_completed_requests_ s;
     msg_queue_ := msg_queue_ s;
     free_requests_ := v;
     requests_ := requests_ s;
     controls_ := controls_ s;
     sequence_ := sequence_ s;
     last_timestamp_ := last_timestamp_ s;
     preview_item_ := preview_item_ s;
     preview_frames_dropped_ := preview_frames_dropped_ s;
     configuration_ := configuration_ s;
     frame_buffers_ := frame_buffers_ s;
     mapped_buffers_ := mapped_buffers_ s;
     streams_ := streams_ s;
     trace := trace s |}.

Definition set_requests_ (v : list Request) (s : App) : App :=
  {| options_verbose := options_verbose s;
     options_help := options_help s;
     camera_ := camera_ s;
     preview_ := preview_ s;
     camera_started_ := camera_started_ s;
     known_completed_requests_ := known_completed_requests_ s;
     msg_queue_ := msg_queue_ s;
     free_requests_ := free_requests_ s;
     requests_ := v;
     controls_ := controls_ s;
     sequence_ := sequence_ s;
     last_timestamp_ := last_timestamp_ s;
     preview_item_ := preview_item_ s;
     preview_frames_dropped_ := preview_frames_dropped_ s;
     configuration_ := configuration_ s;
     frame_buffers_ := frame_buffers_ s;
     mapped_buffers_ := mapped_buffers_ s;
     streams_ := streams_ s;
     trace := trace s |}.

Definition set_controls_ (v : ControlList) (s : App) : App :=
  {| options_verbose := options_verbose s;
     options_help := options_help s;
     camera_ := camera_ s;
     preview_ := preview_ s;
     camera_started_ := camera_started_ s;
     known_completed_requests_ := known_completed_requests_ s;
     msg_queue_ := msg_queue_ s;
     free_requests_ := free_requests_ s;
     requests_ := requests_ s;
     controls_ := v;
     sequence_ := sequence_ s;
     last_timestamp_ := last_timestamp_ s;
     preview_item_ := preview_item_ s;
     preview_frames_dropped_ := preview_frames_dropped_ s;
     configuration_ := configuration_ s;
     frame_buffers_ := frame_buffers_ s;
     mapped_buffers_ := mapped_buffers_ s;
     streams_ := streams_ s;
     trace := trace s |}.

Definition set_sequence_ (v : N) (s : App) : App :=
  {| options_verbose := options_verbose s;
     options_help := options_help s;
     camera_ := camera_ s;
     preview_ := preview_ s;
     camera_started_ := camera_started_ s;
     known_completed_requests_ := known_completed_requests_ s;
     msg_queue_ := msg_queue_ s;
     free_requests_ := free_requests_ s;
     requests_ := requests_ s;
     controls_ := controls_ s;
     sequence_ := v;
     last_timestamp_ := last_timestamp_ s;
     preview_item_ := preview_item_ s;
     preview_frames_dropped_ := preview_frames_dropped_ s;
     configuration_ := configuration_ s;
     frame_buffers_ := frame_buffers_ s;
     mapped_buffers_ := mapped_buffers_ s;
     streams_ := streams_ s;
     trace := trace s |}.

Definition set_last_timestamp_ (v : Z) (s : App) : App :=
  {| options_verbose := options_verbose s;
     options_help := options_help s;
     camera_ := camera_ s;
     preview_ := preview_ s;
     camera_started_ := camera_started_ s;
     known_completed_requests_ := known_completed_requests_ s;
     msg_queue_ := msg_queue_ s;
     free_requests_ := free_requests_ s;
     requests_ := requests_ s;
     controls_ := controls_ s;
     sequence_ := sequence_ s;
     last_timestamp_ := v;
     preview_item_ := preview_item_ s;
     preview_frames_dropped_ := preview_frames_dropped_ s;
     configuration_ := configuration_ s;
     frame_buffers_ := frame_buffers_ s;
     mapped_buffers_ := mapped_buffers_ s;
     streams_ := streams_ s;
     trace := trace s |}.

Definition set_preview_item_ (v : PreviewItem.t) (s : App) : App :=
  {| options_verbose := options_verbose s;
     options_help := options_help s;
     camera_ := camera_ s;
     preview_ := preview_ s;
     camera_started_ := camera_started_ s;
     known_completed_requests_ := known_completed_requests_ s;
     msg_queue_ := msg_queue_ s;
     free_requests_ := free_requests_ s;
     requests_ := requests_ s;
     controls_ := controls_ s;
     sequence_ := sequence_ s;
     last_timestamp_ := last_timestamp_ s;
     preview_item_ := v;
     preview_frames_dropped_ := preview_frames_dropped_ s;
     configuration_ := configuration_ s;
     frame_buffers_ := frame_buffers_ s;
     mapped_buffers_ := mapped_buffers_ s;
     streams_ := streams_ s;
     trace := trace s |}.

Definition set_preview_frames_dropped_ (v : N) (s : App) : App :=
  {| options_verbose := options_verbose s;
     options_help := options_help s;
     camera_ := camera_ s;
     preview_ := preview_ s;
     camera_started_ := camera_started_ s;
     known_completed_requests_ := known_completed_requests_ s;
     msg_queue_ := msg_queue_ s;
     free_requests_ := free_requests_ s;
     requests_ := requests_ s;
     controls_ := controls_ s;
     sequence_ := sequence_ s;
     last_timestamp_ := last_timestamp_ s;
     preview_item_ := preview_item_ s;
     preview_frames_dropped_ := v;
     configuration_ := configuration_ s;
     frame_buffers_ := frame_buffers_ s;
     mapped_buffers_ := mapped_buffers_ s;
     streams_ := streams_ s;
     trace := trace s |}.

Definition set_frame_buffers_ (v : gmap N (list FrameBuffer)) (s : App) : App :=
  {| options_verbose := options_verbose s;
     options_help := options_help s;
     camera_ := camera_ s;
     preview_ := preview_ s;
     camera_started_ := camera_started_ s;
     known_completed_requests_ := known_completed_requests_ s;
     msg_queue_ := msg_queue_ s;
     free_requests_ := free_requests_ s;
     requests_ := requests_ s;
     controls_ := controls_ s;
     sequence_ := sequence_ s;
     last_timestamp_ := last_timestamp_ s;
     preview_item_ := preview_item_ s;
     preview_frames_dropped_ := preview_frames_dropped_ s;
     configuration_ := configuration_ s;
     frame_buffers_ := v;
     mapped_buffers_ := mapped_buffers_ s;
     streams_ := streams_ s;
     trace := trace s |}.

Definition set_mapped_buffers_ (v : gmap N (list Span)) (s : App) : App :=
  {| options_verbose := options_verbose s;
     options_help := options_help s;
     camera_ := camera_ s;
     preview_ := preview_ s;
     camera_started_ := camera_started_ s;
     known_completed_requests_ := known_completed_requests_ s;
     msg_queue_ := msg_queue_ s;
     free_requests_ := free_requests_ s;
     requests_ := requests_ s;
     controls_ := controls_ s;
     sequence_ := sequence_ s;
     last_timestamp_ := last_timestamp_ s;
     preview_item_ := preview_item_ s;
     preview_frames_dropped_ := preview_frames_dropped_ s;
     configuration_ := configuration_ s;
     frame_buffers_ := frame_buffers_ s;
     mapped_buffers_ := v;
     streams_ := streams_ s;
     trace := trace s |}.

Definition set_trace (v : list Event) (s : App) : App :=
  {| options_verbose := options_verbose s;
     options_help := options_help s;
     camera_ := camera_ s;
     preview_ := preview_ s;
     camera_started_ := camera_started_ s;
     known_completed_requests_ := known_completed_requests_ s;
     msg_queue_ := msg_queue_ s;
     free_requests_ := free_requests_ s;
     requests_ := requests_ s;
     controls_ := controls_ s;
     sequence_ := sequence_ s;
     last_timestamp_ := last_timestamp_ s;
     preview_item_ := preview_item_ s;
     preview_frames_dropped_ := preview_frames_dropped_ s;
     configuration_ := configuration_ s;
     frame_buffers_ := frame_buffers_ s;
     mapped_buffers_ := mapped_buffers_ s;
     streams_ := streams_ s;
     trace := v |}.

(** A call that leaves the class is appended to the trace. *)
Definition emit (e : Event) (s : App) : App := set_trace (trace s ++ [e]) s.

(** ** libcamera's [Request] *)

(** [Request::addBuffer(stream, buffer)]: the return code is the library's;
    a negative code leaves the request as it was, any other code binds the
    buffer to the stream (the library refuses a second buffer for a stream;
    a camera that did not would overwrite the binding here). *)
Definition Request_addBuffer (d : Device) (request : Request) (stream : N)
    (buffer : FrameBuffer) : Z * Request :=
  let rc := request_addBuffer d (request_id request) stream (fb_id buffer) in
  if (rc <? 0)%Z then (rc, request)
  else (rc, {| request_id := request_id request;
               request_status := request_status request;
               request_buffers := <[stream := buffer]> (request_buffers request);
               request_controls := request_controls request;
               request_metadata := request_metadata request |}).

(** [request->controls() = ...] *)
Definition Request_set_controls (c : ControlList) (request : Request) : Request :=
  {| request_id := request_id request;
     request_status := request_status request;
     request_buffers := request_buffers request;
     request_controls := c;
     request_metadata := request_metadata request |}.

(** [Request::reuse()]: the container comes back pending and empty. *)
Definition Request_reuse (request : Request) : Request :=
  {| request_id := request_id request;
     request_status := RequestPending;
     request_buffers := ∅;
     request_controls := ∅;
     request_metadata := ∅ |}.

(** A request as [camera_->createRequest()] hands it out. *)
Definition Request_new (id : N) : Request :=
  {| request_id := id;
     request_status := RequestPending;
     request_buffers := ∅;
     request_controls := ∅;
     request_metadata := ∅ |}.

(** ** [LibcameraApp::StopCamera] *)

(** [while (!free_requests_.empty()) free_requests_.pop();] *)
Fixpoint free_requests_drain (q : list Request) : list Request :=
  match q with
  | [] => []
  | _ :: q' => free_requests_drain q'
  end.

(** The first block runs under [camera_stop_mutex_].  [msg_queue_.Clear()]
    drops the queued payloads; a deleter that runs because of it is a call
    of [queueRequest] with [camera_started_] already false. *)
Definition StopCamera (d : Device) (s : App) : result App :=
  s ← (if camera_started_ s then
         let s := emit CameraStop s in
         if decide (camera_stop d ≠ 0%Z) then Throw "failed to stop camera"
         else
           let s := emit PostProcessorStop s in
           Ok (set_camera_started_ false s)
       else Ok s);
  let s := if camera_ s then emit RequestCompletedDisconnect s else s in
  let s := set_known_completed_requests_ ∅ s in
  let s := set_msg_queue_ [] s in
  let s := if preview_ s then emit PreviewReset s else s in
  let s := set_free_requests_ (free_requests_drain (free_requests_ s)) s in
  let s := set_requests_ [] s in
  let s := set_controls_ ∅ s in
  let s := if options_verbose s && negb (options_help s)
           then emit (Cerr "Camera stopped!") s else s in
  Ok s.

(** ** [BufferMap] in iteration order *)

(** A [std::map] is walked in the order of its keys. *)
Definition key_le (p q : N * FrameBuffer) : Prop := (p.1 <= q.1)%N.

#[global] Instance key_le_dec : RelDecision key_le.
Proof. intros p q. unfold key_le. apply _. Defined.

Definition BufferMap_items (m : BufferMap) : list (N * FrameBuffer) :=
  merge_sort key_le (map_to_list m).

(** [buffers.begin()]: the binding with the least key, if there is one. *)
Definition BufferMap_begin (m : BufferMap) : option (N * FrameBuffer) :=
  head (BufferMap_items m).

(** ** [LibcameraApp::queueRequest], the Recycle operation *)

(** [for (auto const &p : buffers) if (request->addBuffer(...) < 0) throw] *)
Fixpoint addBuffers (d : Device) (what : string) (request : Request)
    (bs : list (N * FrameBuffer)) : result Request :=
  match bs with
  | [] => Ok request
  | p :: bs' =>
      let '(rc, request) := Request_addBuffer d request p.1 p.2 in
      if (rc <? 0)%Z then Throw what else addBuffers d what request bs'
  end.

(** The deleter of every [CompletedRequestPtr].  The buffers are moved out
    and the object is deleted before anything else; afterwards only its
    address is used.  Here the function is given an object that exists;
    [Heap.queueRequest] below keeps track of the objects that do. *)
Definition queueRequest (d : Device) (completed_request : CompletedRequest)
    (s : App) : result App :=
  let buffers := buffers completed_request in
  if negb (camera_started_ s) then Ok s
  else if decide (cr_ptr completed_request ∈ known_completed_requests_ s) then
    let s := set_known_completed_requests_
               (known_completed_requests_ s ∖ {[cr_ptr completed_request]}) s in
    match free_requests_ s with
    | [] => Ok (emit (Cerr "WARNING: could not make request!") s)
    | request :: rest =>
        let s := set_free_requests_ rest s in
        request ← addBuffers d "failed to add buffer to request in QueueRequest"
                    request (BufferMap_items buffers);
        let request := Request_set_controls (controls_ s) request in
        let s := set_controls_ ∅ s in
        let s := emit (CameraQueueRequest request) s in
        if (camera_queueRequest d request <? 0)%Z
        then Throw "failed to queue request"
        else Ok s
    end
  else Ok s.

(** ** [LibcameraApp::requestComplete], the completion callback *)

(** [1e9 / (timestamp - last_timestamp_)]: the subtraction is done on
    [uint64_t]; the quotient is kept as an exact rational (the rounding of the
    floating-point division is not part of the model). *)
Definition framerate_of (last_timestamp timestamp : Z) : Q :=
  if decide (last_timestamp = 0%Z ∨ last_timestamp = timestamp) then 0%Q
  else (inject_Z 1000000000 / inject_Z (wrap64 (timestamp - last_timestamp)))%Q.

Definition CompletedRequest_set_framerate (f : Q) (c : CompletedRequest)
    : CompletedRequest :=
  {| cr_ptr := cr_ptr c; sequence := sequence c; buffers := buffers c;
     metadata := metadata c; framerate := f |}.

(** [r] is the address that [new CompletedRequest] returns, [request] the
    request as the camera hands it back. *)
Definition requestComplete (r : N) (request : Request) (s : App) : result App :=
  match request_status request with
  | RequestCancelled => Ok s
  | _ =>
      let payload := {| cr_ptr := r; sequence := sequence_ s;
                        buffers := request_buffers request;
                        metadata := request_metadata request;
                        framerate := 0%Q |} in
      let s := set_sequence_ (sequence_ s + 1)%N s in
      let s := set_known_completed_requests_
                 ({[r]} ∪ known_completed_requests_ s) s in
      let s := set_free_requests_ (free_requests_ s ++ [Request_reuse request]) s in
      match BufferMap_begin (buffers payload) with
      | None => Undefined
      | Some first =>
          let timestamp := metadata_timestamp first.2 in
          let payload := CompletedRequest_set_framerate
                           (framerate_of (last_timestamp_ s) timestamp) payload in
          let s := set_last_timestamp_ timestamp s in
          Ok (emit (PostProcessorProcess payload) s)
      end
  end.

(** ** [LibcameraApp::ShowPreview] *)

(** The slot is free exactly when its stream pointer is null.  Assigning to
    [preview_item_] drops whatever reference the slot held; when that was the
    last one its deleter, [queueRequest], runs as a step of its own. *)
Definition ShowPreview (completed_request : CompletedRequest)
    (stream : option Stream) (s : App) : App :=
  let s := match PreviewItem.stream (preview_item_ s) with
           | None => set_preview_item_
                       {| PreviewItem.completed_request := Some completed_request;
                          PreviewItem.stream := stream |} s
           | Some _ => set_preview_frames_dropped_ (preview_frames_dropped_ s + 1)%N s
           end in
  emit PreviewCondVarNotify s.

(** ** [LibcameraApp::StreamDimensions] and [LibcameraApp::GetStream] *)

(** An [unsigned int *] argument is [None] for a null pointer and [Some v]
    for a pointer to a variable that holds [v]; the function returns what the
    three variables hold afterwards. *)
Definition StreamDimensions (stream : Stream) (w h stride : option N)
    : option N * option N * option N :=
  let cfg := configuration stream in
  (if w is Some _ then Some (StreamConfiguration.size_width cfg) else None,
   if h is Some _ then Some (StreamConfiguration.size_height cfg) else None,
   if stride is Some _ then Some (StreamConfiguration.stride cfg) else None).

Definition GetStream (name : string) (w h stride : option N) (s : App)
    : option Stream * (option N * option N * option N) :=
  match streams_ s !! name with
  | None => (None, (w, h, stride))
  | Some it => (Some it, StreamDimensions it w h stride)
  end.

Definition ViewfinderStream := GetStream "viewfinder".
Definition StillStream := GetStream "still".
Definition RawStream := GetStream "raw".
Definition VideoStream := GetStream "video".
Definition LoresStream := GetStream "lores".

(** ** [LibcameraApp::Mmap] *)

Definition Mmap (buffer : option FrameBuffer) (s : App) : list Span :=
  match buffer with
  | None => []
  | Some b => default [] (mapped_buffers_ s !! fb_id b)
  end.

(** ** [LibcameraApp::setupCapture] *)

Definition Span_of (d : Device) (buffer_size fd : Z) : Span :=
  {| span_data := sys_mmap d buffer_size fd; span_size := buffer_size |}.

(** The loop over the planes of one buffer.  [buffer_size] is the [size_t]
    accumulator, [spans] is [mapped_buffers_[buffer.get()]].  A span is
    pushed at the last plane and wherever the next plane has another file
    descriptor; what [mmap] returned is stored as it is. *)
Fixpoint mmap_planes (d : Device) (ps : list Plane) (buffer_size : Z)
    (spans : list Span) : list Span :=
  match ps with
  | [] => spans
  | plane :: rest =>
      let buffer_size := wrap64 (buffer_size + plane_length plane) in
      match rest with
      | [] => mmap_planes d rest 0 (spans ++ [Span_of d buffer_size (plane_fd plane)])
      | next :: _ =>
          if decide (plane_fd plane ≠ plane_fd next)
          then mmap_planes d rest 0 (spans ++ [Span_of d buffer_size (plane_fd plane)])
          else mmap_planes d rest buffer_size spans
      end
  end.

(** One buffer: map its planes, then [frame_buffers_[stream].push(buffer)].
    [operator[]] creates the table entry at the first [push_back], so a
    buffer without planes gets none. *)
Definition setup_buffer (d : Device) (stream : N) (buffer : FrameBuffer)
    (s : App) : App :=
  let s := match planes buffer with
           | [] => s
           | _ => set_mapped_buffers_
                    (<[fb_id buffer :=
                         mmap_planes d (planes buffer) 0
                           (default [] (mapped_buffers_ s !! fb_id buffer))]>
                       (mapped_buffers_ s)) s
           end in
  set_frame_buffers_
    (<[stream := default [] (frame_buffers_ s !! stream) ++ [buffer]]>
       (frame_buffers_ s)) s.

Definition setup_buffers (d : Device) (stream : N) (bs : list FrameBuffer)
    (s : App) : App :=
  foldl (fun s buffer => setup_buffer d stream buffer s) s bs.

(** [for (StreamConfiguration &config : *configuration_)] *)
Fixpoint setup_streams (d : Device) (cfg : list Stream) (s : App) : result App :=
  match cfg with
  | [] => Ok s
  | config :: cfg' =>
      let stream := stream_id config in
      let s := emit (AllocatorAllocate stream) s in
      if (allocator_allocate d stream <? 0)%Z
      then Throw "failed to allocate capture buffers"
      else setup_streams d cfg' (setup_buffers d stream (allocator_buffers d stream) s)
  end.

Definition setupCapture (d : Device) (s : App) : result App :=
  s ← match configuration_validate d with
      | Invalid => Throw "failed to valid stream configurations"
      | Adjusted => Ok (emit (Cerr "Stream configuration adjusted") s)
      | Valid => Ok s
      end;
  let s := emit CameraConfigure s in
  if (camera_configure d <? 0)%Z then Throw "failed to configure streams"
  else
    let s := if options_verbose s then emit (Cerr "Camera streams configured") s else s in
    s ← setup_streams d (configuration_ s) s;
    Ok (if options_verbose s then emit (Cerr "Buffers allocated and mapped") s else s).

(** ** [LibcameraApp::makeRequests] *)

(** How the body of the [for] loop is left: at its end, or by [return]. *)
Inductive for_exit (A : Type) : Type :=
  | Continue (a : A)
  | Return (s : App).
Arguments Continue {A} a.
Arguments Return {A} s.

(** [requests_.back()->addBuffer(stream, buffer)] *)
Definition requests_back_addBuffer (d : Device) (stream : N) (buffer : FrameBuffer)
    (s : App) : result App :=
  match last (requests_ s) with
  | None => Undefined
  | Some back =>
      let '(rc, back) := Request_addBuffer d back stream buffer in
      if (rc <? 0)%Z then Throw "failed to add buffer to request"
      else Ok (set_requests_ (removelast (requests_ s) ++ [back]) s)
  end.

(** One pass of the [for] loop over the configuration, from [cfg] on.
    [free_buffers] is the local copy of [frame_buffers_]; a stream without an
    entry has an empty queue. *)
Fixpoint makeRequests_for (d : Device) (cfg : list Stream)
    (free_buffers : gmap N (list FrameBuffer)) (s : App)
    : result (for_exit (gmap N (list FrameBuffer) * App)) :=
  match cfg with
  | [] => Ok (Continue (free_buffers, s))
  | config :: cfg' =>
      let stream := stream_id config in
      let queue := default [] (free_buffers !! stream) in
      r ← (if decide (Some stream = stream_id <$> head (configuration_ s)) then
             match queue with
             | [] => Ok (Return (if options_verbose s
                                 then emit (Cerr "Requests created") s else s))
             | _ =>
                 match camera_createRequest d (length (requests_ s)) with
                 | None => Throw "failed to make request"
                 | Some id =>
                     Ok (Continue (set_requests_ (requests_ s ++ [Request_new id]) s))
                 end
             end
           else
             match queue with
             | [] => Throw "concurrent streams need matching numbers of buffers"
             | _ => Ok (Continue s)
             end);
      match r with
      | Return s => Ok (Return s)
      | Continue s =>
          match queue with
          | [] => Undefined
          | buffer :: queue' =>
              let free_buffers := <[stream := queue']> free_buffers in
              s ← requests_back_addBuffer d stream buffer s;
              makeRequests_for d cfg' free_buffers s
          end
      end
  end.

(** [while (true)], with [fuel] bounding the number of passes. *)
Fixpoint makeRequests_while (d : Device) (fuel : nat)
    (free_buffers : gmap N (list FrameBuffer)) (s : App) : result App :=
  match fuel with
  | O => Diverges
  | S fuel' =>
      r ← makeRequests_for d (configuration_ s) free_buffers s;
      match r with
      | Return s => Ok s
      | Continue (free_buffers, s) => makeRequests_while d fuel' free_buffers s
      end
  end.

Definition makeRequests (d : Device) (fuel : nat) (s : App) : result App :=
  makeRequests_while d fuel (frame_buffers_ s) s.

(** ** [class LibcameraEncoder : public LibcameraApp] *)

Module LibcameraEncoder.

Record t := {
  app : App;
  encoder_ : bool;
  encode_buffer_queue_ : list CompletedRequest
}.

Definition set_app (v : App) (e : t) : t :=
  {| app := v; encoder_ := encoder_ e;
     encode_buffer_queue_ := encode_buffer_queue_ e |}.

Definition set_encode_buffer_queue_ (v : list CompletedRequest) (e : t) : t :=
  {| app := app e; encoder_ := encoder_ e; encode_buffer_queue_ := v |}.

(** [uint64_t] to [int64_t]. *)
Definition to_int64 (z : Z) : Z :=
  let u := wrap64 z in
  if (u <? 2 ^ 63)%Z then u else (u - 2 ^ 64)%Z.

(** [stream] is dereferenced by [StreamDimensions]; [buffers[stream]] is a
    null pointer when the stream has no binding, and then [Mmap] returns an
    empty vector whose element 0 is read before the null check. *)
Definition EncodeBuffer (completed_request : CompletedRequest)
    (stream : option Stream) (e : t) : result t :=
  if negb (encoder_ e) then AssertFail "encoder_"
  else
    match stream with
    | None => Undefined
    | Some st =>
        let '(w, h, stride) := StreamDimensions st (Some 0%N) (Some 0%N) (Some 0%N) in
        let buffer := buffers completed_request !! stream_id st in
        match Mmap buffer (app e) with
        | [] => Undefined
        | span :: _ =>
            let mem := span_data span in
            match buffer with
            | None => Throw "no buffer to encode"
            | Some b =>
                if decide (mem = 0%Z) then Throw "no buffer to encode"
                else
                  let timestamp_ns := to_int64 (metadata_timestamp b) in
                  let e := set_encode_buffer_queue_
                             (encode_buffer_queue_ e ++ [completed_request]) e in
                  match planes b with
                  | [] => Undefined
                  | plane0 :: _ =>
                      Ok (set_app
                            (emit (EncoderEncodeBuffer (plane_fd plane0) (span_size span)
                                     mem (default 0%N w) (default 0%N h)
                                     (default 0%N stride) (timestamp_ns ÷ 1000)%Z)
                                  (app e)) e)
                  end
            end
        end
    end.

(** The encoder's input-done callback; [mem] is the [void *] it passes, 0
    being [nullptr].  The [assert] is compiled in ([NDEBUG] is not defined);
    [encodeBufferDone_NDEBUG] below is the other build.
    [pop()] drops the reference at the front of the queue; when that was the
    last one its deleter, [queueRequest], runs as a step of its own. *)
Definition encodeBufferDone (mem : Z) (e : t) : result t :=
  if decide (mem = 0%Z) then
    match encode_buffer_queue_ e with
    | [] => Throw "no buffer available to return"
    | _ :: rest => Ok (set_encode_buffer_queue_ rest e)
    end
  else AssertFail "mem == nullptr".

(** The same callback in a build that defines [NDEBUG], where the [assert]
    expands to nothing: [mem] is not looked at. *)
Definition encodeBufferDone_NDEBUG (mem : Z) (e : t) : result t :=
  match encode_buffer_queue_ e with
  | [] => Throw "no buffer available to return"
  | _ :: rest => Ok (set_encode_buffer_queue_ rest e)
  end.

(** [k] done signals in a row, each without a buffer identification. *)
Fixpoint encodeBufferDone_times (k : nat) (e : t) : result t :=
  match k with
  | O => Ok e
  | S k' => e ← encodeBufferDone 0 e; encodeBufferDone_times k' e
  end.

End LibcameraEncoder.

(** *** What [makeRequests] is expected to build *)

(** The free buffers of a stream in a table of queues. *)
Definition queue_of (free_buffers : gmap N (list FrameBuffer)) (stream : N)
    : list FrameBuffer :=
  default [] (free_buffers !! stream).

(** A request with one more binding. *)
Definition Request_bind (stream : N) (buffer : FrameBuffer) (request : Request)
    : Request :=
  {| request_id := request_id request;
     request_status := request_status request;
     request_buffers := <[stream := buffer]> (request_buffers request);
     request_controls := request_controls request;
     request_metadata := request_metadata request |}.

(** Slot [k] of the round robin binds every configured stream to the [k]-th
    buffer of its queue. *)
Definition slot_bind (free_buffers : gmap N (list FrameBuffer)) (k : nat)
    (request : Request) (config : Stream) : Request :=
  match queue_of free_buffers (stream_id config) !! k with
  | Some buffer => Request_bind (stream_id config) buffer request
  | None => request
  end.

Definition slot_request (d : Device) (cfg : list Stream)
    (free_buffers : gmap N (list FrameBuffer)) (base k : nat) : Request :=
  foldl (slot_bind free_buffers k)
        (Request_new (default 0%N (camera_createRequest d (base + k)))) cfg.

(** Every configured stream gives up the buffer at the front of its queue. *)
Definition pop_all (cfg : list Stream) (free_buffers : gmap N (list FrameBuffer))
    : gmap N (list FrameBuffer) :=
  foldl (fun m config =>
           <[stream_id config := tail (queue_of free_buffers (stream_id config))]> m)
        free_buffers cfg.

(** In some slot the primary stream, the first of the configuration, still
    has a free buffer while the free list of another configured stream is
    empty: that stream started with [k] buffers or fewer. *)
Definition buffer_mismatch (cfg : list Stream)
    (free_buffers : gmap N (list FrameBuffer)) : Prop :=
  match cfg with
  | [] => False
  | primary :: others =>
      exists (k : nat) (config : Stream),
        (k < length (queue_of free_buffers (stream_id primary))) /\
        (config ∈ others) /\
        (length (queue_of free_buffers (stream_id config)) <= k)
  end.

(** The same, as a comparison of queue lengths. *)
Definition shorter_than (n : nat) (others : list Stream)
    (free_buffers : gmap N (list FrameBuffer)) : Prop :=
  Exists (fun config => length (queue_of free_buffers (stream_id config)) < n) others.

(** The last statement of [makeRequests] before it returns. *)
Definition requests_created (s : App) : App :=
  if options_verbose s then emit (Cerr "Requests created") s else s.

(** The payloads handed to the post-processor so far, oldest first. *)
Definition delivered (s : App) : list CompletedRequest :=
  omap (fun e => match e with PostProcessorProcess p => Some p | _ => None end)
       (trace s).

#[global] Instance RequestStatus_eq_dec : EqDecision RequestStatus.
Proof. solve_decision. Defined.

(** The camera firing the completion signal for one request after another;
    each comes with the address its [CompletedRequest] is allocated at. *)
Fixpoint requestComplete_all (cs : list (N * Request)) (s : App) : result App :=
  match cs with
  | [] => Ok s
  | c :: cs' => s ← requestComplete c.1 c.2 s; requestComplete_all cs' s
  end.

(** A burst of arrivals at the preview slot with no drain in between. *)
Definition ShowPreview_all (arrivals : list (CompletedRequest * option Stream))
    (s : App) : App :=
  foldl (fun s a => ShowPreview a.1 a.2 s) s arrivals.

(** ** Concrete objects used to run the model *)

Module Sample.

Definition cfg_640x480 : StreamConfiguration.t :=
  {| StreamConfiguration.size_width := 640;
     StreamConfiguration.size_height := 480;
     StreamConfiguration.stride := 640;
     StreamConfiguration.pixelFormat := 1;
     StreamConfiguration.bufferCount := 4 |}.

Definition viewfinder : Stream := {| stream_id := 100; configuration := cfg_640x480 |}.
Definition lores : Stream := {| stream_id := 200; configuration := cfg_640x480 |}.

Definition frame (id : N) (fd timestamp : Z) : FrameBuffer :=
  {| fb_id := id;
     planes := [ {| plane_fd := fd; plane_length := 307200 |} ];
     metadata_timestamp := timestamp |}.

(** A camera that never fails; [mmap] answers a page-aligned address. *)
Definition camera : Device :=
  {| camera_stop := 0;
     camera_queueRequest := fun _ => 0%Z;
     camera_createRequest := fun n => Some (N.of_nat n + 1000)%N;
     request_addBuffer := fun _ _ _ => 0%Z;
     configuration_validate := Valid;
     camera_configure := 0;
     allocator_allocate := fun _ => 0%Z;
     allocator_buffers := fun stream => [frame (stream + 1) 5 0; frame (stream + 2) 6 0];
     sys_mmap := fun len fd => (4096 * (fd + 1))%Z |}.

(** The same camera on a system where every [mmap] fails. *)
Definition camera_mmap_fails : Device :=
  {| camera_stop := 0;
     camera_queueRequest := fun _ => 0%Z;
     camera_createRequest := fun n => Some (N.of_nat n + 1000)%N;
     request_addBuffer := fun _ _ _ => 0%Z;
     configuration_validate := Valid;
     camera_configure := 0;
     allocator_allocate := fun _ => 0%Z;
     allocator_buffers := fun stream => [frame (stream + 1) 5 0; frame (stream + 2) 6 0];
     sys_mmap := fun _ _ => MAP_FAILED |}.

(** The object right after construction and [OpenCamera]. *)
Definition opened : App :=
  {| options_verbose := false;
     options_help := false;
     camera_ := true;
     preview_ := true;
     camera_started_ := false;
     known_completed_requests_ := ∅;
     msg_queue_ := [];
     free_requests_ := [];
     requests_ := [];
     controls_ := ∅;
     sequence_ := 0;
     last_timestamp_ := 0;
     preview_item_ := PreviewItem.default;
     preview_frames_dropped_ := 0;
     configuration_ := [viewfinder];
     frame_buffers_ := ∅;
     mapped_buffers_ := ∅;
     streams_ := {[ "viewfinder" := viewfinder ]};
     trace := [] |}.

(** A camera that cannot create requests. *)
Definition camera_no_requests : Device :=
  {| camera_stop := 0;
     camera_queueRequest := fun _ => 0%Z;
     camera_createRequest := fun _ => None;
     request_addBuffer := fun _ _ _ => 0%Z;
     configuration_validate := Valid;
     camera_configure := 0;
     allocator_allocate := fun _ => 0%Z;
     allocator_buffers := fun stream => [frame (stream + 1) 5 0; frame (stream + 2) 6 0];
     sys_mmap := fun len fd => (4096 * (fd + 1))%Z |}.

(** Viewfinder and low-resolution stream configured, two buffers each. *)
Definition configured : App :=
  set_frame_buffers_
    {[ 100%N := [frame 101 5 0; frame 102 6 0];
       200%N := [frame 201 7 0; frame 202 8 0] ]}
    {| options_verbose := true;
       options_help := false;
       camera_ := true;
       preview_ := true;
       camera_started_ := false;
       known_completed_requests_ := ∅;
       msg_queue_ := [];
       free_requests_ := [];
       requests_ := [];
       controls_ := ∅;
       sequence_ := 0;
       last_timestamp_ := 0;
       preview_item_ := PreviewItem.default;
       preview_frames_dropped_ := 0;
       configuration_ := [viewfinder; lores];
       frame_buffers_ := ∅;
       mapped_buffers_ := ∅;
       streams_ := {[ "viewfinder" := viewfinder; "lores" := lores ]};
       trace := [] |}.

(** The same with a low-resolution stream that is one buffer short. *)
Definition mismatched : App :=
  set_frame_buffers_
    {[ 100%N := [frame 101 5 0; frame 102 6 0];
       200%N := [frame 201 7 0] ]} configured.

(** The viewfinder alone, with one free buffer. *)
Definition single : App :=
  set_frame_buffers_ {[ 100%N := [frame 101 5 0] ]} opened.

(** A completed request of the viewfinder stream. *)
Definition completed (id : N) (timestamp : Z) : Request :=
  {| request_id := id;
     request_status := RequestComplete;
     request_buffers := {[ 100%N := frame id 5 timestamp ]};
     request_controls := ∅;
     request_metadata := ∅ |}.

Definition cancelled (id : N) : Request :=
  {| request_id := id;
     request_status := RequestCancelled;
     request_buffers := {[ 100%N := frame id 5 0 ]};
     request_controls := ∅;
     request_metadata := ∅ |}.

(** Three completions in arrival order, the second one cancelled. *)
Definition completions : list (N * Request) :=
  [(7%N, completed 1 1000%Z); (8%N, cancelled 2); (9%N, completed 3 34333%Z)].

Definition payload (ptr seq : N) : CompletedRequest :=
  {| cr_ptr := ptr; sequence := seq;
     buffers := {[ 100%N := frame 1 5 1000 ]};
     metadata := ∅; framerate := 0 |}.

(** A started camera that has delivered the payload at address 7 and has
    one free request container. *)
Definition running : App :=
  set_free_requests_ [Request_new 1000]
    (set_known_completed_requests_ {[ 7%N ]}
       (set_camera_started_ true opened)).

(** An encoder application whose buffer 1 is mapped at address 24576. *)
Definition encoder : LibcameraEncoder.t :=
  {| LibcameraEncoder.app :=
       set_mapped_buffers_
         {[ 1%N := [ {| span_data := 24576; span_size := 307200 |} ] ]} opened;
     LibcameraEncoder.encoder_ := true;
     LibcameraEncoder.encode_buffer_queue_ := [] |}.

End Sample.

(** ** More of [LibcameraApp] *)

(** Total length of some planes and total size of some spans. *)
Definition planes_length (ps : list Plane) : Z :=
  foldr (fun p acc => (plane_length p + acc)%Z) 0%Z ps.

Definition spans_size (spans : list Span) : Z :=
  foldr (fun sp acc => (span_size sp + acc)%Z) 0%Z spans.

(** *** [LibcameraApp::SetControls] *)

(** [controls_ = std::move(controls)] under [control_mutex_]: the pending
    controls are replaced, and the caller's list is left moved-from.  The
    pair is the object and the caller's list afterwards. *)
Definition SetControls (controls : ControlList) (s : App) : App * ControlList :=
  (set_controls_ controls s, ∅).

(** *** [LibcameraApp::GetMainStream] *)

(** [std::map<std::string, Stream *>] is walked in the order of
    [std::string]'s [operator<], the lexicographic order of the bytes. *)
Definition name_le (p q : string * Stream) : Prop := String.leb p.1 q.1 = true.

#[global] Instance name_le_dec : RelDecision name_le.
Proof. intros p q. unfold name_le. apply _. Defined.

Definition streams_items (m : gmap string Stream) : list (string * Stream) :=
  merge_sort name_le (map_to_list m).

Definition is_main_name (name : string) : bool :=
  bool_decide (name = "viewfinder" \/ name = "still" \/ name = "video").

(** [for (auto &p : streams_) if (...) return p.second;] *)
Fixpoint GetMainStream_for (items : list (string * Stream)) : option Stream :=
  match items with
  | [] => None
  | p :: items' => if is_main_name p.1 then Some p.2 else GetMainStream_for items'
  end.

Definition GetMainStream (s : App) : option Stream :=
  GetMainStream_for (streams_items (streams_ s)).

(** *** [LibcameraApp::Teardown] *)

(** The calls [Teardown] makes outside the class, in program order. *)
Inductive TeardownCall :=
  | PostProcessorTeardown
  | TeardownCerr (text : string)
  | Munmap (data size : Z)
  | AllocatorDelete.

Definition set_configuration_ (v : list Stream) (s : App) : App :=
  {| options_verbose := options_verbose s;
     options_help := options_help s;
     camera_ := camera_ s;
     preview_ := preview_ s;
     camera_started_ := camera_started_ s;
     known_completed_requests_ := known_completed_requests_ s;
     msg_queue_ := msg_queue_ s;
     free_requests_ := free_requests_ s;
     requests_ := requests_ s;
     controls_ := controls_ s;
     sequence_ := sequence_ s;
     last_timestamp_ := last_timestamp_ s;
     preview_item_ := preview_item_ s;
     preview_frames_dropped_ := preview_frames_dropped_ s;
     configuration_ := v;
     frame_buffers_ := frame_buffers_ s;
     mapped_buffers_ := mapped_buffers_ s;
     streams_ := streams_ s;
     trace := trace s |}.

Definition set_streams_ (v : gmap string Stream) (s : App) : App :=
  {| options_verbose := options_verbose s;
     options_help := options_help s;
     camera_ := camera_ s;
     preview_ := preview_ s;
     camera_started_ := camera_started_ s;
     known_completed_requests_ := known_completed_requests_ s;
     msg_queue_ := msg_queue_ s;
     free_requests_ := free_requests_ s;
     requests_ := requests_ s;
     controls_ := controls_ s;
     sequence_ := sequence_ s;
     last_timestamp_ := last_timestamp_ s;
     preview_item_ := preview_item_ s;
     preview_frames_dropped_ := preview_frames_dropped_ s;
     configuration_ := configuration_ s;
     frame_buffers_ := frame_buffers_ s;
     mapped_buffers_ := mapped_buffers_ s;
     streams_ := v;
     trace := trace s |}.

(** [std::map<FrameBuffer *, std::vector<Span>>] in the order of its keys. *)
Definition span_key_le (p q : N * list Span) : Prop := (p.1 <= q.1)%N.

#[global] Instance span_key_le_dec : RelDecision span_key_le.
Proof. intros p q. unfold span_key_le. apply _. Defined.

Definition mapped_buffers_items (m : gmap N (list Span)) : list (N * list Span) :=
  merge_sort span_key_le (map_to_list m).

(** The two nested [for] loops: one [munmap] per recorded span. *)
Definition munmap_all (items : list (N * list Span)) : list TeardownCall :=
  items ≫= (fun iter => (fun span => Munmap (span_data span) (span_size span)) <$> iter.2).

(** [configuration_.reset()] leaves a null pointer, which is the empty list
    here.  The result is the object afterwards and the calls made. *)
Definition Teardown (s : App) : App * list TeardownCall :=
  let calls := [PostProcessorTeardown] in
  let calls := if options_verbose s && negb (options_help s)
               then calls ++ [TeardownCerr "Tearing down requests, buffers and configuration"]
               else calls in
  let calls := calls ++ munmap_all (mapped_buffers_items (mapped_buffers_ s)) in
  let s := set_mapped_buffers_ ∅ s in
  let calls := calls ++ [AllocatorDelete] in
  let s := set_configuration_ [] s in
  let s := set_frame_buffers_ ∅ s in
  let s := set_streams_ ∅ s in
  (s, calls).

(** *** [LibcameraApp::configureDenoise] *)

(** [libcamera::controls::draft::NoiseReductionModeEnum] *)
Inductive NoiseReductionModeEnum :=
  | NoiseReductionModeOff
  | NoiseReductionModeFast
  | NoiseReductionModeHighQuality
  | NoiseReductionModeMinimal
  | NoiseReductionModeZSL.

(** [denoise_table] *)
Definition denoise_table : list (string * NoiseReductionModeEnum) :=
  [ ("off", NoiseReductionModeOff);
    ("cdn_off", NoiseReductionModeMinimal);
    ("cdn_fast", NoiseReductionModeFast);
    ("cdn_hq", NoiseReductionModeHighQuality) ].

(** [NoiseReductionMode] is the id of the control in libcamera and
    [enum_value] the integer of each enumerator; both are the library's. *)
Definition configureDenoise (NoiseReductionMode : N)
    (enum_value : NoiseReductionModeEnum -> Z) (denoise_mode : string) (s : App)
    : result App :=
  match (list_to_map denoise_table : gmap string NoiseReductionModeEnum) !! denoise_mode with
  | None => Throw ("Invalid denoise mode " +:+ denoise_mode)
  | Some denoise =>
      Ok (set_controls_ (<[NoiseReductionMode := enum_value denoise]> (controls_ s)) s)
  end.

(** The three callers pass [options_->denoise] unless it is "auto". *)
Definition denoise_or (default : string) (options_denoise : string) : string :=
  if decide (options_denoise = "auto") then default else options_denoise.

(** ** The preview thread *)

Module PreviewThread.

(** Calls to the preview window.  [SetInfoText] is recorded with what
    [FrameInfo::ToString] is given: the format and the frame's sequence
    number and rate. *)
Inductive PreviewCall :=
  | Show (fd : Z) (span : Span) (w h stride : N)
  | SetInfoText (info_text : string) (sequence : N) (fps : Q).

(** Modelled from the spec: the members below are declared in
    [core/libcamera_app.hpp], which is not among the sources.  They are the
    members of [LibcameraApp] that only the preview thread and its done
    callback use, beside the object proper; [preview_frames_displayed_] is a
    natural number (no width is given).  [preview_calls] is not a member: it
    records the calls to the preview window. *)
Record t := {
  app : App;
  preview_abort_ : bool;
  preview_completed_requests_ : gmap Z CompletedRequest;
  preview_frames_displayed_ : N;
  preview_calls : list PreviewCall
}.

Definition set_app (v : App) (s : t) : t :=
  {| app := v; preview_abort_ := preview_abort_ s;
     preview_completed_requests_ := preview_completed_requests_ s;
     preview_frames_displayed_ := preview_frames_displayed_ s;
     preview_calls := preview_calls s |}.

Definition set_preview_completed_requests_ (v : gmap Z CompletedRequest) (s : t) : t :=
  {| app := app s; preview_abort_ := preview_abort_ s;
     preview_completed_requests_ := v;
     preview_frames_displayed_ := preview_frames_displayed_ s;
     preview_calls := preview_calls s |}.

Definition set_preview_frames_displayed_ (v : N) (s : t) : t :=
  {| app := app s; preview_abort_ := preview_abort_ s;
     preview_completed_requests_ := preview_completed_requests_ s;
     preview_frames_displayed_ := v;
     preview_calls := preview_calls s |}.

Definition call (c : PreviewCall) (s : t) : t :=
  {| app := app s; preview_abort_ := preview_abort_ s;
     preview_completed_requests_ := preview_completed_requests_ s;
     preview_frames_displayed_ := preview_frames_displayed_ s;
     preview_calls := preview_calls s ++ [c] |}.

(** [LibcameraApp::previewDoneCallback]; [std::to_string(fd)] is the decimal
    numeral of [fd].  Erasing the entry drops its reference. *)
Definition previewDoneCallback (fd : Z) (s : t) : result t :=
  match preview_completed_requests_ s !! fd with
  | None => Throw ("previewDoneCallback: missing fd " +:+ pretty fd)
  | Some _ => Ok (set_preview_completed_requests_
                    (delete fd (preview_completed_requests_ s)) s)
  end.

(** How one turn of the thread's [while (true)] ends: the thread returns,
    it blocks on [preview_cond_var_], or it has shown a frame. *)
Inductive turn :=
  | Returned
  | Waiting
  | Shown (s : t).

(** One turn of [LibcameraApp::previewThread].  [YUV420] is libcamera's
    constant, [quit] the answer of [preview_->Quit()] and [info_text] the
    option [options_->info_text].  [preview_] is dereferenced without a
    test.

    Modelled from the spec: the move assignment of [PreviewItem] is declared
    with it in the missing header; taking the item clears the slot.

    A turn that blocks is taken again when the thread is woken up. *)
Definition previewThread (YUV420 : N) (quit : bool) (info_text : string) (s : t)
    : result turn :=
  if preview_abort_ s then Ok Returned
  else
    match PreviewItem.stream (preview_item_ (app s)) with
    | None => Ok Waiting
    | Some stream =>
        let item := preview_item_ (app s) in
        let s := set_app (set_preview_item_ PreviewItem.default (app s)) s in
        if decide (StreamConfiguration.pixelFormat (configuration stream) ≠ YUV420)
        then Throw "Preview windows only support YUV420"
        else
          let '(w, h, stride) :=
            StreamDimensions stream (Some 0%N) (Some 0%N) (Some 0%N) in
          match PreviewItem.completed_request item with
          | None => Undefined
          | Some completed_request =>
              let buffer := buffers completed_request !! stream_id stream in
              match Mmap buffer (app s), buffer with
              | span :: _, Some b =>
                  match planes b with
                  | [] => Undefined
                  | plane0 :: _ =>
                      let fd := plane_fd plane0 in
                      let s := set_preview_completed_requests_
                                 (<[fd := completed_request]>
                                    (preview_completed_requests_ s)) s in
                      if negb (preview_ (app s)) then Undefined else
                      let s :=
                        if quit then
                          let a := if options_verbose (app s)
                                   then emit (Cerr "Preview window has quit") (app s)
                                   else app s in
                          set_app (set_msg_queue_ (msg_queue_ a ++ [MsgQuit]) a) s
                        else s in
                      let s := set_preview_frames_displayed_
                                 (preview_frames_displayed_ s + 1)%N s in
                      let s := call (Show fd span (default 0%N w) (default 0%N h)
                                       (default 0%N stride)) s in
                      let s := if decide (info_text = "") then s
                               else call (SetInfoText info_text
                                            (sequence completed_request)
                                            (framerate completed_request)) s in
                      Ok (Shown s)
                  end
              | _, _ => Undefined
              end
          end
    end.

(** What happens around the preview slot, one event at a time: a frame
    arrives through [ShowPreview] with the stream pointer the caller passes
    (null or not), the thread takes a turn, or the window reports that it is
    done with a buffer. *)
Inductive event :=
  | Arrival (completed_request : CompletedRequest) (stream : option Stream)
  | Turn (quit : bool)
  | Done (fd : Z).

Definition step (YUV420 : N) (info_text : string) (e : event) (s : t) : result t :=
  match e with
  | Arrival completed_request stream =>
      Ok (set_app (ShowPreview completed_request stream (app s)) s)
  | Turn quit =>
      turn ← previewThread YUV420 quit info_text s;
      Ok (match turn with Shown s' => s' | _ => s end)
  | Done fd => previewDoneCallback fd s
  end.

Fixpoint steps (YUV420 : N) (info_text : string) (es : list event) (s : t)
    : result t :=
  match es with
  | [] => Ok s
  | e :: es' => s ← step YUV420 info_text e s; steps YUV420 info_text es' s
  end.

(** 1 when the slot holds an item, 0 when it is free. *)
Definition occupied (s : t) : N :=
  if PreviewItem.stream (preview_item_ (app s)) is Some _ then 1%N else 0%N.

Fixpoint arrivals (es : list event) : N :=
  match es with
  | [] => 0
  | Arrival _ _ :: es' => 1 + arrivals es'
  | _ :: es' => arrivals es'
  end%N.

(** The arrivals that come with a non-null stream pointer. *)
Fixpoint arrivals_with_stream (es : list event) : N :=
  match es with
  | [] => 0
  | Arrival _ (Some _) :: es' => 1 + arrivals_with_stream es'
  | _ :: es' => arrivals_with_stream es'
  end%N.

(** What the counters and the slot account for. *)
Definition accounted (s : t) : N :=
  (preview_frames_displayed_ s + preview_frames_dropped_ (app s) + occupied s)%N.

End PreviewThread.

(** ** [LibcameraApp::OpenCamera] and [LibcameraApp::CloseCamera] *)

Definition set_camera_ (v : bool) (s : App) : App :=
  {| options_verbose := options_verbose s;
     options_help := options_help s;
     camera_ := v;
     preview_ := preview_ s;
     camera_started_ := camera_started_ s;
     known_completed_requests_ := known_completed_requests_ s;
     msg_queue_ := msg_queue_ s;
     free_requests_ := free_requests_ s;
     requests_ := requests_ s;
     controls_ := controls_ s;
     sequence_ := sequence_ s;
     last_timestamp_ := last_timestamp_ s;
     preview_item_ := preview_item_ s;
     preview_frames_dropped_ := preview_frames_dropped_ s;
     configuration_ := configuration_ s;
     frame_buffers_ := frame_buffers_ s;
     mapped_buffers_ := mapped_buffers_ s;
     streams_ := streams_ s;
     trace := trace s |}.

Definition set_preview_ (v : bool) (s : App) : App :=
  {| options_verbose := options_verbose s;
     options_help := options_help s;
     camera_ := camera_ s;
     preview_ := v;
     camera_started_ := camera_started_ s;
     known_completed_requests_ := known_completed_requests_ s;
     msg_queue_ := msg_queue_ s;
     free_requests_ := free_requests_ s;
     requests_ := requests_ s;
     controls_ := controls_ s;
     sequence_ := sequence_ s;
     last_timestamp_ := last_timestamp_ s;
     preview_item_ := preview_item_ s;
     preview_frames_dropped_ := preview_frames_dropped_ s;
     configuration_ := configuration_ s;
     frame_buffers_ := frame_buffers_ s;
     mapped_buffers_ := mapped_buffers_ s;
     streams_ := streams_ s;
     trace := trace s |}.

Module Lifecycle.

(** The calls the two functions make outside the class, in program order. *)
Inductive Call :=
  | MakePreview
  | PreviewSetDoneCallback
  | CameraManagerStart
  | CameraManagerGet (cam_id : string)
  | CameraAcquire
  | CameraRelease
  | PostProcessorRead (file : string)
  | PostProcessorSetCallback
  | LifecycleCerr (text : string).

(** What libcamera answers: the result of [CameraManager::start], the ids of
    [cameras()] in order, whether [get] finds a camera, and the result of
    [Camera::acquire].  The two results are [int]s. *)
Record Hardware := {
  manager_start : Z;
  manager_cameras : list string;
  manager_get : string -> bool;
  camera_acquire : Z
}.

(** Modelled from the spec: [camera_manager_] and [camera_acquired_] are
    members declared in [core/libcamera_app.hpp], which is not among the
    sources; [camera_manager_] says whether the pointer is non-null.
    [options_post_process_file] stands for [options_->post_process_file].
    [calls] is not a member. *)
Record t := {
  app : App;
  camera_manager_ : bool;
  camera_acquired_ : bool;
  options_post_process_file : string;
  calls : list Call
}.

Definition set_app (v : App) (s : t) : t :=
  {| app := v; camera_manager_ := camera_manager_ s;
     camera_acquired_ := camera_acquired_ s;
     options_post_process_file := options_post_process_file s;
     calls := calls s |}.

Definition set_camera_manager_ (v : bool) (s : t) : t :=
  {| app := app s; camera_manager_ := v;
     camera_acquired_ := camera_acquired_ s;
     options_post_process_file := options_post_process_file s;
     calls := calls s |}.

Definition set_camera_acquired_ (v : bool) (s : t) : t :=
  {| app := app s; camera_manager_ := camera_manager_ s;
     camera_acquired_ := v;
     options_post_process_file := options_post_process_file s;
     calls := calls s |}.

Definition call (c : Call) (s : t) : t :=
  {| app := app s; camera_manager_ := camera_manager_ s;
     camera_acquired_ := camera_acquired_ s;
     options_post_process_file := options_post_process_file s;
     calls := calls s ++ [c] |}.

(** How a member function ends; the object is kept in every case, since the
    destructor runs on it after an exception. *)
Inductive exit :=
  | Normal
  | Exception (what : string)
  | UndefinedBehaviour.

(** [LibcameraApp::OpenCamera].  [-ret] overflows when [ret] is [INT_MIN]. *)
Definition OpenCamera (hw : Hardware) (s : t) : t * exit :=
  let s := call MakePreview (set_app (set_preview_ true (app s)) s) in
  let s := call PreviewSetDoneCallback s in
  let s := if options_verbose (app s)
           then call (LifecycleCerr "Opening camera...") s else s in
  let s := set_camera_manager_ true s in
  let s := call CameraManagerStart s in
  let ret := manager_start hw in
  if decide (ret ≠ 0%Z) then
    if decide (ret = - 2 ^ 31)%Z then (s, UndefinedBehaviour)
    else (s, Exception ("camera manager failed to start, code " +:+ pretty (- ret)%Z))
  else
    match manager_cameras hw with
    | [] => (s, Exception "no cameras available")
    | cam_id :: _ =>
        let s := call (CameraManagerGet cam_id) s in
        let s := set_app (set_camera_ (manager_get hw cam_id) (app s)) s in
        if negb (camera_ (app s))
        then (s, Exception ("failed to find camera " +:+ cam_id))
        else
          let s := call CameraAcquire s in
          if decide (camera_acquire hw ≠ 0%Z)
          then (s, Exception ("failed to acquire camera " +:+ cam_id))
          else
            let s := set_camera_acquired_ true s in
            let s := if options_verbose (app s)
                     then call (LifecycleCerr ("Acquired camera " +:+ cam_id)) s
                     else s in
            let s := if decide (options_post_process_file s = "") then s
                     else call (PostProcessorRead (options_post_process_file s)) s in
            (call PostProcessorSetCallback s, Normal)
    end.

(** [LibcameraApp::CloseCamera].  [camera_->release()] dereferences
    [camera_]. *)
Definition CloseCamera (s : t) : t * exit :=
  let s := set_app (set_preview_ false (app s)) s in
  if camera_acquired_ s && negb (camera_ (app s)) then (s, UndefinedBehaviour)
  else
    let s := if camera_acquired_ s then call CameraRelease s else s in
    let s := set_camera_acquired_ false s in
    let s := set_app (set_camera_ false (app s)) s in
    let s := set_camera_manager_ false s in
    let s := if options_verbose (app s) && negb (options_help (app s))
             then call (LifecycleCerr "Camera closed") s else s in
    (s, Normal).

#[global] Instance Call_eq_dec : EqDecision Call.
Proof. solve_decision. Defined.

(** Whether the hardware lets [OpenCamera] get as far as a successful
    [acquire]. *)
Definition acquirable (hw : Hardware) : bool :=
  bool_decide (manager_start hw = 0%Z)
  && match manager_cameras hw with
     | [] => false
     | cam_id :: _ => manager_get hw cam_id
     end
  && bool_decide (camera_acquire hw = 0%Z).

(** How often [c] occurs in [cs]. *)
Definition count (c : Call) (cs : list Call) : nat :=
  length (filter (fun c' => c' = c) cs).

End Lifecycle.

(** ** The lifetime of [CompletedRequest] objects *)

Module Heap.

(** The application object together with the [CompletedRequest] objects that
    exist: [live] holds the addresses that [new CompletedRequest] has
    returned and that have not been given to [delete]. *)
Record t := {
  app : App;
  live : gset N
}.

(** [LibcameraApp::queueRequest] on the pointer [cr_ptr completed_request].
    Its first two statements move the buffers out of the object and delete
    it, before any test: on a pointer to an object that no longer exists
    this is a use after free and a double delete.  The rest of the function
    uses the address only. *)
Definition queueRequest (d : Device) (completed_request : CompletedRequest)
    (h : t) : result t :=
  if decide (cr_ptr completed_request ∈ live h) then
    let live := live h ∖ {[cr_ptr completed_request]} in
    s ← queueRequest d completed_request (app h);
    Ok {| app := s; live := live |}
  else Undefined.

(** [LibcameraApp::requestComplete]: unless the request was cancelled,
    [new CompletedRequest] creates the object at the address [r]. *)
Definition requestComplete (r : N) (request : Request) (h : t) : result t :=
  s ← requestComplete r request (app h);
  Ok {| app := s;
        live := match request_status request with
                | RequestCancelled => live h
                | _ => {[r]} ∪ live h
                end |}.

End Heap.

(** *** Auxiliary notions for the properties below *)

(** Everything but the two buffer tables and the trace. *)
Definition beside_buffers (s : App) : App :=
  set_trace [] (set_mapped_buffers_ ∅ (set_frame_buffers_ ∅ s)).

(** A request with another buffer map. *)
Definition Request_with_buffers (m : BufferMap) (request : Request) : Request :=
  {| request_id := request_id request;
     request_status := request_status request;
     request_buffers := m;
     request_controls := request_controls request;
     request_metadata := request_metadata request |}.

(** Everything but [requests_] and the trace. *)
Definition beside_requests (s : App) : App := set_trace [] (set_requests_ [] s).

(** More concrete objects. *)
Module Sample2.

(** A started camera with two payloads out, at addresses 7 and 8, and two
    free containers. *)
Definition recycling : App :=
  set_free_requests_ [Request_new 1000; Request_new 1001]
    (set_known_completed_requests_ {[ 7%N; 8%N ]}
       (set_camera_started_ true Sample.opened)).

(** A camera whose [stop] fails. *)
Definition camera_stop_fails : Device :=
  {| camera_stop := (-5);
     camera_queueRequest := fun _ => 0%Z;
     camera_createRequest := fun n => Some (N.of_nat n + 1000)%N;
     request_addBuffer := fun _ _ _ => 0%Z;
     configuration_validate := Valid;
     camera_configure := 0;
     allocator_allocate := fun _ => 0%Z;
     allocator_buffers := fun stream => [];
     sys_mmap := fun len fd => 4096%Z |}.

End Sample2.

Module PreviewSample.

(** The preview of [Sample.opened] with buffer 1 mapped; nothing shown yet. *)
Definition idle : PreviewThread.t :=
  {| PreviewThread.app :=
       set_mapped_buffers_
         {[ 1%N := [ {| span_data := 24576; span_size := 307200 |} ] ]} Sample.opened;
     PreviewThread.preview_abort_ := false;
     PreviewThread.preview_completed_requests_ := ∅;
     PreviewThread.preview_frames_displayed_ := 0;
     PreviewThread.preview_calls := [] |}.

(** Two frames arrive before the thread takes its turn, then a third; the
    window reports the first buffer done. *)
Definition busy_run : list PreviewThread.event :=
  [ PreviewThread.Arrival (Sample.payload 7 0) (Some Sample.viewfinder);
    PreviewThread.Arrival (Sample.payload 8 1) (Some Sample.viewfinder);
    PreviewThread.Turn false;
    PreviewThread.Turn false;
    PreviewThread.Done 5;
    PreviewThread.Arrival (Sample.payload 9 2) (Some Sample.viewfinder) ].

(** The same run with one more frame, handed over with a null stream while
    the slot is free. *)
Definition null_run : list PreviewThread.event :=
  [ PreviewThread.Arrival (Sample.payload 6 0) None;
    PreviewThread.Arrival (Sample.payload 7 0) (Some Sample.viewfinder);
    PreviewThread.Arrival (Sample.payload 8 1) (Some Sample.viewfinder);
    PreviewThread.Turn false;
    PreviewThread.Turn false;
    PreviewThread.Done 5;
    PreviewThread.Arrival (Sample.payload 9 2) (Some Sample.viewfinder) ].

End PreviewSample.

(** The file descriptor under which the thread will record the pending item:
    that of the first plane of the buffer bound to the item's stream. *)
Definition pending_fd (s : PreviewThread.t) : option Z :=
  let item := preview_item_ (PreviewThread.app s) in
  cr ← PreviewItem.completed_request item;
  stream ← PreviewItem.stream item;
  b ← buffers cr !! stream_id stream;
  plane0 ← head (planes b);
  Some (plane_fd plane0).

Module LifecycleSample.

(** The object before [OpenCamera]: no preview, no camera. *)
Definition constructed : Lifecycle.t :=
  {| Lifecycle.app := set_camera_ false (set_preview_ false Sample.configured);
     Lifecycle.camera_manager_ := false;
     Lifecycle.camera_acquired_ := false;
     Lifecycle.options_post_process_file := "";
     Lifecycle.calls := [] |}.

(** One camera that can be acquired. *)
Definition one_camera : Lifecycle.Hardware :=
  {| Lifecycle.manager_start := 0;
     Lifecycle.manager_cameras := ["imx477"];
     Lifecycle.manager_get := fun _ => true;
     Lifecycle.camera_acquire := 0 |}.

(** One camera that another process holds. *)
Definition camera_in_use : Lifecycle.Hardware :=
  {| Lifecycle.manager_start := 0;
     Lifecycle.manager_cameras := ["imx477"];
     Lifecycle.manager_get := fun _ => true;
     Lifecycle.camera_acquire := (-16) |}.

End LifecycleSample.

Module EncoderSample.

(** A second completed request, on buffer 2. *)
Definition second : CompletedRequest :=
  {| cr_ptr := 8; sequence := 1;
     buffers := {[ 100%N := Sample.frame 2 6 2000 ]};
     metadata := ∅; framerate := 0 |}.

(** An encoder application with two mapped buffers, at 24576 and 28672. *)
Definition two_buffers : LibcameraEncoder.t :=
  {| LibcameraEncoder.app :=
       set_mapped_buffers_
         {[ 1%N := [ {| span_data := 24576; span_size := 307200 |} ];
            2%N := [ {| span_data := 28672; span_size := 307200 |} ] ]}
         Sample.opened;
     LibcameraEncoder.encoder_ := true;
     LibcameraEncoder.encode_buffer_queue_ := [] |}.

End EncoderSample.

(** * Properties *)

(** Running a sequence of statements: expose the bind of [result]. *)
Ltac run := unfold mbind, result_bind; simpl.

Create HintDb recycle.

(** ** Recycling and the stop guard *)

Lemma not_elem_of_difference_self (x : N) (X : gset N) : x ∉ X ∖ {[x]}.
Proof. rewrite elem_of_difference, elem_of_singleton. tauto. Qed.

Lemma queueRequest_not_started d cr s :
  camera_started_ s = false -> queueRequest d cr s = Ok s.
Proof. intros H. unfold queueRequest. by rewrite H. Qed.

Lemma queueRequest_unknown d cr s :
  cr_ptr cr ∉ known_completed_requests_ s -> queueRequest d cr s = Ok s.
Proof.
  intros H. unfold queueRequest.
  destruct (camera_started_ s); simpl; [|done].
  by rewrite decide_False.
Qed.

Lemma free_requests_drain_nil q : free_requests_drain q = [].
Proof. induction q; simpl; auto. Qed.

#[local] Hint Resolve queueRequest_not_started queueRequest_unknown : recycle.

(** What [StopCamera] leaves behind whenever it returns. *)
Lemma StopCamera_returns d s s' :
  StopCamera d s = Ok s' ->
  camera_started_ s' = false /\
  known_completed_requests_ s' = ∅ /\
  msg_queue_ s' = [] /\
  free_requests_ s' = [] /\
  requests_ s' = [] /\
  controls_ s' = ∅.
Proof.
  destruct s as [verbose help cam prev started ? ? ? ? ? ? ? ? ? ? ? ? ? ?].
  unfold StopCamera. run.
  destruct started, cam, prev, verbose, help; simpl;
    try case_decide; simpl; try discriminate;
    intros [= <-]; simpl; by rewrite ?free_requests_drain_nil.
Qed.

(** C1. Once [StopCamera] has returned, [camera_started_] is false and the
    known-completed set is empty, and releasing any [CompletedRequest]
    afterwards, which runs [queueRequest] on it, returns with the object
    unchanged: nothing is submitted to the camera (the trace is the same) and
    [free_requests_] is the same.  The same holds in every later state in
    which the identity is not in the known-completed set, started or not. *)
Theorem StopCamera_orphan_release_is_noop d d' s s' cr :
  StopCamera d s = Ok s' ->
  camera_started_ s' = false /\
  known_completed_requests_ s' = ∅ /\
  queueRequest d' cr s' = Ok s' /\
  (forall s'', cr_ptr cr ∉ known_completed_requests_ s'' ->
               queueRequest d' cr s'' = Ok s'').
Proof.
  intros Hstop.
  destruct (StopCamera_returns _ _ _ Hstop) as (Hstarted & Hknown & _).
  repeat split; auto with recycle.
Qed.

Lemma StopCamera_orphan_release_is_noop_witness :
  StopCamera Sample.camera Sample.running
    = Ok (emit PreviewReset (emit RequestCompletedDisconnect
            (emit PostProcessorStop (emit CameraStop Sample.opened)))) /\
  queueRequest Sample.camera (Sample.payload 7 0)
    (emit PreviewReset (emit RequestCompletedDisconnect
       (emit PostProcessorStop (emit CameraStop Sample.opened))))
    = Ok (emit PreviewReset (emit RequestCompletedDisconnect
            (emit PostProcessorStop (emit CameraStop Sample.opened)))).
Proof.
  assert (H : StopCamera Sample.camera Sample.running
    = Ok (emit PreviewReset (emit RequestCompletedDisconnect
            (emit PostProcessorStop (emit CameraStop Sample.opened))))) by reflexivity.
  split; [exact H|].
  exact (proj1 (proj2 (proj2
    (StopCamera_orphan_release_is_noop Sample.camera Sample.camera _ _
       (Sample.payload 7 0) H)))).
Defined.

(** [queueRequest] never touches [camera_started_], and whenever it returns
    with the camera started the identity is out of the set. *)
Lemma queueRequest_returns d cr s s1 :
  queueRequest d cr s = Ok s1 ->
  camera_started_ s1 = camera_started_ s /\
  (camera_started_ s = true -> cr_ptr cr ∉ known_completed_requests_ s1).
Proof.
  unfold queueRequest, mbind, result_bind.
  destruct (camera_started_ s) eqn:Hstarted; simpl.
  - case_decide as Hin.
    + simpl. destruct (free_requests_ s) as [|request rest] eqn:Hfree; simpl.
      * intros [= <-]; simpl. split; [done|]. intros _. apply not_elem_of_difference_self.
      * destruct (addBuffers _ _ _ _); simpl; try discriminate.
        case_match; try discriminate.
        intros [= <-]; simpl. split; [done|]. intros _. apply not_elem_of_difference_self.
    + intros [= <-]. by split.
  - intros [= <-]. split; [congruence | discriminate].
Qed.

(** The ordinary recycle: the known identity is erased, the free container
    takes the buffers and the pending controls and goes to the camera. *)
Example queueRequest_requeues :
  (fun s => (trace s, free_requests_ s, elements (known_completed_requests_ s)))
    <$> (match queueRequest Sample.camera (Sample.payload 7 0) Sample.running with
         | Ok s => Some s
         | _ => None
         end)
  = Some ([CameraQueueRequest
             (Request_bind 100 (Sample.frame 1 5 1000) (Request_new 1000))],
          [], []).
Proof. vm_compute. reflexivity. Qed.

(** C2, amended. [queueRequest] destroys the object it is given before any
    test, so it runs once per object.  When a call returns, the object no
    longer exists and a second call on the same pointer is undefined
    behaviour, not a no-op; if the camera was started the identity is out of
    [known_completed_requests_].  A call on an object that exists and whose
    identity is not in the set destroys the object and changes nothing
    else: no request is submitted to the camera, no container is popped
    from [free_requests_] and the set is not modified.  The identity is in
    the set again once [requestComplete] has created a new object at that
    address. *)
Theorem queueRequest_once_per_object d d' cr (h h1 : Heap.t) :
  Heap.queueRequest d cr h = Ok h1 ->
  (cr_ptr cr ∉ Heap.live h1) /\
  (forall cr', cr_ptr cr' = cr_ptr cr -> Heap.queueRequest d' cr' h1 = Undefined) /\
  (camera_started_ (Heap.app h) = true ->
     cr_ptr cr ∉ known_completed_requests_ (Heap.app h1)) /\
  (forall cr' h2,
     cr_ptr cr' = cr_ptr cr ->
     cr_ptr cr ∈ Heap.live h2 ->
     cr_ptr cr ∉ known_completed_requests_ (Heap.app h2) ->
     Heap.queueRequest d' cr' h2
       = Ok {| Heap.app := Heap.app h2;
               Heap.live := Heap.live h2 ∖ {[cr_ptr cr]} |}) /\
  (forall request h2,
     request_status request <> RequestCancelled ->
     Heap.requestComplete (cr_ptr cr) request h1 = Ok h2 ->
     cr_ptr cr ∈ Heap.live h2 /\
     cr_ptr cr ∈ known_completed_requests_ (Heap.app h2)).
Proof.
  unfold Heap.queueRequest at 1. intros Hfirst.
  destruct (decide (cr_ptr cr ∈ Heap.live h)) as [Hlive|]; [|discriminate].
  unfold mbind, result_bind in Hfirst.
  destruct (queueRequest d cr (Heap.app h)) as [s1| | | |] eqn:Hcall;
    try discriminate.
  injection Hfirst as <-. simpl.
  destruct (queueRequest_returns _ _ _ _ Hcall) as [_ Hgone].
  split; [apply not_elem_of_difference_self|].
  split.
  { intros cr' Hptr. unfold Heap.queueRequest. simpl.
    rewrite decide_False; [done|]. rewrite Hptr. apply not_elem_of_difference_self. }
  split; [exact Hgone|]. split.
  - intros cr' h2 Hptr Hlive2 Hnot. unfold Heap.queueRequest.
    rewrite decide_True by (by rewrite Hptr).
    rewrite queueRequest_unknown by (by rewrite Hptr).
    unfold mbind, result_bind. by rewrite Hptr.
  - intros request h2 Hstatus. unfold Heap.requestComplete, requestComplete. simpl.
    unfold mbind, result_bind.
    destruct (request_status request); try done;
      destruct (BufferMap_begin _); try discriminate;
      intros [= <-]; simpl; split; apply elem_of_union_l, elem_of_singleton; done.
Qed.

Lemma queueRequest_once_per_object_witness :
  exists h1,
    Heap.queueRequest Sample.camera (Sample.payload 7 0)
      {| Heap.app := Sample.running; Heap.live := {[ 7%N ]} |} = Ok h1 /\
    (7%N ∉ Heap.live h1) /\
    (7%N ∉ known_completed_requests_ (Heap.app h1)) /\
    Heap.queueRequest Sample.camera (Sample.payload 7 0) h1 = Undefined.
Proof.
  destruct (Heap.queueRequest Sample.camera (Sample.payload 7 0)
              {| Heap.app := Sample.running; Heap.live := {[ 7%N ]} |})
    as [h1| | | |] eqn:Hfirst; try (vm_compute in Hfirst; discriminate).
  destruct (queueRequest_once_per_object Sample.camera Sample.camera _ _ _ Hfirst)
    as (Hdead & Hagain & Hgone & _).
  exists h1. split; [reflexivity|]. split; [exact Hdead|].
  split; [exact (Hgone eq_refl)|]. exact (Hagain _ eq_refl).
Defined.

(** C2 as stated fails: a second [queueRequest] for the identity that a first
    call has recycled is a call on an object the first call has deleted.
    The first call returns and leaves the identity out of the set; the
    second is undefined behaviour instead of returning. *)
Lemma queueRequest_twice_is_undefined :
  let h := {| Heap.app := Sample.running; Heap.live := {[ 7%N ]} |} in
  (exists h1,
     Heap.queueRequest Sample.camera (Sample.payload 7 0) h = Ok h1 /\
     7%N ∉ known_completed_requests_ (Heap.app h1)) /\
  (h1 ← Heap.queueRequest Sample.camera (Sample.payload 7 0) h;
   Heap.queueRequest Sample.camera (Sample.payload 7 0) h1) = Undefined /\
  ~ returns (h1 ← Heap.queueRequest Sample.camera (Sample.payload 7 0) h;
             Heap.queueRequest Sample.camera (Sample.payload 7 0) h1).
Proof.
  intros h.
  assert (Htwice :
    (h1 ← Heap.queueRequest Sample.camera (Sample.payload 7 0) h;
     Heap.queueRequest Sample.camera (Sample.payload 7 0) h1) = Undefined)
    by (vm_compute; reflexivity).
  split; [|split; [exact Htwice|]].
  - destruct (Heap.queueRequest Sample.camera (Sample.payload 7 0) h)
      as [h1| | | |] eqn:Hfirst; try (vm_compute in Hfirst; discriminate).
    exists h1. split; [reflexivity|].
    vm_compute in Hfirst. injection Hfirst as <-. simpl.
    apply (bool_decide_unpack _). vm_compute. exact I.
  - rewrite Htwice. intros [? ?]. discriminate.
Qed.

(** C6. With the camera started, the identity in the known-completed set
    and [free_requests_] empty, [queueRequest] removes the identity from the
    set, writes the warning to [std::cerr] and returns: the warning is the
    only thing added to the trace, so nothing is submitted to the camera, and
    nothing is thrown.  Nothing else in the object changes, so the buffers of
    the request go nowhere. *)
Theorem queueRequest_no_free_request d cr s :
  camera_started_ s = true ->
  cr_ptr cr ∈ known_completed_requests_ s ->
  free_requests_ s = [] ->
  exists s',
    queueRequest d cr s = Ok s' /\
    s' = emit (Cerr "WARNING: could not make request!")
           (set_known_completed_requests_
              (known_completed_requests_ s ∖ {[cr_ptr cr]}) s) /\
    known_completed_requests_ s' = (known_completed_requests_ s ∖ {[cr_ptr cr]}) /\
    (cr_ptr cr ∉ known_completed_requests_ s') /\
    trace s' = trace s ++ [Cerr "WARNING: could not make request!"] /\
    free_requests_ s' = [] /\
    camera_started_ s' = true /\
    controls_ s' = controls_ s.
Proof.
  intros Hstarted Hin Hfree.
  unfold queueRequest. rewrite Hstarted; simpl.
  rewrite decide_True by done. simpl. rewrite Hfree.
  eexists; split; [reflexivity|]. simpl.
  repeat split; auto. apply not_elem_of_difference_self.
Qed.

Lemma queueRequest_no_free_request_witness :
  exists s',
    queueRequest Sample.camera (Sample.payload 7 0)
      (set_free_requests_ [] Sample.running) = Ok s' /\
    trace s' = [Cerr "WARNING: could not make request!"].
Proof.
  destruct (queueRequest_no_free_request Sample.camera (Sample.payload 7 0)
              (set_free_requests_ [] Sample.running))
    as (s' & Hq & _ & _ & _ & Htrace & _).
  - reflexivity.
  - simpl. apply elem_of_singleton. reflexivity.
  - reflexivity.
  - exists s'. split; [exact Hq | exact Htrace].
Defined.

(** ** The preview slot *)

Lemma ShowPreview_busy cr stream s :
  PreviewItem.stream (preview_item_ s) <> None ->
  preview_item_ (ShowPreview cr stream s) = preview_item_ s /\
  preview_frames_dropped_ (ShowPreview cr stream s)
    = (preview_frames_dropped_ s + 1)%N.
Proof.
  intros Hbusy. unfold ShowPreview.
  destruct (PreviewItem.stream (preview_item_ s)); [by simpl | done].
Qed.

Lemma ShowPreview_free cr stream s :
  PreviewItem.stream (preview_item_ s) = None ->
  preview_item_ (ShowPreview cr stream s)
    = {| PreviewItem.completed_request := Some cr; PreviewItem.stream := stream |} /\
  preview_frames_dropped_ (ShowPreview cr stream s) = preview_frames_dropped_ s.
Proof. intros Hfree. unfold ShowPreview. by rewrite Hfree. Qed.

Lemma ShowPreview_all_busy arrivals s :
  PreviewItem.stream (preview_item_ s) <> None ->
  preview_item_ (ShowPreview_all arrivals s) = preview_item_ s /\
  preview_frames_dropped_ (ShowPreview_all arrivals s)
    = (preview_frames_dropped_ s + N.of_nat (length arrivals))%N.
Proof.
  revert s. induction arrivals as [|a arrivals IH]; intros s Hbusy; simpl.
  - split; [done | lia].
  - destruct (ShowPreview_busy a.1 a.2 s Hbusy) as [Hitem Hdropped].
    destruct (IH (ShowPreview a.1 a.2 s)) as [Hitem' Hdropped'].
    + by rewrite Hitem.
    + unfold ShowPreview_all in *. rewrite Hitem', Hdropped', Hitem, Hdropped.
      split; [done | lia].
Qed.

(** C7, amended. The slot counts as holding an item exactly when its stream
    pointer is non-null.  A call that finds it so leaves the item as it is
    and adds exactly 1 to [preview_frames_dropped_]; a call that finds the
    stream pointer null stores the arriving request with its stream and
    leaves the counter alone.  For a burst that starts on a free slot with an
    arrival whose stream is non-null, the first arrival is the one stored and
    every later one is counted as dropped: K arrivals store 1 and add K-1 to
    the counter. *)
Theorem ShowPreview_drop_if_busy cr stream first rest s :
  (PreviewItem.stream (preview_item_ s) <> None ->
     preview_item_ (ShowPreview cr stream s) = preview_item_ s /\
     preview_frames_dropped_ (ShowPreview cr stream s)
       = (preview_frames_dropped_ s + 1)%N) /\
  (PreviewItem.stream (preview_item_ s) = None ->
     preview_item_ (ShowPreview cr stream s)
       = {| PreviewItem.completed_request := Some cr;
            PreviewItem.stream := stream |} /\
     preview_frames_dropped_ (ShowPreview cr stream s)
       = preview_frames_dropped_ s) /\
  (PreviewItem.stream (preview_item_ s) = None ->
     preview_item_ (ShowPreview_all ((cr, Some first) :: rest) s)
       = {| PreviewItem.completed_request := Some cr;
            PreviewItem.stream := Some first |} /\
     preview_frames_dropped_ (ShowPreview_all ((cr, Some first) :: rest) s)
       = (preview_frames_dropped_ s + N.of_nat (length rest))%N).
Proof.
  split; [apply ShowPreview_busy|]. split; [apply ShowPreview_free|].
  intros Hfree. simpl.
  destruct (ShowPreview_free cr (Some first) s Hfree) as [Hitem Hdropped].
  destruct (ShowPreview_all_busy rest (ShowPreview cr (Some first) s))
    as [Hitem' Hdropped'].
  - by rewrite Hitem.
  - unfold ShowPreview_all in *. simpl.
    by rewrite Hitem', Hdropped', Hitem, Hdropped.
Qed.

Lemma ShowPreview_drop_if_busy_witness :
  preview_item_
    (ShowPreview_all [(Sample.payload 7 0, Some Sample.viewfinder);
                      (Sample.payload 8 1, Some Sample.viewfinder);
                      (Sample.payload 9 2, Some Sample.viewfinder)] Sample.opened)
    = {| PreviewItem.completed_request := Some (Sample.payload 7 0);
         PreviewItem.stream := Some Sample.viewfinder |} /\
  preview_frames_dropped_
    (ShowPreview_all [(Sample.payload 7 0, Some Sample.viewfinder);
                      (Sample.payload 8 1, Some Sample.viewfinder);
                      (Sample.payload 9 2, Some Sample.viewfinder)] Sample.opened)
    = 2%N.
Proof.
  exact (proj2 (proj2 (ShowPreview_drop_if_busy (Sample.payload 7 0) None
                         Sample.viewfinder
                         [(Sample.payload 8 1, Some Sample.viewfinder);
                          (Sample.payload 9 2, Some Sample.viewfinder)]
                         Sample.opened)) eq_refl).
Defined.

(** C7 as stated fails when the stream argument is null: the first arrival is
    stored, the slot still tests as free, and the second arrival replaces the
    first without a drop being counted. *)
Lemma ShowPreview_null_stream_replaces :
  let s1 := ShowPreview (Sample.payload 7 0) None Sample.opened in
  let s2 := ShowPreview (Sample.payload 8 1) None s1 in
  PreviewItem.completed_request (preview_item_ s1) = Some (Sample.payload 7 0) /\
  PreviewItem.completed_request (preview_item_ s2) = Some (Sample.payload 8 1) /\
  preview_item_ s2 <> preview_item_ s1 /\
  preview_frames_dropped_ s2 = 0%N /\
  preview_frames_dropped_ s2 <> (preview_frames_dropped_ Sample.opened + 1)%N.
Proof. repeat split; try reflexivity; discriminate. Qed.

(** ** Stream lookup *)

(** C10. For a name that is not in [streams_], [GetStream] returns a null
    pointer and the three output variables keep what they held; for a name
    that is, it returns that stream and every output passed as a non-null
    pointer receives the configured width, height or stride (a null one stays
    null).  The five named wrappers are [GetStream] at their names. *)
Theorem GetStream_spec name w h stride s :
  (streams_ s !! name = None ->
     GetStream name w h stride s = (None, (w, h, stride))) /\
  (forall it, streams_ s !! name = Some it ->
     GetStream name w h stride s
       = (Some it,
          ((fun _ => StreamConfiguration.size_width (configuration it)) <$> w,
           (fun _ => StreamConfiguration.size_height (configuration it)) <$> h,
           (fun _ => StreamConfiguration.stride (configuration it)) <$> stride))) /\
  ViewfinderStream w h stride s = GetStream "viewfinder" w h stride s /\
  StillStream w h stride s = GetStream "still" w h stride s /\
  RawStream w h stride s = GetStream "raw" w h stride s /\
  VideoStream w h stride s = GetStream "video" w h stride s /\
  LoresStream w h stride s = GetStream "lores" w h stride s.
Proof.
  unfold GetStream. repeat split; try reflexivity.
  - by intros ->.
  - intros it ->. unfold StreamDimensions. by destruct w, h, stride.
Qed.

Lemma GetStream_spec_witness :
  StillStream (Some 1%N) None (Some 3%N) Sample.opened
    = (None, (Some 1%N, None, Some 3%N)) /\
  ViewfinderStream (Some 1%N) None (Some 3%N) Sample.opened
    = (Some Sample.viewfinder, (Some 640%N, None, Some 640%N)).
Proof.
  split.
  - exact (proj1 (GetStream_spec "still" (Some 1%N) None (Some 3%N) Sample.opened)
             eq_refl).
  - exact (proj1 (proj2 (GetStream_spec "viewfinder" (Some 1%N) None (Some 3%N)
                           Sample.opened)) Sample.viewfinder eq_refl).
Defined.

(** ** The encoder's queue of in-flight requests *)

Module LibcameraEncoderProps.
Import LibcameraEncoder.

Lemma EncodeBuffer_pushes cr stream e e' :
  EncodeBuffer cr stream e = Ok e' ->
  encode_buffer_queue_ e' = encode_buffer_queue_ e ++ [cr].
Proof.
  unfold EncodeBuffer.
  destruct (encoder_ e); simpl; [|discriminate].
  destruct stream as [st|]; [|discriminate].
  unfold StreamDimensions; simpl.
  destruct (Mmap _ _) as [|span ?]; [discriminate|].
  destruct (buffers cr !! stream_id st) as [b|]; [|discriminate].
  case_decide; [discriminate|].
  destruct (planes b); [discriminate|].
  by intros [= <-].
Qed.

Lemma encodeBufferDone_times_pops k e :
  k <= length (encode_buffer_queue_ e) ->
  encodeBufferDone_times k e
    = Ok (set_encode_buffer_queue_ (drop k (encode_buffer_queue_ e)) e).
Proof.
  revert e. induction k as [|k IH]; intros e Hk; simpl.
  - rewrite drop_0. by destruct e.
  - unfold mbind, result_bind, encodeBufferDone; simpl.
    destruct (encode_buffer_queue_ e) as [|c q] eqn:Hq; simpl in *; [lia|].
    rewrite IH by (simpl; lia). by simpl.
Qed.

End LibcameraEncoderProps.

(** C9, amended. [EncodeBuffer], when it returns, has pushed the request at
    the back of [encode_buffer_queue_] and left the rest of the queue alone.
    A done signal is not matched against the queue.  One without a buffer
    identification pops exactly the front of the queue, the oldest
    submission, whichever buffer the encoder has finished, so [k] of them
    remove the [k] oldest in submission order; on an empty queue it throws
    "no buffer available to return".  One that carries a buffer
    identification, be it that of the oldest submission, fails the assertion
    [mem == nullptr] and releases nothing; in a build without assertions the
    identification is ignored and the signal pops the front like any
    other. *)
Theorem encode_buffer_queue_fifo cr stream mem k (e : LibcameraEncoder.t) :
  (forall e', LibcameraEncoder.EncodeBuffer cr stream e = Ok e' ->
     LibcameraEncoder.encode_buffer_queue_ e'
       = LibcameraEncoder.encode_buffer_queue_ e ++ [cr]) /\
  (forall oldest rest,
     LibcameraEncoder.encode_buffer_queue_ e = oldest :: rest ->
     LibcameraEncoder.encodeBufferDone 0 e
       = Ok (LibcameraEncoder.set_encode_buffer_queue_ rest e) /\
     LibcameraEncoder.encodeBufferDone_NDEBUG mem e
       = Ok (LibcameraEncoder.set_encode_buffer_queue_ rest e)) /\
  (k <= length (LibcameraEncoder.encode_buffer_queue_ e) ->
     LibcameraEncoder.encodeBufferDone_times k e
       = Ok (LibcameraEncoder.set_encode_buffer_queue_
               (drop k (LibcameraEncoder.encode_buffer_queue_ e)) e)) /\
  (LibcameraEncoder.encode_buffer_queue_ e = [] ->
     LibcameraEncoder.encodeBufferDone 0 e = Throw "no buffer available to return" /\
     LibcameraEncoder.encodeBufferDone_NDEBUG mem e
       = Throw "no buffer available to return") /\
  (mem <> 0%Z ->
     LibcameraEncoder.encodeBufferDone mem e = AssertFail "mem == nullptr").
Proof.
  split; [intros e'; apply LibcameraEncoderProps.EncodeBuffer_pushes|].
  split; [|split; [apply LibcameraEncoderProps.encodeBufferDone_times_pops|split]].
  - intros oldest rest Hq.
    unfold LibcameraEncoder.encodeBufferDone, LibcameraEncoder.encodeBufferDone_NDEBUG.
    simpl. by rewrite Hq.
  - intros Hq.
    unfold LibcameraEncoder.encodeBufferDone, LibcameraEncoder.encodeBufferDone_NDEBUG.
    simpl. by rewrite Hq.
  - intros Hmem. unfold LibcameraEncoder.encodeBufferDone.
    by rewrite decide_False.
Qed.

Lemma encode_buffer_queue_fifo_witness :
  exists e1,
    LibcameraEncoder.EncodeBuffer (Sample.payload 7 0) (Some Sample.viewfinder)
      Sample.encoder = Ok e1 /\
    LibcameraEncoder.encode_buffer_queue_ e1 = [Sample.payload 7 0] /\
    LibcameraEncoder.encodeBufferDone 0 e1
      = Ok (LibcameraEncoder.set_encode_buffer_queue_ [] e1) /\
    LibcameraEncoder.encodeBufferDone_NDEBUG 24576 e1
      = Ok (LibcameraEncoder.set_encode_buffer_queue_ [] e1) /\
    LibcameraEncoder.encodeBufferDone_times 1 e1
      = Ok (LibcameraEncoder.set_encode_buffer_queue_ [] e1) /\
    LibcameraEncoder.encodeBufferDone 0 Sample.encoder
      = Throw "no buffer available to return" /\
    LibcameraEncoder.encodeBufferDone 24576 e1 = AssertFail "mem == nullptr".
Proof.
  eexists. split; [reflexivity|].
  pose proof (encode_buffer_queue_fifo (Sample.payload 7 0)
                (Some Sample.viewfinder) 24576 0 Sample.encoder)
    as (Hpush & _ & _ & Hempty & _).
  split; [exact (Hpush _ eq_refl)|].
  match goal with
  | |- LibcameraEncoder.encodeBufferDone 0 ?e1 = _ /\ _ =>
      pose proof (encode_buffer_queue_fifo (Sample.payload 7 0)
                    (Some Sample.viewfinder) 24576 1 e1)
        as (_ & Hpop & Htimes & _ & Hassert)
  end.
  split; [exact (proj1 (Hpop _ _ eq_refl))|].
  split; [exact (proj2 (Hpop _ _ eq_refl))|].
  split; [apply Htimes; simpl; lia|].
  split; [exact (proj1 (Hempty eq_refl))|].
  apply Hassert. discriminate.
Defined.

(** C9 as stated fails.  With two requests in flight, submitted with the
    buffers at 24576 and then at 28672, a done signal that names the oldest
    one is refused by the assertion and releases nothing, so not every done
    signal releases the oldest reference; and a completion of the second
    buffer, signalled without identification as the callback requires, or
    with it in a build without assertions, releases the first request
    without any error. *)
Lemma encodeBufferDone_does_not_match :
  exists e1 e2,
    LibcameraEncoder.EncodeBuffer (Sample.payload 7 0) (Some Sample.viewfinder)
      EncoderSample.two_buffers = Ok e1 /\
    LibcameraEncoder.EncodeBuffer EncoderSample.second (Some Sample.viewfinder) e1
      = Ok e2 /\
    LibcameraEncoder.encode_buffer_queue_ e2
      = [Sample.payload 7 0; EncoderSample.second] /\
    trace (LibcameraEncoder.app e2)
      = [EncoderEncodeBuffer 5 307200 24576 640 480 640 1;
         EncoderEncodeBuffer 6 307200 28672 640 480 640 2] /\
    LibcameraEncoder.encodeBufferDone 24576 e2 = AssertFail "mem == nullptr" /\
    LibcameraEncoder.encodeBufferDone 0 e2
      = Ok (LibcameraEncoder.set_encode_buffer_queue_ [EncoderSample.second] e2) /\
    LibcameraEncoder.encodeBufferDone_NDEBUG 28672 e2
      = Ok (LibcameraEncoder.set_encode_buffer_queue_ [EncoderSample.second] e2).
Proof.
  destruct (LibcameraEncoder.EncodeBuffer (Sample.payload 7 0)
              (Some Sample.viewfinder) EncoderSample.two_buffers)
    as [e1| | | |] eqn:H1; try (vm_compute in H1; discriminate).
  destruct (LibcameraEncoder.EncodeBuffer EncoderSample.second
              (Some Sample.viewfinder) e1)
    as [e2| | | |] eqn:H2;
    try (vm_compute in H1; injection H1 as <-; vm_compute in H2; discriminate).
  exists e1, e2. split; [reflexivity|]. split; [exact H2|].
  vm_compute in H1. injection H1 as <-.
  vm_compute in H2. injection H2 as <-.
  repeat split.
Qed.

(** ** The completion callback *)

Lemma BufferMap_begin_is_Some (m : BufferMap) :
  m <> ∅ -> is_Some (BufferMap_begin m).
Proof.
  intros Hne. unfold BufferMap_begin, BufferMap_items.
  destruct (merge_sort _ (map_to_list m)) as [|p l] eqn:Hl; [|by eexists].
  exfalso. apply Hne, map_to_list_empty_iff.
  apply Permutation_nil_r. rewrite <- Hl. symmetry. apply merge_sort_Permutation.
Qed.

Lemma delivered_emit e s :
  delivered (emit e s)
    = delivered s ++ match e with PostProcessorProcess p => [p] | _ => [] end.
Proof.
  unfold delivered, emit; simpl. rewrite omap_app. f_equal.
  by destruct e.
Qed.

(** One completion that is not cancelled. *)
Lemma requestComplete_live r request first s :
  request_status request <> RequestCancelled ->
  BufferMap_begin (request_buffers request) = Some first ->
  exists s' payload,
    requestComplete r request s = Ok s' /\
    delivered s' = delivered s ++ [payload] /\
    cr_ptr payload = r /\
    sequence payload = sequence_ s /\
    buffers payload = request_buffers request /\
    framerate payload
      = framerate_of (last_timestamp_ s) (metadata_timestamp first.2) /\
    sequence_ s' = (sequence_ s + 1)%N /\
    last_timestamp_ s' = metadata_timestamp first.2 /\
    known_completed_requests_ s' = {[r]} ∪ known_completed_requests_ s /\
    free_requests_ s' = free_requests_ s ++ [Request_reuse request].
Proof.
  intros Hlive Hfirst. unfold requestComplete.
  destruct (request_status request) eqn:Hstatus; try done;
    simpl; rewrite Hfirst; simpl;
    (eexists; eexists; split; [reflexivity|]);
    rewrite delivered_emit; simpl; repeat split; reflexivity.
Qed.

Lemma requestComplete_cancelled r request s :
  request_status request = RequestCancelled -> requestComplete r request s = Ok s.
Proof. intros H. unfold requestComplete. by rewrite H. Qed.

Lemma requestComplete_all_sequence cs : forall s,
  Forall (fun c => request_status c.2 <> RequestCancelled ->
                   request_buffers c.2 <> ∅) cs ->
  exists s' new,
    requestComplete_all cs s = Ok s' /\
    delivered s' = delivered s ++ new /\
    cr_ptr <$> new
      = fst <$> filter (fun c => request_status c.2 <> RequestCancelled) cs /\
    sequence <$> new
      = (fun k => (sequence_ s + N.of_nat k)%N) <$> seq 0 (length new) /\
    sequence_ s' = (sequence_ s + N.of_nat (length new))%N.
Proof.
  induction cs as [|[r request] cs IH]; intros s Hcs.
  - exists s, []. simpl. rewrite app_nil_r. repeat split; auto. lia.
  - apply Forall_cons in Hcs as [Hc Hcs]. simpl in Hc.
    destruct (decide (request_status request = RequestCancelled)) as [Hcan|Hlive].
    + destruct (IH s Hcs) as (s' & new & Hrun & Hdel & Hptr & Hseq & Hnext).
      exists s', new. simpl.
      rewrite (requestComplete_cancelled _ _ _ Hcan). simpl.
      rewrite filter_cons_False by (simpl; tauto).
      auto.
    + destruct (BufferMap_begin_is_Some _ (Hc Hlive)) as [first Hfirst].
      destruct (requestComplete_live r request first s Hlive Hfirst)
        as (s1 & payload & Hstep & Hdel1 & Hptr1 & Hseq1 & _ & _ & Hnext1 & _).
      destruct (IH s1 Hcs) as (s' & new & Hrun & Hdel & Hptr & Hseq & Hnext).
      exists s', (payload :: new).
      rewrite filter_cons_True by (simpl; tauto).
      split; [simpl; rewrite Hstep; simpl; exact Hrun|].
      split; [by rewrite Hdel, Hdel1, <- app_assoc|].
      rewrite !fmap_cons, Hptr, Hptr1, Hseq, Hseq1.
      split; [done|].
      split.
      * cbn [length seq]. rewrite fmap_cons, N.add_0_r. f_equal.
        rewrite <- fmap_S_seq, <- list_fmap_compose.
        apply list_fmap_ext. intros _ k _. simpl. rewrite Hnext1. lia.
      * rewrite Hnext, Hnext1. cbn [length]. lia.
Qed.

(** C8. A cancelled request leaves the object exactly as it was: no
    [CompletedRequest] is handed on, [sequence_] keeps its value and nothing
    is thrown.  For completions that arrive one after another (each bound to
    at least one buffer unless it is cancelled), the callback returns every
    time, the payloads handed on are those of the completions that were not
    cancelled, in arrival order, and their sequence numbers are [sequence_],
    [sequence_ + 1], [sequence_ + 2], ... : strictly increasing, no gaps. *)
Theorem requestComplete_sequence_numbers cs s :
  (forall r request,
     request_status request = RequestCancelled ->
     requestComplete r request s = Ok s) /\
  (Forall (fun c => request_status c.2 <> RequestCancelled ->
                    request_buffers c.2 <> ∅) cs ->
   exists s' new,
     requestComplete_all cs s = Ok s' /\
     delivered s' = delivered s ++ new /\
     cr_ptr <$> new
       = fst <$> filter (fun c => request_status c.2 <> RequestCancelled) cs /\
     sequence <$> new
       = (fun k => (sequence_ s + N.of_nat k)%N) <$> seq 0 (length new) /\
     sequence_ s' = (sequence_ s + N.of_nat (length new))%N).
Proof.
  split.
  - intros r request. apply requestComplete_cancelled.
  - apply requestComplete_all_sequence.
Qed.

Lemma requestComplete_sequence_numbers_witness :
  requestComplete 8 (Sample.cancelled 2) Sample.running = Ok Sample.running /\
  exists s' new,
    requestComplete_all Sample.completions Sample.running = Ok s' /\
    delivered s' = delivered Sample.running ++ new /\
    cr_ptr <$> new
      = fst <$> filter (fun c => request_status c.2 <> RequestCancelled)
                  Sample.completions /\
    sequence <$> new
      = (fun k => (sequence_ Sample.running + N.of_nat k)%N) <$> seq 0 (length new) /\
    sequence_ s' = (sequence_ Sample.running + N.of_nat (length new))%N.
Proof.
  destruct (requestComplete_sequence_numbers Sample.completions Sample.running)
    as [Hcancelled Hrun].
  split; [apply Hcancelled; reflexivity|].
  apply Hrun. unfold Sample.completions.
  repeat apply Forall_cons_2; try apply Forall_nil_2;
    intros _; simpl; apply insert_non_empty.
Defined.

Example requestComplete_all_sample :
  (fun s => (sequence <$> delivered s, cr_ptr <$> delivered s, sequence_ s))
    <$> (match requestComplete_all Sample.completions Sample.running with
         | Ok s => Some s
         | _ => None
         end)
  = Some ([0%N; 1%N], [7%N; 9%N], 2%N).
Proof. vm_compute. reflexivity. Qed.

(** *** The instantaneous frame rate *)

(** What the guard of [requestComplete] covers: the first frame after a
    start and a repeated timestamp give 0, a later timestamp gives 1e9 over
    the difference. *)
Lemma framerate_of_guarded last_timestamp timestamp :
  (last_timestamp = 0%Z \/ last_timestamp = timestamp ->
     framerate_of last_timestamp timestamp = 0%Q) /\
  ((0 < last_timestamp < timestamp)%Z -> (timestamp < 2 ^ 64)%Z ->
     framerate_of last_timestamp timestamp
       = (inject_Z 1000000000 / inject_Z (timestamp - last_timestamp))%Q).
Proof.
  unfold framerate_of. split.
  - intros H. by rewrite decide_True.
  - intros H1 H2. rewrite decide_False by lia.
    unfold wrap64. by rewrite Z.mod_small by lia.
Qed.

Lemma wrap64_negative z :
  (- 2 ^ 64 < z < 0)%Z -> wrap64 z = (2 ^ 64 + z)%Z.
Proof.
  intros H. unfold wrap64.
  rewrite <- (Z.mod_small (2 ^ 64 + z) (2 ^ 64)) by lia.
  replace (2 ^ 64 + z)%Z with (z + 1 * 2 ^ 64)%Z by lia.
  by rewrite Z.mod_add by lia.
Qed.

Lemma Qdiv_pos_nonzero (d : Z) :
  (0 < d)%Z -> ~ (inject_Z 1000000000 / inject_Z d == 0)%Q.
Proof.
  intros Hd. destruct d as [|p|p]; try lia.
  unfold Qeq, Qdiv, Qmult, Qinv, inject_Z. simpl. lia.
Qed.

(** C4 on the code: a timestamp below the previous one is not caught by the
    guard, which only tests for equality.  The difference wraps around in
    [uint64_t] and the payload carries 1e9 over 2^64 minus the distance, a
    rate that is not 0. *)
Theorem requestComplete_framerate_decreasing_timestamp r request first s :
  request_status request <> RequestCancelled ->
  BufferMap_begin (request_buffers request) = Some first ->
  (0 <= metadata_timestamp first.2 < last_timestamp_ s)%Z ->
  (last_timestamp_ s < 2 ^ 64)%Z ->
  exists s' payload,
    requestComplete r request s = Ok s' /\
    delivered s' = delivered s ++ [payload] /\
    framerate payload
      = (inject_Z 1000000000
         / inject_Z (2 ^ 64 - (last_timestamp_ s - metadata_timestamp first.2)))%Q /\
    ~ (framerate payload == 0)%Q.
Proof.
  intros Hlive Hfirst Hts Hlast.
  destruct (requestComplete_live r request first s Hlive Hfirst)
    as (s' & payload & Hstep & Hdel & _ & _ & _ & Hrate & _).
  exists s', payload. split; [done|]. split; [done|].
  assert (Hrate' : framerate payload
      = (inject_Z 1000000000
         / inject_Z (2 ^ 64 - (last_timestamp_ s - metadata_timestamp first.2)))%Q).
  { rewrite Hrate. unfold framerate_of. rewrite decide_False by lia.
    rewrite wrap64_negative by lia. do 2 f_equal. lia. }
  split; [done|]. rewrite Hrate'. apply Qdiv_pos_nonzero. lia.
Qed.

Lemma requestComplete_framerate_decreasing_timestamp_witness :
  exists s' payload,
    requestComplete 7 (Sample.completed 1 1000)
      (set_last_timestamp_ 2000 Sample.running) = Ok s' /\
    delivered s' = [payload] /\
    framerate payload = (inject_Z 1000000000 / inject_Z (2 ^ 64 - 1000))%Q /\
    ~ (framerate payload == 0)%Q.
Proof.
  apply (requestComplete_framerate_decreasing_timestamp 7
           (Sample.completed 1 1000) (100%N, Sample.frame 1 5 1000)
           (set_last_timestamp_ 2000 Sample.running)).
  - discriminate.
  - reflexivity.
  - simpl. lia.
  - simpl. lia.
Defined.

(** ** Buffer setup *)

Lemma setup_streams_returns d cfg : forall s,
  Forall (fun c => (0 <= allocator_allocate d (stream_id c))%Z) cfg ->
  returns (setup_streams d cfg s).
Proof.
  induction cfg as [|config cfg IH]; intros s Hcfg; simpl.
  - by exists s.
  - apply Forall_cons in Hcfg as [Hc Hcfg].
    destruct (Z.ltb_spec (allocator_allocate d (stream_id config)) 0); [lia|].
    by apply IH.
Qed.

(** Whether [setupCapture] returns is decided by [validate], [configure] and
    [allocate] alone; the result of [mmap] is never looked at. *)
Lemma setupCapture_returns d s :
  configuration_validate d <> Invalid ->
  (0 <= camera_configure d)%Z ->
  Forall (fun c => (0 <= allocator_allocate d (stream_id c))%Z) (configuration_ s) ->
  returns (setupCapture d s).
Proof.
  intros Hvalid Hconfigure Hallocate.
  unfold setupCapture, mbind, result_bind.
  assert (Hcfg : forall e s0, configuration_ (emit e s0) = configuration_ s0) by done.
  destruct (configuration_validate d); [| |done]; simpl;
    (destruct (Z.ltb_spec (camera_configure d) 0); [lia|]);
    match goal with
    | |- context [setup_streams d (configuration_ ?s1) ?s2] =>
        destruct (setup_streams_returns d (configuration_ s1) s2) as [s3 Hs3];
        [ destruct (options_verbose s); simpl; rewrite ?Hcfg; exact Hallocate
        | rewrite Hs3; simpl; eexists; reflexivity ]
    end.
Qed.

(** Planes that share a file descriptor are mapped once, with their lengths
    added up. *)
Example mmap_planes_coalesces :
  mmap_planes Sample.camera
    [ {| plane_fd := 5; plane_length := 100 |};
      {| plane_fd := 5; plane_length := 50 |};
      {| plane_fd := 6; plane_length := 25 |} ] 0 []
  = [ {| span_data := 24576; span_size := 150 |};
      {| span_data := 28672; span_size := 25 |} ].
Proof. reflexivity. Qed.

(** C5 on the code: with an [mmap] that returns [MAP_FAILED] for every plane,
    [setupCapture] returns normally, the failed mappings are recorded in
    [mapped_buffers_] as spans at [MAP_FAILED], and the buffers are put on
    the stream's free list. *)
Theorem setupCapture_records_failed_mmap :
  exists s',
    setupCapture Sample.camera_mmap_fails Sample.opened = Ok s' /\
    mapped_buffers_ s' !! 101%N
      = Some [ {| span_data := MAP_FAILED; span_size := 307200 |} ] /\
    mapped_buffers_ s' !! 102%N
      = Some [ {| span_data := MAP_FAILED; span_size := 307200 |} ] /\
    frame_buffers_ s' !! 100%N
      = Some [Sample.frame 101 5 0; Sample.frame 102 6 0] /\
    trace s' = [CameraConfigure; AllocatorAllocate 100].
Proof. eexists. split; [reflexivity|]. vm_compute. repeat split; reflexivity. Qed.

(** ** Building the requests *)

Example makeRequests_two_streams :
  (fun s => (request_id <$> requests_ s,
             (fun r => map_to_list (fb_id <$> request_buffers r)) <$> requests_ s,
             trace s))
    <$> (match makeRequests Sample.camera 3 Sample.configured with
         | Ok s => Some s
         | _ => None
         end)
  = Some ([1000%N; 1001%N],
          [[(100%N, 101%N); (200%N, 201%N)]; [(100%N, 102%N); (200%N, 202%N)]],
          [Cerr "Requests created"]).
Proof. vm_compute. reflexivity. Qed.

Section MakeRequests.

Variable d : Device.

(** The camera hands out a request whenever it is asked, and a request
    accepts every buffer. *)
Hypothesis createRequest_ok : forall n, is_Some (camera_createRequest d n).
Hypothesis addBuffer_ok : forall r stream b, (0 <= request_addBuffer d r stream b)%Z.

Lemma Request_addBuffer_binds request stream buffer :
  exists rc, (0 <= rc)%Z /\
    Request_addBuffer d request stream buffer
      = (rc, Request_bind stream buffer request).
Proof.
  unfold Request_addBuffer.
  pose proof (addBuffer_ok (request_id request) stream (fb_id buffer)) as Hrc.
  destruct (Z.ltb_spec (request_addBuffer d (request_id request) stream
                          (fb_id buffer)) 0); [lia|].
  eexists; split; [exact Hrc | reflexivity].
Qed.

Lemma requests_back_addBuffer_binds stream buffer s rs back :
  requests_ s = rs ++ [back] ->
  requests_back_addBuffer d stream buffer s
    = Ok (set_requests_ (rs ++ [Request_bind stream buffer back]) s).
Proof.
  intros Hrs. unfold requests_back_addBuffer.
  rewrite Hrs, last_snoc, removelast_last.
  destruct (Request_addBuffer_binds back stream buffer) as (rc & Hrc & ->).
  destruct (Z.ltb_spec rc 0); [lia | done].
Qed.

(** Reading a queue after other streams have been popped. *)
Lemma queue_of_insert_ne fb stream stream' q :
  stream <> stream' -> queue_of (<[stream := q]> fb) stream' = queue_of fb stream'.
Proof. intros Hne. unfold queue_of. by rewrite lookup_insert_ne. Qed.

Lemma queue_of_insert_eq fb stream q :
  queue_of (<[stream := q]> fb) stream = q.
Proof. unfold queue_of. by rewrite lookup_insert_eq. Qed.

Lemma foldl_ext_in {A B} (f g : A -> B -> A) (l : list B) : forall a,
  (forall a b, b ∈ l -> f a b = g a b) -> foldl f a l = foldl g a l.
Proof.
  induction l as [|b l IH]; intros a Hfg; simpl; [done|].
  rewrite Hfg by apply list_elem_of_here.
  apply IH. intros a' b' Hb'. apply Hfg. by apply list_elem_of_further.
Qed.

(** The part of a pass that handles the streams after the primary one. *)
Lemma makeRequests_for_others primary cs : forall fb s rs back,
  stream_id <$> head (configuration_ s) = Some primary ->
  Forall (fun c => stream_id c <> primary) cs ->
  NoDup (stream_id <$> cs) ->
  requests_ s = rs ++ [back] ->
  makeRequests_for d cs fb s
    = if decide (Forall (fun c => queue_of fb (stream_id c) <> []) cs)
      then Ok (Continue (pop_all cs fb,
                         set_requests_ (rs ++ [foldl (slot_bind fb 0) back cs]) s))
      else Throw "concurrent streams need matching numbers of buffers".
Proof.
  induction cs as [|c cs IH]; intros fb s rs back Hhead Hne Hnodup Hrs.
  - cbn [makeRequests_for]. rewrite decide_True by constructor.
    unfold pop_all; simpl. rewrite <- Hrs. by destruct s.
  - apply Forall_cons in Hne as [Hc Hne].
    rewrite fmap_cons in Hnodup. apply NoDup_cons in Hnodup as [Hnotin Hnodup].
    cbn [makeRequests_for]. rewrite Hhead.
    rewrite decide_False by congruence.
    fold (queue_of fb (stream_id c)).
    destruct (queue_of fb (stream_id c)) as [|buffer queue'] eqn:Hq.
    + simpl. rewrite decide_False; [done|].
      intros Hall. apply Forall_cons in Hall as [Hall _]. by rewrite Hq in Hall.
    + run.
      rewrite (requests_back_addBuffer_binds _ _ _ rs back Hrs). simpl.
      assert (Hread : forall c', c' ∈ cs ->
                queue_of (<[stream_id c := queue']> fb) (stream_id c')
                  = queue_of fb (stream_id c')).
      { intros c' Hc'. apply queue_of_insert_ne. intros Heq.
        apply Hnotin. rewrite Heq. by apply list_elem_of_fmap_2. }
      rewrite (IH _ _ rs (Request_bind (stream_id c) buffer back)); auto.
      assert (Hiff : Forall (fun c' => queue_of (<[stream_id c := queue']> fb)
                                         (stream_id c') <> []) cs
                     <-> Forall (fun c' => queue_of fb (stream_id c') <> []) (c :: cs)).
      { rewrite Forall_cons, Hq. rewrite !Forall_forall.
        split.
        - intros H. split; [done|]. intros c' Hc'. rewrite <- Hread by done. auto.
        - intros [_ H] c' Hc'. rewrite Hread by done. auto. }
      destruct (decide (Forall _ cs)) as [Hall|Hall].
      * rewrite decide_True by (by apply Hiff).
        assert (Hpop : pop_all cs (<[stream_id c := queue']> fb) = pop_all (c :: cs) fb).
        { unfold pop_all; simpl. rewrite Hq; simpl.
          apply foldl_ext_in. intros m c' Hc'. by rewrite Hread. }
        assert (Hbind : foldl (slot_bind (<[stream_id c := queue']> fb) 0)
                          (Request_bind (stream_id c) buffer back) cs
                        = foldl (slot_bind fb 0) (slot_bind fb 0 back c) cs).
        { unfold slot_bind at 3. rewrite Hq; simpl.
          apply foldl_ext_in. intros r c' Hc'. unfold slot_bind.
          by rewrite Hread. }
        rewrite Hpop, Hbind. by destruct s.
      * rewrite decide_False; [done|]. intros H. by apply Hall, Hiff.
Qed.

(** After a pass every configured stream has lost the front of its queue. *)
Lemma queue_of_pop_fold fb cs : forall m stream,
  queue_of (foldl (fun m c =>
                     <[stream_id c := tail (queue_of fb (stream_id c))]> m) m cs)
           stream
  = if decide (stream ∈ stream_id <$> cs) then tail (queue_of fb stream)
    else queue_of m stream.
Proof.
  induction cs as [|c cs IH]; intros m stream; cbn [foldl].
  - rewrite decide_False; [done|]. apply not_elem_of_nil.
  - rewrite IH, fmap_cons.
    destruct (decide (stream ∈ stream_id <$> cs)) as [Hin|Hnotin].
    + rewrite decide_True; [done|]. by apply list_elem_of_further.
    + destruct (decide (stream = stream_id c)) as [->|Hne].
      * rewrite decide_True by apply list_elem_of_here.
        apply queue_of_insert_eq.
      * rewrite decide_False.
        -- by apply queue_of_insert_ne.
        -- intros Hin. apply elem_of_cons in Hin as [?|?]; done.
Qed.

Lemma queue_of_pop_all cfg fb c :
  c ∈ cfg ->
  queue_of (pop_all cfg fb) (stream_id c) = tail (queue_of fb (stream_id c)).
Proof.
  intros Hc. unfold pop_all. rewrite queue_of_pop_fold.
  rewrite decide_True; [done|]. by apply list_elem_of_fmap_2.
Qed.

(** Slot [k] after a pass is slot [k + 1] before it. *)
Lemma slot_request_pop_all cfg fb base k :
  slot_request d cfg (pop_all cfg fb) (S base) k
    = slot_request d cfg fb base (S k).
Proof.
  unfold slot_request. rewrite Nat.add_succ_comm.
  apply foldl_ext_in. intros r c Hc. unfold slot_bind.
  by rewrite queue_of_pop_all, lookup_tail.
Qed.

(** One pass of the [for] loop over the whole configuration. *)
Lemma makeRequests_for_pass primary others fb s :
  configuration_ s = primary :: others ->
  NoDup (stream_id <$> primary :: others) ->
  makeRequests_for d (primary :: others) fb s
    = match queue_of fb (stream_id primary) with
      | [] => Ok (Return (requests_created s))
      | _ :: _ =>
          if decide (Forall (fun c => queue_of fb (stream_id c) <> []) others)
          then Ok (Continue
                     (pop_all (primary :: others) fb,
                      set_requests_
                        (requests_ s
                           ++ [slot_request d (primary :: others) fb
                                 (length (requests_ s)) 0]) s))
          else Throw "concurrent streams need matching numbers of buffers"
      end.
Proof.
  intros Hcfg Hnodup.
  rewrite fmap_cons in Hnodup. apply NoDup_cons in Hnodup as [Hnotin Hnodup].
  cbn [makeRequests_for]. rewrite Hcfg. cbn [head fmap option_fmap option_map].
  rewrite decide_True by done.
  fold (queue_of fb (stream_id primary)).
  destruct (queue_of fb (stream_id primary)) as [|buffer queue'] eqn:Hq.
  - done.
  - destruct (createRequest_ok (length (requests_ s))) as [id Hid].
    rewrite Hid. run.
    rewrite (requests_back_addBuffer_binds _ _ _ (requests_ s) (Request_new id))
      by done.
    simpl.
    assert (Hne : Forall (fun c => stream_id c <> stream_id primary) others).
    { apply Forall_forall. intros c Hc Heq. apply Hnotin. rewrite <- Heq.
      by apply list_elem_of_fmap_2. }
    assert (Hread : forall c, c ∈ others ->
              queue_of (<[stream_id primary := queue']> fb) (stream_id c)
                = queue_of fb (stream_id c)).
    { intros c Hc. apply queue_of_insert_ne. intros Heq.
      rewrite Forall_forall in Hne. by apply (Hne c Hc). }
    rewrite (makeRequests_for_others (stream_id primary) others _ _ (requests_ s)
               (Request_bind (stream_id primary) buffer (Request_new id)));
      [| by simpl; rewrite Hcfg | done | done | done].
    assert (Hiff : Forall (fun c => queue_of (<[stream_id primary := queue']> fb)
                                      (stream_id c) <> []) others
                   <-> Forall (fun c => queue_of fb (stream_id c) <> []) others).
    { rewrite !Forall_forall. split; intros H c Hc.
      - rewrite <- Hread by done. auto.
      - rewrite Hread by done. auto. }
    destruct (decide (Forall _ others)) as [Hall|Hall].
    + rewrite decide_True by (by apply Hiff).
      assert (Hpop : pop_all others (<[stream_id primary := queue']> fb)
                     = pop_all (primary :: others) fb).
      { unfold pop_all; simpl. rewrite Hq; simpl.
        apply foldl_ext_in. intros m c Hc. by rewrite Hread. }
      assert (Hbind : foldl (slot_bind (<[stream_id primary := queue']> fb) 0)
                        (Request_bind (stream_id primary) buffer (Request_new id))
                        others
                      = slot_request d (primary :: others) fb (length (requests_ s)) 0).
      { unfold slot_request; simpl. rewrite Nat.add_0_r, Hid; simpl.
        unfold slot_bind at 3. rewrite Hq; simpl.
        apply foldl_ext_in. intros r c Hc. unfold slot_bind.
        by rewrite Hread. }
      rewrite Hpop, Hbind. by destruct s.
    + rewrite decide_False; [done|]. intros H. by apply Hall, Hiff.
Qed.

Lemma shorter_than_pop_all primary others fb n :
  Forall (fun c => queue_of fb (stream_id c) <> []) others ->
  shorter_than n others (pop_all (primary :: others) fb)
    <-> shorter_than (S n) others fb.
Proof.
  intros Hall. unfold shorter_than. rewrite !Exists_exists.
  rewrite Forall_forall in Hall.
  split; intros (c & Hc & Hlen); exists c; (split; [done|]);
    rewrite queue_of_pop_all in * by (by apply list_elem_of_further);
    specialize (Hall c Hc);
    destruct (queue_of fb (stream_id c)); simpl in *; try done; lia.
Qed.

(** The [while] loop, by induction on the free buffers the primary stream
    has left. *)
Lemma makeRequests_while_spec primary others : forall n fuel fb s,
  configuration_ s = primary :: others ->
  NoDup (stream_id <$> primary :: others) ->
  length (queue_of fb (stream_id primary)) = n ->
  n < fuel ->
  makeRequests_while d fuel fb s
    = if decide (shorter_than n others fb)
      then Throw "concurrent streams need matching numbers of buffers"
      else Ok (requests_created
                 (set_requests_
                    (requests_ s
                       ++ (slot_request d (primary :: others) fb
                             (length (requests_ s)) <$> seq 0 n)) s)).
Proof.
  induction n as [|n IH]; intros fuel fb s Hcfg Hnodup Hlen Hfuel;
    (destruct fuel as [|fuel]; [lia|]);
    cbn [makeRequests_while]; rewrite Hcfg;
    rewrite (makeRequests_for_pass primary others fb s Hcfg Hnodup);
    destruct (queue_of fb (stream_id primary)) as [|buffer queue'] eqn:Hq;
    simpl in Hlen; try lia.
  - rewrite decide_False.
    + simpl. rewrite app_nil_r. by destruct s.
    + unfold shorter_than. rewrite Exists_exists. intros (c & _ & Hc). lia.
  - destruct (decide (Forall _ others)) as [Hall|Hall].
    + run.
      rewrite (IH fuel); [| done | done | | lia].
      * destruct (decide (shorter_than n others _)) as [Hshort|Hshort].
        -- rewrite decide_True; [done|]. by apply shorter_than_pop_all in Hshort.
        -- rewrite decide_False
             by (intros H; by apply Hshort, shorter_than_pop_all).
           simpl. rewrite length_app; simpl.
           rewrite <- app_assoc; simpl.
           rewrite <- fmap_S_seq, <- list_fmap_compose.
           replace (length (requests_ s) + 1) with (S (length (requests_ s))) by lia.
           rewrite (list_fmap_ext
                      (slot_request d (primary :: others)
                         (pop_all (primary :: others) fb)
                         (S (length (requests_ s))))
                      (slot_request d (primary :: others) fb
                         (length (requests_ s)) ∘ S))
             by (intros; apply slot_request_pop_all).
           by destruct s.
      * rewrite queue_of_pop_all by apply list_elem_of_here.
        rewrite Hq. simpl. lia.
    + simpl. rewrite decide_True; [done|].
      apply not_Forall_Exists in Hall; [|intros c; apply _].
      unfold shorter_than. rewrite Exists_exists in *.
      destruct Hall as (c & Hc & Hempty). exists c. split; [done|].
      destruct (queue_of fb (stream_id c)) eqn:Hqc; simpl; [lia|].
      exfalso. apply Hempty. by rewrite Hqc.
Qed.

Lemma makeRequests_spec primary others fuel s :
  configuration_ s = primary :: others ->
  NoDup (stream_id <$> primary :: others) ->
  length (queue_of (frame_buffers_ s) (stream_id primary)) < fuel ->
  makeRequests d fuel s
    = if decide (shorter_than (length (queue_of (frame_buffers_ s)
                                         (stream_id primary)))
                   others (frame_buffers_ s))
      then Throw "concurrent streams need matching numbers of buffers"
      else Ok (requests_created
                 (set_requests_
                    (requests_ s
                       ++ (slot_request d (primary :: others) (frame_buffers_ s)
                             (length (requests_ s))
                             <$> seq 0 (length (queue_of (frame_buffers_ s)
                                                  (stream_id primary))))) s)).
Proof.
  intros Hcfg Hnodup Hfuel. unfold makeRequests.
  by apply makeRequests_while_spec.
Qed.

End MakeRequests.

Lemma buffer_mismatch_shorter primary others fb :
  buffer_mismatch (primary :: others) fb
    <-> shorter_than (length (queue_of fb (stream_id primary))) others fb.
Proof.
  unfold buffer_mismatch, shorter_than. rewrite Exists_exists. split.
  - intros (k & c & Hk & Hc & Hlen). exists c. split; [done | lia].
  - intros (c & Hc & Hlen).
    exists (length (queue_of fb (stream_id c))), c. auto.
Qed.

(** The bindings of a slot, stream by stream. *)
Lemma slot_bind_lookup fb k cs : forall r stream,
  request_buffers (foldl (slot_bind fb k) r cs) !! stream
    = if decide (stream ∈ stream_id <$> cs)
      then match queue_of fb stream !! k with
           | Some b => Some b
           | None => request_buffers r !! stream
           end
      else request_buffers r !! stream.
Proof.
  induction cs as [|c cs IH]; intros r stream; cbn [foldl].
  - rewrite decide_False; [done|]. apply not_elem_of_nil.
  - rewrite IH, fmap_cons.
    assert (Hr : request_buffers (slot_bind fb k r c) !! stream
                 = if decide (stream = stream_id c)
                   then match queue_of fb stream !! k with
                        | Some b => Some b
                        | None => request_buffers r !! stream
                        end
                   else request_buffers r !! stream).
    { unfold slot_bind. destruct (decide (stream = stream_id c)) as [->|Hne].
      - destruct (queue_of fb (stream_id c) !! k); simpl; [|done].
        by rewrite lookup_insert_eq.
      - destruct (queue_of fb (stream_id c) !! k); simpl; [|done].
        by rewrite lookup_insert_ne. }
    rewrite Hr. clear Hr.
    destruct (decide (stream ∈ stream_id <$> cs)) as [Hin|Hnotin];
      destruct (decide (stream ∈ stream_id c :: (stream_id <$> cs))) as [Hin'|Hnotin'];
      destruct (decide (stream = stream_id c)) as [Heq|Hne];
      try (by destruct (queue_of fb stream !! k)).
    + exfalso. apply Hnotin'. by apply list_elem_of_further.
    + exfalso. apply Hnotin'. by apply list_elem_of_further.
    + apply elem_of_cons in Hin' as [?|?]; done.
    + exfalso. apply Hnotin'. subst. apply list_elem_of_here.
Qed.

Lemma queue_has_slot primary others fb k c :
  ~ buffer_mismatch (primary :: others) fb ->
  k < length (queue_of fb (stream_id primary)) ->
  c ∈ primary :: others ->
  is_Some (queue_of fb (stream_id c) !! k).
Proof.
  intros Hmatch Hk Hc. apply lookup_lt_is_Some.
  apply elem_of_cons in Hc as [->|Hc]; [done|].
  destruct (decide (k < length (queue_of fb (stream_id c)))) as [|Hshort]; [done|].
  exfalso. apply Hmatch. exists k, c. repeat split; [done | done | lia].
Qed.

Lemma slot_request_buffers d primary others fb base k :
  ~ buffer_mismatch (primary :: others) fb ->
  k < length (queue_of fb (stream_id primary)) ->
  (forall c, c ∈ primary :: others ->
     exists b, queue_of fb (stream_id c) !! k = Some b /\
               request_buffers (slot_request d (primary :: others) fb base k)
                 !! stream_id c = Some b) /\
  dom (request_buffers (slot_request d (primary :: others) fb base k))
    = list_to_set (stream_id <$> primary :: others).
Proof.
  intros Hmatch Hk. split.
  - intros c Hc.
    destruct (queue_has_slot _ _ _ _ _ Hmatch Hk Hc) as [b Hb].
    exists b. split; [done|].
    unfold slot_request. rewrite slot_bind_lookup.
    rewrite decide_True by (by apply list_elem_of_fmap_2).
    by rewrite Hb.
  - apply set_eq. intros stream.
    rewrite elem_of_dom, elem_of_list_to_set.
    unfold slot_request. rewrite slot_bind_lookup.
    destruct (decide (stream ∈ stream_id <$> primary :: others)) as [Hin|Hnotin].
    + split; [done|]. intros _.
      apply list_elem_of_fmap in Hin as (c & -> & Hc).
      destruct (queue_has_slot _ _ _ _ _ Hmatch Hk Hc) as [b Hb].
      rewrite Hb. eauto.
    + simpl. rewrite lookup_empty. split; [intros [? ?]; done | done].
Qed.

Lemma requests_of_requests_created rs s :
  requests_ (requests_created (set_requests_ rs s)) = rs.
Proof. unfold requests_created. simpl. by destruct (options_verbose s). Qed.

(** The two checks on the camera's answers in the first slot. *)
Lemma makeRequests_createRequest_fails d s primary others fuel :
  configuration_ s = primary :: others ->
  0 < length (queue_of (frame_buffers_ s) (stream_id primary)) ->
  0 < fuel ->
  camera_createRequest d (length (requests_ s)) = None ->
  makeRequests d fuel s = Throw "failed to make request".
Proof.
  intros Hcfg Hn Hfuel Hnone.
  destruct fuel as [|fuel]; [lia|].
  unfold makeRequests. cbn [makeRequests_while]. rewrite Hcfg.
  cbn [makeRequests_for]. rewrite Hcfg. cbn [head fmap option_fmap option_map].
  rewrite decide_True by done.
  fold (queue_of (frame_buffers_ s) (stream_id primary)).
  destruct (queue_of (frame_buffers_ s) (stream_id primary)); simpl in Hn; [lia|].
  by rewrite Hnone.
Qed.

Lemma makeRequests_addBuffer_fails d s primary others fuel id buffer queue' :
  configuration_ s = primary :: others ->
  queue_of (frame_buffers_ s) (stream_id primary) = buffer :: queue' ->
  0 < fuel ->
  camera_createRequest d (length (requests_ s)) = Some id ->
  (request_addBuffer d id (stream_id primary) (fb_id buffer) < 0)%Z ->
  makeRequests d fuel s = Throw "failed to add buffer to request".
Proof.
  intros Hcfg Hq Hfuel Hid Hrc.
  destruct fuel as [|fuel]; [lia|].
  unfold makeRequests. cbn [makeRequests_while]. rewrite Hcfg.
  cbn [makeRequests_for]. rewrite Hcfg. cbn [head fmap option_fmap option_map].
  rewrite decide_True by done.
  fold (queue_of (frame_buffers_ s) (stream_id primary)).
  rewrite Hq, Hid. run.
  unfold requests_back_addBuffer; simpl.
  rewrite last_snoc. unfold Request_addBuffer; simpl.
  destruct (Z.ltb_spec (request_addBuffer d id (stream_id primary) (fb_id buffer)) 0);
    [|lia].
  destruct (Z.ltb_spec (request_addBuffer d id (stream_id primary) (fb_id buffer)) 0);
    [done|lia].
Qed.

(** With nothing configured the [for] loop has no body to run and the
    [while (true)] around it never ends. *)
Lemma makeRequests_empty_configuration d fuel s :
  configuration_ s = [] -> makeRequests d fuel s = Diverges.
Proof.
  intros Hcfg. unfold makeRequests. generalize (frame_buffers_ s).
  induction fuel as [|fuel IH]; intros fb; cbn [makeRequests_while]; [done|].
  rewrite Hcfg. simpl. apply IH.
Qed.

(** C3, amended. [makeRequests], given more passes than the primary stream
    (the first of the configuration) has free buffers, throws when
    [createRequest] returns no request or [addBuffer] fails in the first
    slot.  Provided the camera creates every request it is asked for and the
    requests accept every buffer, it throws if and only if, in some slot
    where the primary stream still has a free buffer, the free list of
    another configured stream is empty; the error is then "concurrent streams
    need matching numbers of buffers".  Otherwise it returns when the free
    list of the primary stream is exhausted, having appended to [requests_]
    exactly one request per free buffer of the primary stream, the request of
    slot [k] binding every configured stream, and nothing else, to the
    [k]-th buffer of that stream's free list.  With a single stream there is
    no other stream, so N free buffers give exactly N requests. *)
Theorem makeRequests_one_request_per_primary_buffer d s primary others fuel :
  configuration_ s = primary :: others ->
  NoDup (stream_id <$> configuration_ s) ->
  length (queue_of (frame_buffers_ s) (stream_id primary)) < fuel ->
  let cfg := configuration_ s in
  let fb := frame_buffers_ s in
  let n := length (queue_of fb (stream_id primary)) in
  (0 < n -> camera_createRequest d (length (requests_ s)) = None ->
     makeRequests d fuel s = Throw "failed to make request") /\
  (forall id buffer,
     head (queue_of fb (stream_id primary)) = Some buffer ->
     camera_createRequest d (length (requests_ s)) = Some id ->
     (request_addBuffer d id (stream_id primary) (fb_id buffer) < 0)%Z ->
     makeRequests d fuel s = Throw "failed to add buffer to request") /\
  ((forall n, is_Some (camera_createRequest d n)) ->
   (forall r stream b, (0 <= request_addBuffer d r stream b)%Z) ->
   ((exists what, makeRequests d fuel s = Throw what) <-> buffer_mismatch cfg fb) /\
   (buffer_mismatch cfg fb ->
      makeRequests d fuel s
        = Throw "concurrent streams need matching numbers of buffers") /\
   (~ buffer_mismatch cfg fb ->
      exists s',
        makeRequests d fuel s = Ok s' /\
        s' = requests_created
               (set_requests_
                  (requests_ s
                     ++ (slot_request d cfg fb (length (requests_ s)) <$> seq 0 n)) s) /\
        length (requests_ s') = length (requests_ s) + n /\
        forall k, k < n ->
          (forall c, c ∈ cfg ->
             exists b, queue_of fb (stream_id c) !! k = Some b /\
                       request_buffers (slot_request d cfg fb (length (requests_ s)) k)
                         !! stream_id c = Some b) /\
          dom (request_buffers (slot_request d cfg fb (length (requests_ s)) k))
            = list_to_set (stream_id <$> cfg)) /\
   (others = [] ->
      exists s', makeRequests d fuel s = Ok s' /\
                 length (requests_ s') = length (requests_ s) + n)).
Proof.
  intros Hcfg Hnodup Hfuel cfg fb n. subst cfg fb n.
  rewrite Hcfg in *.
  split; [|split].
  { intros Hn Hnone. apply (makeRequests_createRequest_fails d s primary others);
      auto; lia. }
  { intros id buffer Hhead Hid Hrc.
    destruct (queue_of (frame_buffers_ s) (stream_id primary)) as [|b queue'] eqn:Hq;
      [done|].
    injection Hhead as ->.
    apply (makeRequests_addBuffer_fails d s primary others fuel id buffer queue');
      auto; lia. }
  intros Hcreate Hadd.
  pose proof (makeRequests_spec d Hcreate Hadd primary others fuel s Hcfg Hnodup Hfuel)
    as Hspec.
  assert (Hthrow : buffer_mismatch (primary :: others) (frame_buffers_ s) ->
            makeRequests d fuel s
              = Throw "concurrent streams need matching numbers of buffers").
  { intros Hmis. rewrite Hspec.
    rewrite decide_True; [done|]. by apply buffer_mismatch_shorter. }
  assert (Hok : ~ buffer_mismatch (primary :: others) (frame_buffers_ s) ->
            makeRequests d fuel s
              = Ok (requests_created
                      (set_requests_
                         (requests_ s
                            ++ (slot_request d (primary :: others) (frame_buffers_ s)
                                  (length (requests_ s))
                                  <$> seq 0 (length (queue_of (frame_buffers_ s)
                                                       (stream_id primary))))) s))).
  { intros Hmatch. rewrite Hspec.
    rewrite decide_False; [done|]. intros H. by apply Hmatch, buffer_mismatch_shorter. }
  assert (Hlen : forall rs,
            length (requests_ (requests_created
                      (set_requests_
                         (requests_ s
                            ++ (slot_request d (primary :: others) (frame_buffers_ s)
                                  (length (requests_ s))
                                  <$> seq 0 (length rs))) s)))
              = length (requests_ s) + length (rs : list FrameBuffer)).
  { intros rs. rewrite requests_of_requests_created.
    by rewrite length_app, length_fmap, length_seq. }
  repeat split.
  - intros [what Hwhat].
    destruct (decide (shorter_than
                        (length (queue_of (frame_buffers_ s) (stream_id primary)))
                        others (frame_buffers_ s))) as [Hshort|Hshort].
    + by apply buffer_mismatch_shorter.
    + exfalso. rewrite Hok in Hwhat; [done|].
      intros H. by apply Hshort, buffer_mismatch_shorter.
  - intros Hmis. eexists. by apply Hthrow.
  - exact Hthrow.
  - intros Hmatch. eexists. split; [by apply Hok|]. split; [done|].
    split; [apply Hlen|].
    intros k Hk. by apply slot_request_buffers.
  - intros ->. eexists. split; [|apply Hlen].
    apply Hok. intros (k & c & _ & Hc & _). by apply not_elem_of_nil in Hc.
Qed.

Lemma makeRequests_one_request_per_primary_buffer_witness :
  (exists s', makeRequests Sample.camera 3 Sample.configured = Ok s' /\
              length (requests_ s') = 2) /\
  makeRequests Sample.camera 3 Sample.mismatched
    = Throw "concurrent streams need matching numbers of buffers" /\
  makeRequests Sample.camera_no_requests 3 Sample.configured
    = Throw "failed to make request".
Proof.
  split; [|split].
  - destruct (makeRequests_one_request_per_primary_buffer Sample.camera
                Sample.configured Sample.viewfinder [Sample.lores] 3)
      as (_ & _ & Hdevice).
    + reflexivity.
    + apply (bool_decide_unpack _). vm_compute. exact I.
    + vm_compute. lia.
    + destruct Hdevice as (_ & _ & Hok & _).
      * intros n. eexists. reflexivity.
      * intros r stream b. simpl. lia.
      * destruct Hok as (s' & Hrun & _ & Hlen & _).
        -- intros (k & c & Hk & Hc & Hlen).
           apply list_elem_of_singleton in Hc. subst c.
           vm_compute in Hk, Hlen. lia.
        -- exists s'. split; [exact Hrun | exact Hlen].
  - destruct (makeRequests_one_request_per_primary_buffer Sample.camera
                Sample.mismatched Sample.viewfinder [Sample.lores] 3)
      as (_ & _ & Hdevice).
    + reflexivity.
    + apply (bool_decide_unpack _). vm_compute. exact I.
    + vm_compute. lia.
    + destruct Hdevice as (_ & Hthrow & _).
      * intros n. eexists. reflexivity.
      * intros r stream b. simpl. lia.
      * apply Hthrow. exists 1, Sample.lores.
        split; [vm_compute; lia|]. split; [apply list_elem_of_here|].
        vm_compute. lia.
  - destruct (makeRequests_one_request_per_primary_buffer Sample.camera_no_requests
                Sample.configured Sample.viewfinder [Sample.lores] 3)
      as (Hnone & _).
    + reflexivity.
    + apply (bool_decide_unpack _). vm_compute. exact I.
    + vm_compute. lia.
    + apply Hnone; [vm_compute; lia | reflexivity].
Defined.

(** C3 as stated fails: a camera that returns no request makes
    [makeRequests] throw "failed to make request" although the configuration
    has a single stream, so that no other stream can be short of buffers. *)
Lemma makeRequests_throws_without_mismatch :
  makeRequests Sample.camera_no_requests 2 Sample.single
    = Throw "failed to make request" /\
  configuration_ Sample.single = [Sample.viewfinder] /\
  ~ buffer_mismatch (configuration_ Sample.single) (frame_buffers_ Sample.single).
Proof.
  split; [reflexivity|]. split; [reflexivity|].
  intros (k & c & _ & Hc & _). simpl in Hc. by apply not_elem_of_nil in Hc.
Qed.

(** * Further properties *)

(** ** Mapping the planes of a buffer *)

Lemma planes_length_nonneg ps :
  Forall (fun p => (0 <= plane_length p)%Z) ps -> (0 <= planes_length ps)%Z.
Proof.
  induction 1 as [|p ps Hp _ IH]; simpl; lia.
Qed.

Lemma wrap64_small z : (0 <= z < 2 ^ 64)%Z -> wrap64 z = z.
Proof. intros H. unfold wrap64. by apply Z.mod_small. Qed.

(** The spans already in the table stay in front; every plane list that is
    not empty adds at least one. *)
Lemma mmap_planes_extends d ps : forall buffer_size spans,
  exists new,
    mmap_planes d ps buffer_size spans = spans ++ new /\ (ps <> [] -> new <> []).
Proof.
  induction ps as [|plane rest IH]; intros buffer_size spans.
  - exists []. simpl. by rewrite app_nil_r.
  - cbn [mmap_planes]. destruct rest as [|next rest'].
    + eexists [_]. simpl. split; [reflexivity | done].
    + case_decide.
      * destruct (IH 0%Z (spans ++ [Span_of d (wrap64 (buffer_size + plane_length plane))
                                      (plane_fd plane)])) as (new & -> & _).
        eexists (_ :: new). rewrite <- app_assoc. simpl. split; [reflexivity | done].
      * destruct (IH (wrap64 (buffer_size + plane_length plane)) spans)
          as (new & -> & Hne).
        exists new. split; [done|]. intros _. by apply Hne.
Qed.

Lemma mmap_planes_sizes d ps : forall buffer_size spans,
  Forall (fun p => (0 <= plane_length p)%Z) ps ->
  (0 <= buffer_size)%Z ->
  (buffer_size + planes_length ps < 2 ^ 64)%Z ->
  ps <> [] ->
  exists new,
    mmap_planes d ps buffer_size spans = spans ++ new /\
    spans_size new = (buffer_size + planes_length ps)%Z /\
    Forall (fun sp => exists p, p ∈ ps /\
                        span_data sp = sys_mmap d (span_size sp) (plane_fd p)) new.
Proof.
  induction ps as [|plane rest IH]; intros buffer_size spans Hlen Hsize Hsum Hne;
    [done|].
  apply Forall_cons in Hlen as [Hplane Hrest].
  pose proof (planes_length_nonneg _ Hrest) as Hnonneg.
  simpl in Hsum.
  cbn [mmap_planes].
  rewrite wrap64_small by lia.
  destruct rest as [|next rest'].
  - eexists [_]. split; [reflexivity|]. simpl. split; [lia|].
    constructor; [|constructor]. exists plane. split; [apply list_elem_of_here | done].
  - case_decide.
    + destruct (IH 0%Z (spans ++ [Span_of d (buffer_size + plane_length plane)
                                    (plane_fd plane)]))
        as (new & -> & Hnew & Hall); [done | lia | simpl in *; lia | done |].
      eexists (_ :: new). rewrite <- app_assoc. split; [reflexivity|].
      split; [simpl in *; lia|].
      constructor.
      * exists plane. split; [apply list_elem_of_here | done].
      * eapply Forall_impl; [exact Hall|]. intros sp (p & Hp & Hsp).
        exists p. split; [by apply list_elem_of_further | done].
    + destruct (IH (buffer_size + plane_length plane)%Z spans)
        as (new & -> & Hnew & Hall); [done | lia | simpl in *; lia | done |].
      exists new. split; [done|]. split; [simpl in *; lia|].
      eapply Forall_impl; [exact Hall|]. intros sp (p & Hp & Hsp).
      exists p. split; [by apply list_elem_of_further | done].
Qed.

(** X1. The spans that [setupCapture] records for a buffer come after the
    ones already recorded for it, each holds what [mmap] returned for its
    size and the file descriptor of one of the planes, and their sizes add
    up to the lengths of the planes: merging planes loses no byte. *)
Theorem mmap_planes_total_size d ps spans :
  Forall (fun p => (0 <= plane_length p)%Z) ps ->
  (planes_length ps < 2 ^ 64)%Z ->
  ps <> [] ->
  exists new,
    mmap_planes d ps 0 spans = spans ++ new /\
    new <> [] /\
    spans_size new = planes_length ps /\
    Forall (fun sp => exists p, p ∈ ps /\
                        span_data sp = sys_mmap d (span_size sp) (plane_fd p)) new.
Proof.
  intros Hlen Hsum Hne.
  destruct (mmap_planes_sizes d ps 0 spans Hlen) as (new & Heq & Hsize & Hall);
    [lia | lia | done |].
  exists new. split; [done|]. split; [|split; [lia | done]].
  destruct (mmap_planes_extends d ps 0 spans) as (new' & Heq' & Hne').
  rewrite Heq in Heq'. apply app_inv_head in Heq'. subst. by apply Hne'.
Qed.

Lemma mmap_planes_total_size_witness :
  exists new,
    mmap_planes Sample.camera
      [ {| plane_fd := 5; plane_length := 100 |};
        {| plane_fd := 5; plane_length := 50 |};
        {| plane_fd := 6; plane_length := 25 |} ] 0 [] = [] ++ new /\
    spans_size new = 175%Z.
Proof.
  destruct (mmap_planes_total_size Sample.camera
              [ {| plane_fd := 5; plane_length := 100 |};
                {| plane_fd := 5; plane_length := 50 |};
                {| plane_fd := 6; plane_length := 25 |} ] [])
    as (new & Heq & _ & Hsize & _).
  - repeat constructor; simpl; lia.
  - simpl. lia.
  - discriminate.
  - exists new. split; [exact Heq | exact Hsize].
Defined.

Lemma mmap_planes_one_fd d fd ps : forall buffer_size spans,
  Forall (fun p => plane_fd p = fd /\ (0 <= plane_length p)%Z) ps ->
  (0 <= buffer_size)%Z ->
  (buffer_size + planes_length ps < 2 ^ 64)%Z ->
  ps <> [] ->
  mmap_planes d ps buffer_size spans
    = spans ++ [Span_of d (buffer_size + planes_length ps) fd].
Proof.
  induction ps as [|plane rest IH]; intros buffer_size spans Hall Hsize Hsum Hne;
    [done|].
  apply Forall_cons in Hall as [[Hfd Hplane] Hrest].
  assert (0 <= planes_length rest)%Z as Hnonneg.
  { apply planes_length_nonneg. eapply Forall_impl; [exact Hrest|]. by intros p [_ ?]. }
  simpl in Hsum. cbn [mmap_planes]. rewrite wrap64_small by lia.
  destruct rest as [|next rest'].
  - simpl. rewrite Hfd. do 3 f_equal. lia.
  - pose proof Hrest as Hrest'. apply Forall_cons in Hrest' as [[Hnext _] _].
    rewrite decide_False by (intros Hdiff; apply Hdiff; congruence).
    rewrite IH by (done || lia || (simpl in *; lia)).
    do 3 f_equal. simpl. lia.
Qed.

(** X2. A buffer whose planes all carry the same file descriptor is mapped
    exactly once: one [mmap] of that descriptor over the sum of the plane
    lengths, one span recorded. *)
Theorem mmap_planes_single_fd_maps_once d fd ps spans :
  Forall (fun p => plane_fd p = fd /\ (0 <= plane_length p)%Z) ps ->
  (planes_length ps < 2 ^ 64)%Z ->
  ps <> [] ->
  mmap_planes d ps 0 spans
    = spans ++ [ {| span_data := sys_mmap d (planes_length ps) fd;
                    span_size := planes_length ps |} ].
Proof.
  intros Hall Hsum Hne.
  rewrite (mmap_planes_one_fd d fd ps 0 spans) by (done || lia).
  by rewrite Z.add_0_l.
Qed.

Lemma mmap_planes_single_fd_maps_once_witness :
  mmap_planes Sample.camera
    [ {| plane_fd := 5; plane_length := 100 |};
      {| plane_fd := 5; plane_length := 50 |};
      {| plane_fd := 5; plane_length := 25 |} ] 0 []
  = [] ++ [ {| span_data := sys_mmap Sample.camera 175 5; span_size := 175 |} ].
Proof.
  apply (mmap_planes_single_fd_maps_once Sample.camera 5
           [ {| plane_fd := 5; plane_length := 100 |};
             {| plane_fd := 5; plane_length := 50 |};
             {| plane_fd := 5; plane_length := 25 |} ] []).
  - repeat constructor; simpl; lia.
  - simpl. lia.
  - discriminate.
Defined.

(** ** What [setupCapture] does to the object *)

Lemma beside_buffers_emit e s : beside_buffers (emit e s) = beside_buffers s.
Proof. done. Qed.

Lemma beside_buffers_setup_buffer d stream buffer s :
  beside_buffers (setup_buffer d stream buffer s) = beside_buffers s.
Proof. unfold setup_buffer. by destruct (planes buffer). Qed.

Lemma beside_buffers_setup_buffers d stream bs : forall s,
  beside_buffers (setup_buffers d stream bs s) = beside_buffers s.
Proof.
  unfold setup_buffers.
  induction bs as [|b bs IH]; intros s; simpl; [done|].
  by rewrite IH, beside_buffers_setup_buffer.
Qed.

Lemma beside_buffers_setup_streams d cfg : forall s s',
  setup_streams d cfg s = Ok s' -> beside_buffers s' = beside_buffers s.
Proof.
  induction cfg as [|c cfg IH]; intros s s'; simpl.
  - by intros [= <-].
  - case_match; [discriminate|]. intros Hrun.
    by rewrite (IH _ _ Hrun), beside_buffers_setup_buffers.
Qed.

Lemma beside_buffers_setupCapture d s s' :
  setupCapture d s = Ok s' -> beside_buffers s' = beside_buffers s.
Proof.
  unfold setupCapture. run.
  destruct (configuration_validate d); simpl; try discriminate;
    (case_match; [discriminate|]);
    (destruct (setup_streams _ _ _) as [s1| | | |] eqn:Hrun; simpl; try discriminate);
    intros [= <-];
    apply beside_buffers_setup_streams in Hrun;
    destruct (options_verbose s1), (options_verbose s);
    simpl in *; rewrite ?beside_buffers_emit in *; by rewrite Hrun.
Qed.

Lemma beside_buffers_fields s s' :
  beside_buffers s' = beside_buffers s ->
  configuration_ s' = configuration_ s /\
  requests_ s' = requests_ s /\
  options_verbose s' = options_verbose s /\
  streams_ s' = streams_ s /\
  camera_started_ s' = camera_started_ s /\
  known_completed_requests_ s' = known_completed_requests_ s /\
  free_requests_ s' = free_requests_ s /\
  controls_ s' = controls_ s.
Proof.
  intros H.
  repeat split;
    [ apply (f_equal configuration_) in H
    | apply (f_equal requests_) in H
    | apply (f_equal options_verbose) in H
    | apply (f_equal streams_) in H
    | apply (f_equal camera_started_) in H
    | apply (f_equal known_completed_requests_) in H
    | apply (f_equal free_requests_) in H
    | apply (f_equal controls_) in H ]; exact H.
Qed.

Lemma setup_streams_outcome d cfg : forall s,
  (Forall (fun c => (0 <= allocator_allocate d (stream_id c))%Z) cfg ->
     returns (setup_streams d cfg s)) /\
  (Exists (fun c => (allocator_allocate d (stream_id c) < 0)%Z) cfg ->
     setup_streams d cfg s = Throw "failed to allocate capture buffers").
Proof.
  induction cfg as [|c cfg IH]; intros s.
  - split; [intros _; by exists s | intros H; by apply Exists_nil in H].
  - split.
    + intros H. by apply setup_streams_returns.
    + intros H. simpl.
      destruct (Z.ltb_spec (allocator_allocate d (stream_id c)) 0); [done|].
      apply Exists_cons in H as [H|H]; [lia|]. by apply IH.
Qed.

(** X3. [setupCapture] returns exactly when the configuration does not
    validate as [Invalid], [configure] does not fail and [allocate] succeeds
    for every configured stream.  Otherwise it throws the message of the
    first of these steps that fails, in this order. *)
Theorem setupCapture_outcome d s :
  (returns (setupCapture d s) <->
     configuration_validate d <> Invalid /\
     (0 <= camera_configure d)%Z /\
     Forall (fun c => (0 <= allocator_allocate d (stream_id c))%Z) (configuration_ s)) /\
  (configuration_validate d = Invalid ->
     setupCapture d s = Throw "failed to valid stream configurations") /\
  (configuration_validate d <> Invalid -> (camera_configure d < 0)%Z ->
     setupCapture d s = Throw "failed to configure streams") /\
  (configuration_validate d <> Invalid -> (0 <= camera_configure d)%Z ->
     Exists (fun c => (allocator_allocate d (stream_id c) < 0)%Z) (configuration_ s) ->
     setupCapture d s = Throw "failed to allocate capture buffers").
Proof.
  assert (Hinvalid : configuration_validate d = Invalid ->
            setupCapture d s = Throw "failed to valid stream configurations").
  { intros H. unfold setupCapture. by rewrite H. }
  assert (Hconfigure : configuration_validate d <> Invalid ->
            (camera_configure d < 0)%Z ->
            setupCapture d s = Throw "failed to configure streams").
  { intros Hv Hc. unfold setupCapture. run.
    destruct (configuration_validate d); try done; simpl;
      by destruct (Z.ltb_spec (camera_configure d) 0); [|lia]. }
  assert (Hallocate : configuration_validate d <> Invalid ->
            (0 <= camera_configure d)%Z ->
            Exists (fun c => (allocator_allocate d (stream_id c) < 0)%Z)
                   (configuration_ s) ->
            setupCapture d s = Throw "failed to allocate capture buffers").
  { intros Hv Hc Ha. unfold setupCapture. run.
    destruct (configuration_validate d); try done; simpl;
      (destruct (Z.ltb_spec (camera_configure d) 0); [lia|]);
      match goal with
      | |- context [setup_streams d (configuration_ ?s1) ?s2] =>
          replace (configuration_ s1) with (configuration_ s)
            by (by destruct (options_verbose s));
          by rewrite (proj2 (setup_streams_outcome d (configuration_ s) s2) Ha)
      end. }
  split; [|by repeat split].
  split.
  - intros [s' Hs'].
    assert (Hv : configuration_validate d <> Invalid).
    { intros Hv. by rewrite Hinvalid in Hs'. }
    destruct (Z.ltb_spec (camera_configure d) 0) as [Hc|Hc];
      [by rewrite Hconfigure in Hs'|].
    repeat split; auto.
    apply Forall_forall. intros c Hin.
    destruct (Z.ltb_spec (allocator_allocate d (stream_id c)) 0) as [Ha|Ha]; [|done].
    rewrite Hallocate in Hs'; [done | done | done |].
    apply Exists_exists. eauto.
  - intros (Hv & Hc & Ha). by apply setupCapture_returns.
Qed.

Lemma setupCapture_outcome_witness :
  returns (setupCapture Sample.camera Sample.opened).
Proof.
  apply (proj1 (setupCapture_outcome Sample.camera Sample.opened)).
  split; [discriminate|]. split; [simpl; lia|].
  repeat constructor; simpl; lia.
Defined.

(** ** The free lists and the table of mappings after [setupCapture] *)

Lemma setup_buffer_queue d stream buffer s stream' :
  queue_of (frame_buffers_ (setup_buffer d stream buffer s)) stream'
    = if decide (stream' = stream)
      then queue_of (frame_buffers_ s) stream' ++ [buffer]
      else queue_of (frame_buffers_ s) stream'.
Proof.
  unfold setup_buffer, queue_of.
  destruct (planes buffer); simpl;
    (case_decide as Heq; [subst; by rewrite lookup_insert_eq
                         | by rewrite lookup_insert_ne]).
Qed.

Lemma setup_buffers_queue d stream bs : forall s stream',
  queue_of (frame_buffers_ (setup_buffers d stream bs s)) stream'
    = if decide (stream' = stream)
      then queue_of (frame_buffers_ s) stream' ++ bs
      else queue_of (frame_buffers_ s) stream'.
Proof.
  unfold setup_buffers.
  induction bs as [|b bs IH]; intros s stream'; simpl.
  - case_decide; [by rewrite app_nil_r | done].
  - rewrite IH, setup_buffer_queue. case_decide; [|done].
    by rewrite <- app_assoc.
Qed.

Lemma setup_streams_queue d cfg : forall s s' stream,
  NoDup (stream_id <$> cfg) ->
  setup_streams d cfg s = Ok s' ->
  queue_of (frame_buffers_ s') stream
    = if decide (stream ∈ stream_id <$> cfg)
      then queue_of (frame_buffers_ s) stream ++ allocator_buffers d stream
      else queue_of (frame_buffers_ s) stream.
Proof.
  induction cfg as [|c cfg IH]; intros s s' stream Hnodup; cbn [setup_streams].
  - intros [= <-]. rewrite decide_False; [done|]. apply not_elem_of_nil.
  - rewrite fmap_cons in *. apply NoDup_cons in Hnodup as [Hnotin Hnodup].
    case_match; [discriminate|]. intros Hrun.
    rewrite (IH _ _ stream Hnodup Hrun), setup_buffers_queue.
    change (frame_buffers_ (emit _ s)) with (frame_buffers_ s).
    destruct (decide (stream = stream_id c)) as [->|Hne].
    + rewrite decide_False by done.
      by rewrite decide_True by apply list_elem_of_here.
    + destruct (decide (stream ∈ stream_id <$> cfg)) as [Hin|Hin].
      * by rewrite decide_True by (by apply list_elem_of_further).
      * rewrite decide_False; [done|].
        intros H'. apply elem_of_cons in H' as [?|?]; done.
Qed.

Lemma setupCapture_queue d s s' stream :
  NoDup (stream_id <$> configuration_ s) ->
  setupCapture d s = Ok s' ->
  queue_of (frame_buffers_ s') stream
    = if decide (stream ∈ stream_id <$> configuration_ s)
      then queue_of (frame_buffers_ s) stream ++ allocator_buffers d stream
      else queue_of (frame_buffers_ s) stream.
Proof.
  intros Hnodup. unfold setupCapture. run.
  assert (Hgoal : forall s0 s1,
            configuration_ s0 = configuration_ s ->
            frame_buffers_ s0 = frame_buffers_ s ->
            setup_streams d (configuration_ s0) s0 = Ok s1 ->
            queue_of (frame_buffers_ s1) stream
              = if decide (stream ∈ stream_id <$> configuration_ s)
                then queue_of (frame_buffers_ s) stream ++ allocator_buffers d stream
                else queue_of (frame_buffers_ s) stream).
  { intros s0 s1 Hcfg Hfb Hrun. rewrite Hcfg in Hrun.
    by rewrite (setup_streams_queue d _ _ _ stream Hnodup Hrun), Hfb. }
  destruct (configuration_validate d); simpl; try discriminate;
    (destruct (camera_configure d <? 0)%Z; [discriminate|]);
    (destruct (setup_streams _ _ _) as [s1| | | |] eqn:Hrun; simpl; try discriminate);
    intros [= <-];
    apply Hgoal in Hrun; try (by destruct (options_verbose s));
    destruct (options_verbose s1); exact Hrun.
Qed.

(** X4. When [setupCapture] returns (the configured streams being distinct),
    the free list of every configured stream is what it was followed by the
    buffers the allocator holds for that stream, in the allocator's order,
    and the free list of any other stream is as before. *)
Theorem setupCapture_free_lists d s s' stream :
  NoDup (stream_id <$> configuration_ s) ->
  setupCapture d s = Ok s' ->
  (stream ∈ stream_id <$> configuration_ s ->
     queue_of (frame_buffers_ s') stream
       = queue_of (frame_buffers_ s) stream ++ allocator_buffers d stream) /\
  (stream ∉ stream_id <$> configuration_ s ->
     queue_of (frame_buffers_ s') stream = queue_of (frame_buffers_ s) stream).
Proof.
  intros Hnodup Hrun. rewrite (setupCapture_queue d s s' stream Hnodup Hrun).
  split; intros Hin; [by rewrite decide_True | by rewrite decide_False].
Qed.

Lemma setupCapture_free_lists_witness :
  exists s',
    setupCapture Sample.camera Sample.opened = Ok s' /\
    queue_of (frame_buffers_ s') 100
      = queue_of (frame_buffers_ Sample.opened) 100
          ++ allocator_buffers Sample.camera 100.
Proof.
  destruct (setupCapture Sample.camera Sample.opened) as [s'| | | |] eqn:Hsetup;
    try (vm_compute in Hsetup; discriminate).
  exists s'. split; [reflexivity|].
  apply (proj1 (setupCapture_free_lists Sample.camera Sample.opened s' 100%N
                  ltac:(apply (bool_decide_unpack _); vm_compute; exact I) Hsetup)).
  apply list_elem_of_here.
Defined.

Lemma setup_buffer_mapped d stream buffer s b :
  Mmap (Some b) s `prefix_of` Mmap (Some b) (setup_buffer d stream buffer s) /\
  (fb_id b = fb_id buffer -> planes buffer <> [] ->
     Mmap (Some b) (setup_buffer d stream buffer s) <> []).
Proof.
  unfold setup_buffer, Mmap.
  destruct (planes buffer) as [|p ps] eqn:Hplanes;
    cbn [mapped_buffers_ set_mapped_buffers_ set_frame_buffers_]; [by split|].
  destruct (mmap_planes_extends d (p :: ps) 0
              (default [] (mapped_buffers_ s !! fb_id buffer)))
    as (new & Heq & Hne).
  destruct (decide (fb_id b = fb_id buffer)) as [Hid|Hid].
  - rewrite Hid, lookup_insert_eq. cbn [default]. rewrite Heq. split.
    + by apply prefix_app_r.
    + intros _ _ Hnil. apply app_eq_nil in Hnil as [_ Hnil]. by apply Hne.
  - rewrite lookup_insert_ne by done. by split.
Qed.

Lemma setup_buffers_mapped d stream bs : forall s b,
  Mmap (Some b) s `prefix_of` Mmap (Some b) (setup_buffers d stream bs s) /\
  (b ∈ bs -> planes b <> [] -> Mmap (Some b) (setup_buffers d stream bs s) <> []).
Proof.
  unfold setup_buffers.
  induction bs as [|b' bs IH]; intros s b; cbn [foldl].
  - split; [done|]. intros H. by apply not_elem_of_nil in H.
  - destruct (IH (setup_buffer d stream b' s) b) as [Hpre Hin].
    destruct (setup_buffer_mapped d stream b' s b) as [Hpre' Hnew].
    split; [by etrans|].
    intros Hb Hplanes. apply elem_of_cons in Hb as [->|Hb]; [|by apply Hin].
    intros Hnil. rewrite Hnil in Hpre. apply prefix_nil_inv in Hpre.
    by apply Hnew.
Qed.

Lemma setup_streams_mapped d cfg : forall s s' b,
  setup_streams d cfg s = Ok s' ->
  Mmap (Some b) s `prefix_of` Mmap (Some b) s' /\
  (forall c, c ∈ cfg -> b ∈ allocator_buffers d (stream_id c) -> planes b <> [] ->
     Mmap (Some b) s' <> []).
Proof.
  induction cfg as [|c cfg IH]; intros s s' b; cbn [setup_streams].
  - intros [= <-]. split; [done|]. intros c H. by apply not_elem_of_nil in H.
  - case_match; [discriminate|]. intros Hrun.
    destruct (IH _ _ b Hrun) as [Hpre Hin].
    destruct (setup_buffers_mapped d (stream_id c) (allocator_buffers d (stream_id c))
                (emit (AllocatorAllocate (stream_id c)) s) b) as [Hpre' Hnew].
    split; [by etrans|].
    intros c' Hc' Hb Hplanes. apply elem_of_cons in Hc' as [->|Hc']; [|by eapply Hin].
    intros Hnil. rewrite Hnil in Hpre. apply prefix_nil_inv in Hpre.
    by apply Hnew.
Qed.

(** X5. When [setupCapture] returns, every buffer that the allocator holds
    for a configured stream and that has at least one plane has a first
    span in the table, so that [Mmap(buffer)[0]] is defined; and whatever
    was mapped for a buffer before is still in front of its spans. *)
Theorem setupCapture_maps_every_buffer d s s' c b :
  setupCapture d s = Ok s' ->
  Mmap (Some b) s `prefix_of` Mmap (Some b) s' /\
  (c ∈ configuration_ s -> b ∈ allocator_buffers d (stream_id c) ->
   planes b <> [] ->
     exists span rest, Mmap (Some b) s' = span :: rest).
Proof.
  unfold setupCapture. run.
  assert (Hgoal : forall s0 s1,
            configuration_ s0 = configuration_ s ->
            mapped_buffers_ s0 = mapped_buffers_ s ->
            setup_streams d (configuration_ s0) s0 = Ok s1 ->
            Mmap (Some b) s `prefix_of` Mmap (Some b) s1 /\
            (c ∈ configuration_ s -> b ∈ allocator_buffers d (stream_id c) ->
             planes b <> [] -> exists span rest, Mmap (Some b) s1 = span :: rest)).
  { intros s0 s1 Hcfg Hmb Hrun. rewrite Hcfg in Hrun.
    destruct (setup_streams_mapped d _ _ _ b Hrun) as [Hpre Hin].
    split; [by unfold Mmap in *; rewrite <- Hmb|].
    intros Hc Hb Hplanes. specialize (Hin c Hc Hb Hplanes).
    destruct (Mmap (Some b) s1); [done | eauto]. }
  destruct (configuration_validate d); simpl; try discriminate;
    (destruct (camera_configure d <? 0)%Z; [discriminate|]);
    (destruct (setup_streams _ _ _) as [s1| | | |] eqn:Hrun; simpl; try discriminate);
    intros [= <-];
    apply Hgoal in Hrun; try (by destruct (options_verbose s));
    destruct (options_verbose s1); exact Hrun.
Qed.

Lemma setupCapture_maps_every_buffer_witness :
  exists s' span rest,
    setupCapture Sample.camera_mmap_fails Sample.opened = Ok s' /\
    Mmap (Some (Sample.frame 101 5 0)) s' = span :: rest.
Proof.
  destruct (setupCapture Sample.camera_mmap_fails Sample.opened) as [s'| | | |]
    eqn:Hsetup; try (vm_compute in Hsetup; discriminate).
  destruct (proj2 (setupCapture_maps_every_buffer Sample.camera_mmap_fails
                     Sample.opened s' Sample.viewfinder (Sample.frame 101 5 0) Hsetup))
    as (span & rest & Hmap).
  - apply list_elem_of_here.
  - apply list_elem_of_here.
  - discriminate.
  - exists s', span, rest. split; [reflexivity | exact Hmap].
Defined.

(** X6. Buffer setup and request building fit together.  Starting from
    empty free lists, with distinct configured streams and a camera that
    creates requests and binds buffers, once [setupCapture] has returned
    [makeRequests] builds as many requests as the allocator holds buffers for
    the primary stream if no other stream got fewer, and throws "concurrent
    streams need matching numbers of buffers" if one did. *)
Theorem setupCapture_then_makeRequests d s s1 primary others :
  (forall n, is_Some (camera_createRequest d n)) ->
  (forall r stream b, (0 <= request_addBuffer d r stream b)%Z) ->
  configuration_ s = primary :: others ->
  NoDup (stream_id <$> configuration_ s) ->
  frame_buffers_ s = ∅ ->
  setupCapture d s = Ok s1 ->
  let n := length (allocator_buffers d (stream_id primary)) in
  (Forall (fun c => n <= length (allocator_buffers d (stream_id c))) others ->
     exists s2,
       makeRequests d (S n) s1 = Ok s2 /\
       length (requests_ s2) = length (requests_ s) + n) /\
  (Exists (fun c => length (allocator_buffers d (stream_id c)) < n) others ->
     makeRequests d (S n) s1
       = Throw "concurrent streams need matching numbers of buffers").
Proof.
  intros Hcreate Hadd Hcfg Hnodup Hempty Hsetup n. subst n.
  destruct (beside_buffers_fields _ _ (beside_buffers_setupCapture _ _ _ Hsetup))
    as (Hcfg1 & Hreq1 & _).
  assert (Hqueue : forall c, c ∈ primary :: others ->
            queue_of (frame_buffers_ s1) (stream_id c)
              = allocator_buffers d (stream_id c)).
  { intros c Hc. rewrite (setupCapture_queue d s s1 _ Hnodup Hsetup).
    rewrite decide_True by (rewrite Hcfg; by apply list_elem_of_fmap_2).
    unfold queue_of. by rewrite Hempty, lookup_empty. }
  rewrite Hcfg in Hnodup. rewrite Hcfg in Hcfg1.
  pose proof (Hqueue primary (list_elem_of_here _ _)) as Hprimary.
  pose proof (makeRequests_spec d Hcreate Hadd primary others
                (S (length (allocator_buffers d (stream_id primary)))) s1
                Hcfg1 Hnodup) as Hspec.
  rewrite Hprimary in Hspec. specialize (Hspec (Nat.lt_succ_diag_r _)).
  assert (Hshort :
            shorter_than (length (allocator_buffers d (stream_id primary))) others
              (frame_buffers_ s1)
            <-> Exists (fun c => length (allocator_buffers d (stream_id c))
                                 < length (allocator_buffers d (stream_id primary)))
                       others).
  { unfold shorter_than. rewrite !Exists_exists.
    split; intros (c & Hc & Hlen); exists c; (split; [done|]).
    - by rewrite <- (Hqueue c) by (by apply list_elem_of_further).
    - by rewrite (Hqueue c) by (by apply list_elem_of_further). }
  split.
  - intros Hall. rewrite Hspec, decide_False.
    + eexists. split; [reflexivity|].
      rewrite requests_of_requests_created, length_app, length_fmap, length_seq.
      by rewrite Hreq1.
    + intros H. apply Hshort in H. apply Exists_exists in H as (c & Hc & Hlt).
      rewrite Forall_forall in Hall. specialize (Hall c Hc). lia.
  - intros Hex. rewrite Hspec. by rewrite decide_True by (by apply Hshort).
Qed.

Lemma setupCapture_then_makeRequests_witness :
  exists s1 s2,
    setupCapture Sample.camera Sample.opened = Ok s1 /\
    makeRequests Sample.camera 3 s1 = Ok s2 /\
    length (requests_ s2) = 2.
Proof.
  destruct (setupCapture Sample.camera Sample.opened) as [s1| | | |] eqn:Hsetup;
    try (vm_compute in Hsetup; discriminate).
  destruct (setupCapture_then_makeRequests Sample.camera Sample.opened s1
              Sample.viewfinder [])
    as [Hok _].
  - intros n. eexists. reflexivity.
  - intros r stream b. simpl. lia.
  - reflexivity.
  - apply (bool_decide_unpack _). vm_compute. exact I.
  - reflexivity.
  - exact Hsetup.
  - destruct Hok as (s2 & Hrun & Hlen); [constructor|].
    exists s1, s2. split; [reflexivity|]. split; [exact Hrun | exact Hlen].
Defined.

(** ** Recycling a completed request *)

Lemma addBuffers_binds d what items : forall request,
  (forall r stream b, (0 <= request_addBuffer d r stream b)%Z) ->
  addBuffers d what request items
    = Ok (foldl (fun r p => Request_bind p.1 p.2 r) request items).
Proof.
  induction items as [|p items IH]; intros request Hadd; simpl; [done|].
  destruct (Request_addBuffer_binds d Hadd request p.1 p.2) as (rc & Hrc & ->).
  destruct (Z.ltb_spec rc 0); [lia|]. by apply IH.
Qed.

Lemma foldl_Request_bind items : forall request,
  NoDup items.*1 ->
  foldl (fun r p => Request_bind p.1 p.2 r) request items
    = Request_with_buffers (list_to_map items ∪ request_buffers request) request.
Proof.
  induction items as [|p items IH]; intros request Hnodup; simpl.
  - rewrite (left_id_L ∅ (∪)). by destruct request.
  - apply NoDup_cons in Hnodup as [Hnotin Hnodup].
    rewrite IH by done. unfold Request_with_buffers, Request_bind; simpl.
    f_equal. rewrite <- insert_union_l.
    by rewrite insert_union_r by (by apply not_elem_of_list_to_map_1).
Qed.

Lemma BufferMap_items_NoDup (m : BufferMap) : NoDup (BufferMap_items m).*1.
Proof.
  unfold BufferMap_items.
  rewrite (merge_sort_Permutation key_le (map_to_list m)).
  apply NoDup_fst_map_to_list.
Qed.

Lemma list_to_map_BufferMap_items (m : BufferMap) :
  list_to_map (BufferMap_items m) = m.
Proof.
  rewrite <- (list_to_map_to_list m) at 2.
  apply list_to_map_proper; [apply BufferMap_items_NoDup|].
  apply merge_sort_Permutation.
Qed.

(** What [queueRequest] hands to the camera, given the container it popped. *)
Lemma queueRequest_pops d cr s request rest :
  camera_started_ s = true ->
  cr_ptr cr ∈ known_completed_requests_ s ->
  free_requests_ s = request :: rest ->
  (forall r stream b, (0 <= request_addBuffer d r stream b)%Z) ->
  queueRequest d cr s
    = let submitted :=
        Request_set_controls (controls_ s)
          (Request_with_buffers (buffers cr ∪ request_buffers request) request) in
      if (camera_queueRequest d submitted <? 0)%Z
      then Throw "failed to queue request"
      else Ok (emit (CameraQueueRequest submitted)
                 (set_controls_ ∅
                    (set_free_requests_ rest
                       (set_known_completed_requests_
                          (known_completed_requests_ s ∖ {[cr_ptr cr]}) s)))).
Proof.
  intros Hstarted Hin Hfree Hadd. unfold queueRequest.
  rewrite Hstarted. simpl. rewrite decide_True by done. simpl. rewrite Hfree.
  rewrite addBuffers_binds by done. run.
  by rewrite foldl_Request_bind, list_to_map_BufferMap_items
    by apply BufferMap_items_NoDup.
Qed.

(** X7. The ordinary recycle.  With the camera started, the identity known
    and a free container at hand (the requests accepting every buffer),
    [queueRequest] erases the identity, pops exactly the oldest free
    container, binds to it every buffer of the completed request, moves the
    pending controls into it, and submits that one request; [controls_] is
    left empty.  It throws "failed to queue request" exactly when the camera
    refuses the submission. *)
Theorem queueRequest_resubmits_buffers d cr s request rest :
  camera_started_ s = true ->
  cr_ptr cr ∈ known_completed_requests_ s ->
  free_requests_ s = request :: rest ->
  (forall r stream b, (0 <= request_addBuffer d r stream b)%Z) ->
  let submitted :=
    {| request_id := request_id request;
       request_status := request_status request;
       request_buffers := buffers cr ∪ request_buffers request;
       request_controls := controls_ s;
       request_metadata := request_metadata request |} in
  ((0 <= camera_queueRequest d submitted)%Z ->
     exists s',
       queueRequest d cr s = Ok s' /\
       trace s' = trace s ++ [CameraQueueRequest submitted] /\
       free_requests_ s' = rest /\
       known_completed_requests_ s' = known_completed_requests_ s ∖ {[cr_ptr cr]} /\
       controls_ s' = ∅ /\
       (forall stream b, buffers cr !! stream = Some b ->
                         request_buffers submitted !! stream = Some b)) /\
  ((camera_queueRequest d submitted < 0)%Z ->
     queueRequest d cr s = Throw "failed to queue request").
Proof.
  intros Hstarted Hin Hfree Hadd submitted.
  rewrite (queueRequest_pops d cr s request rest) by done.
  change (Request_set_controls _ _) with submitted. cbv zeta.
  split; intros Hrc.
  - destruct (Z.ltb_spec (camera_queueRequest d submitted) 0); [lia|].
    eexists. split; [reflexivity|]. repeat split.
    intros stream b Hb. simpl. by apply lookup_union_Some_l.
  - by destruct (Z.ltb_spec (camera_queueRequest d submitted) 0); [|lia].
Qed.

Lemma queueRequest_resubmits_buffers_witness :
  exists s',
    queueRequest Sample.camera (Sample.payload 7 0) Sample.running = Ok s' /\
    free_requests_ s' = [] /\
    controls_ s' = ∅.
Proof.
  destruct (queueRequest_resubmits_buffers Sample.camera (Sample.payload 7 0)
              Sample.running (Request_new 1000) [])
    as [Hok _].
  - reflexivity.
  - simpl. apply elem_of_singleton. reflexivity.
  - reflexivity.
  - intros r stream b. simpl. lia.
  - destruct Hok as (s' & Hrun & _ & Hfree & _ & Hcontrols & _); [simpl; lia|].
    exists s'. split; [exact Hrun|]. split; [exact Hfree | exact Hcontrols].
Defined.

Lemma insert_erase_fresh (x : N) (X : gset N) : x ∉ X -> ({[x]} ∪ X) ∖ {[x]} = X.
Proof.
  intros Hx. apply set_eq. intros y.
  rewrite elem_of_difference, elem_of_union, elem_of_singleton.
  split; [tauto|]. intros Hy. split; [tauto|]. intros ->. done.
Qed.

Lemma requestComplete_state r request first s :
  request_status request <> RequestCancelled ->
  BufferMap_begin (request_buffers request) = Some first ->
  exists s1 payload,
    requestComplete r request s = Ok s1 /\
    delivered s1 = delivered s ++ [payload] /\
    cr_ptr payload = r /\
    buffers payload = request_buffers request /\
    camera_started_ s1 = camera_started_ s /\
    controls_ s1 = controls_ s /\
    trace s1 = trace s ++ [PostProcessorProcess payload] /\
    known_completed_requests_ s1 = {[r]} ∪ known_completed_requests_ s /\
    free_requests_ s1 = free_requests_ s ++ [Request_reuse request].
Proof.
  intros Hlive Hfirst. unfold requestComplete.
  destruct (request_status request) eqn:Hstatus; try done;
    simpl; rewrite Hfirst; simpl;
    (eexists; eexists; split; [reflexivity|]);
    rewrite delivered_emit; simpl; repeat split; reflexivity.
Qed.

(** X8. Completion followed by release.  With the camera started, a
    completed request that is not cancelled and binds a buffer, allocated at
    an address that is not in the known set: once [requestComplete] has
    handed the payload on and the payload's last reference is released,
    [queueRequest] submits one request that carries every buffer the
    completed request carried, in the container that has been free the
    longest, which is the completed container itself, emptied, when no other
    was free.  The known set is back to what it was and the free list has the
    length it had. *)
Theorem requestComplete_then_queueRequest d r request s :
  camera_started_ s = true ->
  request_status request <> RequestCancelled ->
  request_buffers request <> ∅ ->
  r ∉ known_completed_requests_ s ->
  (forall id stream b, (0 <= request_addBuffer d id stream b)%Z) ->
  (forall q, (0 <= camera_queueRequest d q)%Z) ->
  exists s1 payload s2 container,
    requestComplete r request s = Ok s1 /\
    delivered s1 = delivered s ++ [payload] /\
    head (free_requests_ s ++ [Request_reuse request]) = Some container /\
    (free_requests_ s = [] -> container = Request_reuse request) /\
    queueRequest d payload s1 = Ok s2 /\
    trace s2
      = trace s1
          ++ [CameraQueueRequest
                {| request_id := request_id container;
                   request_status := request_status container;
                   request_buffers := request_buffers request
                                        ∪ request_buffers container;
                   request_controls := controls_ s;
                   request_metadata := request_metadata container |}] /\
    known_completed_requests_ s2 = known_completed_requests_ s /\
    length (free_requests_ s2) = length (free_requests_ s).
Proof.
  intros Hstarted Hlive Hbuffers Hfresh Hadd Hqueue.
  destruct (BufferMap_begin_is_Some _ Hbuffers) as [first Hfirst].
  destruct (requestComplete_state r request first s Hlive Hfirst)
    as (s1 & payload & Hstep & Hdel & Hptr & Hbuf & Hstarted1 & Hcontrols1 & _
        & Hknown1 & Hfree1).
  destruct (free_requests_ s ++ [Request_reuse request]) as [|container rest] eqn:Hq.
  { by destruct (free_requests_ s). }
  exists s1, payload. eexists. exists container.
  split; [done|]. split; [done|]. split; [done|].
  split. { intros Hnil. rewrite Hnil in Hq. by injection Hq as <- _. }
  rewrite (queueRequest_pops d payload s1 container rest);
    [| congruence
     | rewrite Hknown1, Hptr; apply elem_of_union_l; by apply elem_of_singleton
     | congruence | done ].
  cbv zeta.
  match goal with
  | |- context [camera_queueRequest d ?q] =>
      destruct (Z.ltb_spec (camera_queueRequest d q) 0) as [Hneg|_];
        [pose proof (Hqueue q); lia|]
  end.
  split; [reflexivity|]. simpl. rewrite Hbuf, Hcontrols1.
  split; [done|]. split.
  - rewrite Hknown1, Hptr. by apply insert_erase_fresh.
  - apply (f_equal length) in Hq. rewrite length_app in Hq. simpl in Hq. lia.
Qed.

Lemma requestComplete_then_queueRequest_witness :
  exists s1 payload s2 container,
    requestComplete 9 (Sample.completed 1 1000) Sample.running = Ok s1 /\
    delivered s1 = delivered Sample.running ++ [payload] /\
    head (free_requests_ Sample.running ++ [Request_reuse (Sample.completed 1 1000)])
      = Some container /\
    queueRequest Sample.camera payload s1 = Ok s2 /\
    known_completed_requests_ s2 = known_completed_requests_ Sample.running /\
    length (free_requests_ s2) = length (free_requests_ Sample.running).
Proof.
  destruct (requestComplete_then_queueRequest Sample.camera 9
              (Sample.completed 1 1000) Sample.running)
    as (s1 & payload & s2 & container & H1 & H2 & H3 & _ & H4 & _ & H5 & H6).
  - reflexivity.
  - discriminate.
  - apply insert_non_empty.
  - simpl. rewrite elem_of_singleton. discriminate.
  - intros id stream b. simpl. lia.
  - intros q. simpl. lia.
  - exists s1, payload, s2, container. repeat split; assumption.
Defined.

(** ** Pending controls *)

(** X9. Controls given to [SetControls] replace the pending ones, they are
    not merged with them; the caller's list is left empty.  The next request
    that [queueRequest] submits carries them, and the one after carries
    none: pending controls reach the camera exactly once. *)
Theorem SetControls_reach_one_request d earlier controls cr cr' s request request' rest :
  camera_started_ s = true ->
  cr_ptr cr ∈ known_completed_requests_ s ->
  cr_ptr cr' ∈ known_completed_requests_ s ->
  cr_ptr cr' <> cr_ptr cr ->
  free_requests_ s = request :: request' :: rest ->
  (forall id stream b, (0 <= request_addBuffer d id stream b)%Z) ->
  (forall q, (0 <= camera_queueRequest d q)%Z) ->
  let s0 := (SetControls controls (SetControls earlier s).1).1 in
  controls_ s0 = controls /\
  (SetControls controls (SetControls earlier s).1).2 = ∅ /\
  exists s1 s2 submitted submitted',
    queueRequest d cr s0 = Ok s1 /\
    trace s1 = trace s ++ [CameraQueueRequest submitted] /\
    request_controls submitted = controls /\
    queueRequest d cr' s1 = Ok s2 /\
    trace s2 = trace s1 ++ [CameraQueueRequest submitted'] /\
    request_controls submitted' = ∅.
Proof.
  intros Hstarted Hin Hin' Hne Hfree Hadd Hqueue s0. subst s0.
  split; [done|]. split; [done|].
  unfold SetControls; simpl.
  rewrite (queueRequest_pops d cr _ request (request' :: rest)) by done.
  cbv zeta.
  match goal with
  | |- context [camera_queueRequest d ?q] =>
      destruct (Z.ltb_spec (camera_queueRequest d q) 0) as [Hneg|_];
        [pose proof (Hqueue q); lia|]
  end.
  eexists. eexists. eexists. eexists.
  split; [reflexivity|]. split; [reflexivity|]. split; [reflexivity|].
  rewrite (queueRequest_pops d cr' _ request' rest);
    [| done
     | simpl; apply elem_of_difference; split; [done|];
       by rewrite elem_of_singleton
     | done | done ].
  cbv zeta.
  match goal with
  | |- context [camera_queueRequest d ?q] =>
      destruct (Z.ltb_spec (camera_queueRequest d q) 0) as [Hneg|_];
        [pose proof (Hqueue q); lia|]
  end.
  split; [reflexivity|]. simpl. split; reflexivity.
Qed.

Lemma SetControls_reach_one_request_witness :
  exists s1 s2 submitted submitted',
    queueRequest Sample.camera (Sample.payload 7 0)
      (SetControls {[ 3%N := 9%Z ]} (SetControls {[ 1%N := 5%Z ]} Sample2.recycling).1).1
      = Ok s1 /\
    trace s1 = trace Sample2.recycling ++ [CameraQueueRequest submitted] /\
    request_controls submitted = {[ 3%N := 9%Z ]} /\
    queueRequest Sample.camera (Sample.payload 8 1) s1 = Ok s2 /\
    trace s2 = trace s1 ++ [CameraQueueRequest submitted'] /\
    request_controls submitted' = ∅.
Proof.
  apply (SetControls_reach_one_request Sample.camera {[ 1%N := 5%Z ]} {[ 3%N := 9%Z ]}
           (Sample.payload 7 0) (Sample.payload 8 1) Sample2.recycling
           (Request_new 1000) (Request_new 1001) []).
  - reflexivity.
  - simpl. apply elem_of_union_l. by apply elem_of_singleton.
  - simpl. apply elem_of_union_r. by apply elem_of_singleton.
  - discriminate.
  - reflexivity.
  - intros id stream b. simpl. lia.
  - intros q. simpl. lia.
Defined.

(** ** Stopping *)

(** X10. [StopCamera] returns exactly when the camera was not started or
    [camera_->stop()] answers 0, and throws "failed to stop camera"
    otherwise.  Once it has returned, calling it again always returns, on any
    camera, without calling [stop] or stopping the post-processor a second
    time: apart from what it adds to the trace the object stays as the first
    call left it. *)
Theorem StopCamera_twice d d' s :
  (returns (StopCamera d s) <-> camera_started_ s = false \/ camera_stop d = 0%Z) /\
  (camera_started_ s = true -> camera_stop d <> 0%Z ->
     StopCamera d s = Throw "failed to stop camera") /\
  (forall s1, StopCamera d s = Ok s1 ->
     exists s2 extra,
       StopCamera d' s1 = Ok s2 /\
       s2 = set_trace (trace s1 ++ extra) s1 /\
       (CameraStop ∉ extra) /\ (PostProcessorStop ∉ extra)).
Proof.
  assert (Hthrow : camera_started_ s = true -> camera_stop d <> 0%Z ->
            StopCamera d s = Throw "failed to stop camera").
  { intros Hstarted Hstop. unfold StopCamera. rewrite Hstarted. run.
    by rewrite decide_True. }
  split; [|split; [done|]].
  - split.
    + intros [s1 Hs1]. destruct (camera_started_ s) eqn:Hstarted; [|by left].
      right. destruct (decide (camera_stop d = 0%Z)); [done|].
      by rewrite Hthrow in Hs1.
    + destruct s as [verbose help cam prev started ? ? ? ? ? ? ? ? ? ? ? ? ? ?].
      unfold StopCamera. run. intros [->| ->].
      * eexists. reflexivity.
      * destruct started; simpl; by eexists.
  - intros s1 Hs1.
    destruct (StopCamera_returns _ _ _ Hs1)
      as (Hstarted & Hknown & Hmsg & Hfree & Hreq & Hctl).
    destruct s1 as [verbose help cam prev started known msgs free reqs ctl ? ? ? ? ? ? ? ? tr].
    simpl in *. subst.
    unfold StopCamera. run.
    exists (set_trace
              (tr ++ (if cam then [RequestCompletedDisconnect] else [])
                  ++ (if prev then [PreviewReset] else [])
                  ++ (if verbose && negb help then [Cerr "Camera stopped!"] else []))
              {| options_verbose := verbose; options_help := help; camera_ := cam;
                 preview_ := prev; camera_started_ := false;
                 known_completed_requests_ := ∅; msg_queue_ := [];
                 free_requests_ := []; requests_ := []; controls_ := ∅;
                 sequence_ := sequence_0; last_timestamp_ := last_timestamp_0;
                 preview_item_ := preview_item_0;
                 preview_frames_dropped_ := preview_frames_dropped_0;
                 configuration_ := configuration_0;
                 frame_buffers_ := frame_buffers_0;
                 mapped_buffers_ := mapped_buffers_0;
                 streams_ := streams_0; trace := tr |}).
    eexists.
    split; [|split; [reflexivity|]].
    + destruct cam, prev, verbose, help; simpl;
        unfold emit, set_trace; simpl; rewrite ?app_nil_r, <- ?app_assoc; reflexivity.
    + destruct cam, prev, verbose, help; simpl; split;
        rewrite ?elem_of_cons; intros H;
        repeat (destruct H as [H|H]; [discriminate|]);
        by apply not_elem_of_nil in H.
Qed.

Lemma StopCamera_twice_witness :
  returns (StopCamera Sample.camera Sample.running) /\
  StopCamera Sample2.camera_stop_fails Sample.running = Throw "failed to stop camera" /\
  exists s1 s2 extra,
    StopCamera Sample.camera Sample.running = Ok s1 /\
    StopCamera Sample2.camera_stop_fails s1 = Ok s2 /\
    s2 = set_trace (trace s1 ++ extra) s1.
Proof.
  split; [|split].
  - apply (proj1 (StopCamera_twice Sample.camera Sample.camera Sample.running)).
    right. reflexivity.
  - apply (proj1 (proj2 (StopCamera_twice Sample2.camera_stop_fails Sample.camera
                           Sample.running))).
    + reflexivity.
    + discriminate.
  - destruct (StopCamera Sample.camera Sample.running) as [s1| | | |] eqn:Hfirst;
      try (vm_compute in Hfirst; discriminate).
    destruct (proj2 (proj2 (StopCamera_twice Sample.camera Sample2.camera_stop_fails
                              Sample.running)) s1 Hfirst)
      as (s2 & extra & Hrun & Heq & _).
    exists s1, s2, extra. split; [reflexivity|]. split; [exact Hrun | exact Heq].
Defined.

(** ** What [makeRequests] leaves alone *)

Lemma requests_back_addBuffer_frame d stream buffer cur cur' rs new :
  requests_back_addBuffer d stream buffer cur = Ok cur' ->
  requests_ cur = rs ++ new ->
  new <> [] ->
  beside_requests cur' = beside_requests cur /\
  exists new', requests_ cur' = rs ++ new' /\ new' <> [].
Proof.
  unfold requests_back_addBuffer. intros Hrun Hrs Hnew.
  destruct (last (requests_ cur)) as [back|]; [|discriminate].
  destruct (Request_addBuffer d back stream buffer) as [rc back'].
  destruct (rc <? 0)%Z; [discriminate|].
  injection Hrun as <-. split; [done|]. simpl.
  rewrite Hrs, removelast_app by done.
  exists (removelast new ++ [back']). rewrite <- app_assoc. split; [done|].
  intros H. by apply app_eq_nil in H as [_ ?].
Qed.

Lemma makeRequests_for_frame d cfg : forall fb cur out rs new,
  makeRequests_for d cfg fb cur = Ok out ->
  requests_ cur = rs ++ new ->
  new <> [] \/ (exists c cfg', cfg = c :: cfg' /\
                  Some (stream_id c) = stream_id <$> head (configuration_ cur)) ->
  exists cur',
    (out = Return cur' \/ exists fb', out = Continue (fb', cur')) /\
    beside_requests cur' = beside_requests cur /\
    exists new', requests_ cur' = rs ++ new'.
Proof.
  induction cfg as [|c cfg IH]; intros fb cur out rs new Hrun Hrs Hnew.
  - injection Hrun as <-. exists cur. split; [right; by eexists|]. split; [done|].
    by exists new.
  - cbn [makeRequests_for] in Hrun.
    destruct (decide (Some (stream_id c) = stream_id <$> head (configuration_ cur)))
      as [Hprimary|Hother].
    + destruct (default [] (fb !! stream_id c)) as [|buffer queue'] eqn:Hq.
      * injection Hrun as <-. eexists. split; [by left|].
        split; [by destruct (options_verbose cur)|].
        exists new. by destruct (options_verbose cur).
      * destruct (camera_createRequest d (length (requests_ cur))) as [id|];
          [|discriminate].
        revert Hrun. run.
        destruct (requests_back_addBuffer d (stream_id c) buffer _) as [cur1| | | |]
          eqn:Hback; simpl; try discriminate.
        intros Hrun.
        destruct (requests_back_addBuffer_frame d _ _ _ _ rs (new ++ [Request_new id])
                    Hback) as (Hframe1 & new1 & Hrs1 & Hnew1).
        { simpl. by rewrite Hrs, <- app_assoc. }
        { intros H. by apply app_eq_nil in H as [_ ?]. }
        destruct (IH _ _ _ rs new1 Hrun Hrs1 (or_introl Hnew1))
          as (cur' & Hout & Hframe & Hrs').
        exists cur'. split; [done|]. split; [|done].
        by rewrite Hframe, Hframe1.
    + destruct Hnew as [Hnew|(c0 & cfg0 & [= <- <-] & Heq)]; [|done].
      destruct (default [] (fb !! stream_id c)) as [|buffer queue'] eqn:Hq;
        [discriminate|].
      revert Hrun. run.
      destruct (requests_back_addBuffer d (stream_id c) buffer _) as [cur1| | | |]
        eqn:Hback; simpl; try discriminate.
      intros Hrun.
      destruct (requests_back_addBuffer_frame d _ _ _ _ rs new Hback Hrs Hnew)
        as (Hframe1 & new1 & Hrs1 & Hnew1).
      destruct (IH _ _ _ rs new1 Hrun Hrs1 (or_introl Hnew1))
        as (cur' & Hout & Hframe & Hrs').
      exists cur'. split; [done|]. split; [|done].
      by rewrite Hframe, Hframe1.
Qed.

Lemma makeRequests_while_frame d fuel : forall fb cur s' rs new,
  makeRequests_while d fuel fb cur = Ok s' ->
  requests_ cur = rs ++ new ->
  beside_requests s' = beside_requests cur /\
  exists new', requests_ s' = rs ++ new'.
Proof.
  induction fuel as [|fuel IH]; intros fb cur s' rs new; [discriminate|].
  cbn [makeRequests_while]. run.
  destruct (makeRequests_for d (configuration_ cur) fb cur) as [out| | | |] eqn:Hfor;
    simpl; try discriminate.
  intros Hrun Hrs.
  destruct (configuration_ cur) as [|c cfg'] eqn:Hcfg.
  - injection Hfor as <-. by eapply IH.
  - destruct (makeRequests_for_frame d _ _ _ _ rs new Hfor Hrs)
      as (cur' & Hout & Hframe & new' & Hrs').
    { right. exists c, cfg'. by rewrite Hcfg. }
    destruct Hout as [->|[fb' ->]].
    + injection Hrun as <-. split; [done | by exists new'].
    + destruct (IH _ _ _ rs new' Hrun Hrs') as [Hframe' Hnew''].
      split; [by rewrite Hframe', Hframe | done].
Qed.

(** X11. [makeRequests] works on a copy of the free lists: whenever it
    returns, on any camera, [frame_buffers_] and every other member but
    [requests_] are as before, and the requests that were already in
    [requests_] are still there, unchanged, in front of the new ones. *)
Theorem makeRequests_keeps_free_lists d fuel s s' :
  makeRequests d fuel s = Ok s' ->
  frame_buffers_ s' = frame_buffers_ s /\
  s' = set_trace (trace s') (set_requests_ (requests_ s') s) /\
  requests_ s `prefix_of` requests_ s'.
Proof.
  unfold makeRequests. intros Hrun.
  destruct (makeRequests_while_frame d fuel _ _ _ (requests_ s) [] Hrun)
    as (Hframe & new' & Hrs); [by rewrite app_nil_r|].
  split; [exact (f_equal frame_buffers_ Hframe)|].
  split; [|rewrite Hrs; by apply prefix_app_r].
  destruct s, s'. unfold beside_requests in Hframe. simpl in *.
  by injection Hframe as -> -> -> -> -> -> -> -> -> -> -> -> -> -> -> -> ->.
Qed.

Lemma makeRequests_keeps_free_lists_witness :
  exists s',
    makeRequests Sample.camera 3 Sample.configured = Ok s' /\
    frame_buffers_ s' = frame_buffers_ Sample.configured.
Proof.
  destruct (makeRequests Sample.camera 3 Sample.configured) as [s'| | | |] eqn:Hrun;
    try (vm_compute in Hrun; discriminate).
  exists s'. split; [reflexivity|].
  exact (proj1 (makeRequests_keeps_free_lists Sample.camera 3 Sample.configured s' Hrun)).
Defined.

(** ** Tearing down *)

(** X12. [Teardown] calls [munmap] once for every span in
    [mapped_buffers_], all of them after the post-processor has been torn
    down and before the allocator is deleted, and it leaves the object with
    no mapping, no free buffer, no stream and no configuration: afterwards
    [Mmap] returns no span for any buffer, [GetStream] returns null for every
    name without touching the outputs, and [GetMainStream] returns null. *)
Theorem Teardown_unmaps_everything s :
  exists before munmaps,
    (Teardown s).2 = before ++ munmaps ++ [AllocatorDelete] /\
    head before = Some PostProcessorTeardown /\
    (forall data size, Munmap data size ∉ before) /\
    munmaps ≡ₚ map_to_list (mapped_buffers_ s)
                 ≫= (fun iter => (fun span => Munmap (span_data span) (span_size span))
                                   <$> iter.2) /\
    (forall buffer, Mmap buffer (Teardown s).1 = []) /\
    (forall stream, queue_of (frame_buffers_ (Teardown s).1) stream = []) /\
    (forall name w h stride,
       GetStream name w h stride (Teardown s).1 = (None, (w, h, stride))) /\
    GetMainStream (Teardown s).1 = None /\
    configuration_ (Teardown s).1 = [].
Proof.
  exists (if options_verbose s && negb (options_help s)
          then [PostProcessorTeardown;
                TeardownCerr "Tearing down requests, buffers and configuration"]
          else [PostProcessorTeardown]),
         (munmap_all (mapped_buffers_items (mapped_buffers_ s))).
  unfold Teardown. simpl.
  split; [by destruct (options_verbose s && negb (options_help s)); simpl|].
  split; [by destruct (options_verbose s && negb (options_help s))|].
  split.
  { intros data size H.
    destruct (options_verbose s && negb (options_help s));
      repeat (apply elem_of_cons in H as [H|H]; [discriminate|]);
      by apply not_elem_of_nil in H. }
  split.
  { unfold munmap_all, mapped_buffers_items.
    by rewrite (merge_sort_Permutation span_key_le (map_to_list (mapped_buffers_ s))). }
  split; [intros [b|]; unfold Mmap; simpl; by rewrite ?lookup_empty|].
  split; [intros stream; unfold queue_of; by rewrite lookup_empty|].
  split; [intros name w h stride; unfold GetStream; simpl; by rewrite lookup_empty|].
  split; [|done].
  unfold GetMainStream, streams_items. simpl. by rewrite map_to_list_empty.
Qed.

(** ** The main stream *)

Lemma Ascii_compare_cases (a b : Ascii.ascii) :
  match Ascii.compare a b with
  | Eq => a = b
  | Lt => (Ascii.N_of_ascii a < Ascii.N_of_ascii b)%N
  | Gt => (Ascii.N_of_ascii b < Ascii.N_of_ascii a)%N
  end.
Proof.
  destruct (Ascii.compare a b) eqn:H.
  - by apply Ascii.compare_eq_iff.
  - unfold Ascii.compare in H. by apply N.compare_lt_iff.
  - unfold Ascii.compare in H. by apply N.compare_gt_iff.
Qed.

Lemma String_leb_trans (a : string) : forall b c,
  String.leb a b = true -> String.leb b c = true -> String.leb a c = true.
Proof.
  unfold String.leb.
  induction a as [|x a IH]; intros [|y b] [|z c]; simpl; try done.
  pose proof (Ascii_compare_cases x y) as Hxy.
  pose proof (Ascii_compare_cases y z) as Hyz.
  pose proof (Ascii_compare_cases x z) as Hxz.
  destruct (Ascii.compare x y), (Ascii.compare y z), (Ascii.compare x z);
    try done; subst; try lia.
  apply IH.
Qed.

#[local] Instance name_le_trans : Transitive name_le.
Proof. intros p q r. unfold name_le. apply String_leb_trans. Qed.

#[local] Instance name_le_total : Total name_le.
Proof. intros p q. unfold name_le. apply String.leb_total. Qed.

Lemma streams_items_elem_of (m : gmap string Stream) name x :
  (name, x) ∈ streams_items m <-> m !! name = Some x.
Proof.
  unfold streams_items.
  rewrite (merge_sort_Permutation name_le (map_to_list m)).
  apply elem_of_map_to_list.
Qed.

Lemma GetMainStream_for_least items :
  StronglySorted name_le items ->
  match GetMainStream_for items with
  | Some x =>
      exists name, (name, x) ∈ items /\ is_main_name name = true /\
        forall p, p ∈ items -> is_main_name p.1 = true -> String.leb name p.1 = true
  | None => forall p, p ∈ items -> is_main_name p.1 = false
  end.
Proof.
  induction 1 as [|[name x] items Hsorted IH Hle]; cbn [GetMainStream_for fst snd].
  - intros p Hp. by apply not_elem_of_nil in Hp.
  - destruct (is_main_name name) eqn:Hmain.
    + exists name. split; [apply list_elem_of_here|]. split; [done|].
      intros p Hp _. apply elem_of_cons in Hp as [->|Hp].
      * destruct (String.leb_total name name); done.
      * rewrite Forall_forall in Hle. by apply (Hle p Hp).
    + destruct (GetMainStream_for items) as [y|].
      * destruct IH as (name' & Hin & Hmain' & Hleast).
        exists name'. split; [by apply list_elem_of_further|]. split; [done|].
        intros p Hp Hpmain. apply elem_of_cons in Hp as [->|Hp]; [|by apply Hleast].
        simpl in Hpmain. congruence.
      * intros p Hp. apply elem_of_cons in Hp as [->|Hp]; [done | by apply IH].
Qed.

(** X13. [GetMainStream] walks [streams_] in the order of the names, so
    among the three main streams it returns the still stream if there is
    one, otherwise the video stream, otherwise the viewfinder, and a null
    pointer if none of the three is configured; "lores" and "raw" are never
    returned. *)
Theorem GetMainStream_priority s :
  GetMainStream s
    = match streams_ s !! "still" with
      | Some x => Some x
      | None =>
          match streams_ s !! "video" with
          | Some x => Some x
          | None => streams_ s !! "viewfinder"
          end
      end.
Proof.
  unfold GetMainStream.
  pose proof (GetMainStream_for_least (streams_items (streams_ s))
                (StronglySorted_merge_sort name_le _)) as Hleast.
  assert (Hmain : forall name, is_main_name name = true ->
            name = "viewfinder" \/ name = "still" \/ name = "video").
  { intros name H. by apply bool_decide_eq_true in H. }
  destruct (GetMainStream_for (streams_items (streams_ s))) as [x|].
  - destruct Hleast as (name & Hin & Hname & Hle).
    apply streams_items_elem_of in Hin.
    assert (Hle' : forall name' y, streams_ s !! name' = Some y ->
              is_main_name name' = true -> String.leb name name' = true).
    { intros name' y Hy Hm. apply (Hle (name', y)); [|done].
      by apply streams_items_elem_of. }
    destruct (streams_ s !! "still") as [st|] eqn:Hstill.
    { specialize (Hle' "still" st Hstill eq_refl).
      destruct (Hmain name Hname) as [->|[->| ->]];
        [discriminate | congruence | discriminate]. }
    destruct (streams_ s !! "video") as [v|] eqn:Hvideo.
    { specialize (Hle' "video" v Hvideo eq_refl).
      destruct (Hmain name Hname) as [->|[->| ->]];
        [discriminate | congruence | congruence]. }
    destruct (Hmain name Hname) as [->|[->| ->]]; congruence.
  - assert (Hnone : forall name, is_main_name name = true -> streams_ s !! name = None).
    { intros name Hname. destruct (streams_ s !! name) as [y|] eqn:Hy; [|done].
      apply streams_items_elem_of in Hy. specialize (Hleast _ Hy). simpl in Hleast.
      congruence. }
    by rewrite (Hnone "still"), (Hnone "video"), (Hnone "viewfinder").
Qed.

Example GetMainStream_sample :
  GetMainStream Sample.configured = Some Sample.viewfinder.
Proof. vm_compute. reflexivity. Qed.

(** ** Denoise modes *)

Lemma denoise_table_lookup mode :
  (list_to_map denoise_table : gmap string NoiseReductionModeEnum) !! mode
    = if decide (mode = "off") then Some NoiseReductionModeOff
      else if decide (mode = "cdn_off") then Some NoiseReductionModeMinimal
      else if decide (mode = "cdn_fast") then Some NoiseReductionModeFast
      else if decide (mode = "cdn_hq") then Some NoiseReductionModeHighQuality
      else None.
Proof.
  unfold denoise_table. cbn [list_to_map foldr uncurry fst snd].
  repeat (rewrite lookup_insert; case_decide; [by subst; repeat case_decide|]).
  rewrite lookup_empty. by repeat case_decide.
Qed.

(** X14. [configureDenoise] accepts exactly the modes "off", "cdn_off",
    "cdn_fast" and "cdn_hq".  For these it sets the noise-reduction control
    to Off, Minimal, Fast and HighQuality and touches nothing else; for any
    other string it throws "Invalid denoise mode " followed by the string.
    "auto" is not a mode of its own: it is accepted only because the
    callers replace it by their default before the call. *)
Theorem configureDenoise_modes id enum_value mode default s :
  (returns (configureDenoise id enum_value mode s)
     <-> mode ∈ ["off"; "cdn_off"; "cdn_fast"; "cdn_hq"]) /\
  (mode ∉ ["off"; "cdn_off"; "cdn_fast"; "cdn_hq"] ->
     configureDenoise id enum_value mode s = Throw ("Invalid denoise mode " +:+ mode)) /\
  (forall denoise, (mode, denoise) ∈ denoise_table ->
     configureDenoise id enum_value mode s
       = Ok (set_controls_ (<[id := enum_value denoise]> (controls_ s)) s)) /\
  configureDenoise id enum_value "auto" s = Throw "Invalid denoise mode auto" /\
  (default ∈ ["off"; "cdn_off"; "cdn_fast"; "cdn_hq"] ->
     returns (configureDenoise id enum_value (denoise_or default "auto") s)).
Proof.
  assert (Hin : mode ∈ ["off"; "cdn_off"; "cdn_fast"; "cdn_hq"]
                <-> mode = "off" \/ mode = "cdn_off" \/ mode = "cdn_fast"
                    \/ mode = "cdn_hq").
  { rewrite !elem_of_cons, elem_of_nil. tauto. }
  assert (Hreturns : forall m, m ∈ ["off"; "cdn_off"; "cdn_fast"; "cdn_hq"] ->
            returns (configureDenoise id enum_value m s)).
  { intros m Hm. unfold configureDenoise. rewrite denoise_table_lookup.
    rewrite !elem_of_cons, elem_of_nil in Hm.
    repeat case_decide; try (by eexists). tauto. }
  split; [|split; [|split; [|split]]].
  - split; [|apply Hreturns].
    intros [s' Hs']. apply Hin. unfold configureDenoise in Hs'.
    rewrite denoise_table_lookup in Hs'.
    repeat case_decide; try tauto. discriminate.
  - intros Hnot. unfold configureDenoise. rewrite denoise_table_lookup.
    repeat case_decide; try done; exfalso; apply Hnot, Hin; tauto.
  - intros denoise Hd. unfold configureDenoise. rewrite denoise_table_lookup.
    unfold denoise_table in Hd. rewrite !elem_of_cons, elem_of_nil in Hd.
    destruct Hd as [[= -> ->]|[[= -> ->]|[[= -> ->]|[[= -> ->]|[]]]]]; done.
  - done.
  - intros Hdefault. unfold denoise_or. rewrite decide_True by done.
    by apply Hreturns.
Qed.

Lemma configureDenoise_modes_witness :
  configureDenoise 40 (fun _ => 3%Z) "bilateral" Sample.opened
    = Throw "Invalid denoise mode bilateral" /\
  configureDenoise 40 (fun _ => 3%Z) "cdn_hq" Sample.opened
    = Ok (set_controls_ {[ 40%N := 3%Z ]} Sample.opened) /\
  returns (configureDenoise 40 (fun _ => 3%Z) (denoise_or "cdn_fast" "auto")
             Sample.opened).
Proof.
  split; [|split].
  - apply (proj1 (proj2 (configureDenoise_modes 40 (fun _ => 3%Z) "bilateral" "off"
                           Sample.opened))).
    rewrite !elem_of_cons, elem_of_nil. intros [H|[H|[H|[H|[]]]]]; discriminate.
  - apply (proj1 (proj2 (proj2 (configureDenoise_modes 40 (fun _ => 3%Z) "cdn_hq" "off"
                                  Sample.opened))) NoiseReductionModeHighQuality).
    unfold denoise_table. rewrite !elem_of_cons. tauto.
  - apply (proj2 (proj2 (proj2 (proj2 (configureDenoise_modes 40 (fun _ => 3%Z) "off"
                                         "cdn_fast" Sample.opened))))).
    rewrite !elem_of_cons. tauto.
Defined.

(** ** The preview thread *)

Module PreviewThreadProps.
Import PreviewThread.

Lemma previewThread_shown YUV420 quit info_text s s' :
  previewThread YUV420 quit info_text s = Ok (Shown s') ->
  exists cr stream b plane0 planes' span spans',
    preview_abort_ s = false /\
    preview_item_ (app s)
      = {| PreviewItem.completed_request := Some cr;
           PreviewItem.stream := Some stream |} /\
    buffers cr !! stream_id stream = Some b /\
    planes b = plane0 :: planes' /\
    mapped_buffers_ (app s) !! fb_id b = Some (span :: spans') /\
    preview_abort_ s' = false /\
    preview_item_ (app s') = PreviewItem.default /\
    preview_frames_dropped_ (app s') = preview_frames_dropped_ (app s) /\
    preview_completed_requests_ s'
      = <[plane_fd plane0 := cr]> (preview_completed_requests_ s) /\
    preview_frames_displayed_ s' = (preview_frames_displayed_ s + 1)%N /\
    preview_calls s'
      = preview_calls s
        ++ Show (plane_fd plane0) span
             (StreamConfiguration.size_width (configuration stream))
             (StreamConfiguration.size_height (configuration stream))
             (StreamConfiguration.stride (configuration stream))
           :: (if decide (info_text = "") then []
               else [SetInfoText info_text (sequence cr) (framerate cr)]).
Proof.
  unfold previewThread.
  destruct (preview_abort_ s) eqn:Habort; [discriminate|].
  destruct (preview_item_ (app s)) as [ocr ostream] eqn:Hitem. simpl.
  destruct ostream as [stream|]; [|discriminate].
  case_decide; [discriminate|].
  unfold StreamDimensions. simpl.
  destruct ocr as [cr|]; [|discriminate].
  destruct (buffers cr !! stream_id stream) as [b|] eqn:Hb; simpl; [|discriminate].
  destruct (mapped_buffers_ (app s) !! fb_id b) as [spans|] eqn:Hspans;
    simpl; [|discriminate].
  destruct spans as [|span spans']; [discriminate|].
  destruct (planes b) as [|plane0 planes'] eqn:Hplanes; [discriminate|].
  destruct (preview_ (app s)) eqn:Hpreview; simpl; [|discriminate].
  intros [= <-].
  exists cr, stream, b, plane0, planes', span, spans'.
  destruct quit, (options_verbose (app s)), (decide (info_text = ""));
    simpl; rewrite ?app_nil_r, <- ?app_assoc; done.
Qed.

Lemma step_accounted YUV420 info_text e s s' :
  step YUV420 info_text e s = Ok s' ->
  (accounted s + arrivals_with_stream [e] <= accounted s')%N /\
  (accounted s' <= accounted s + arrivals [e])%N.
Proof.
  unfold accounted. destruct e as [cr stream|quit|fd]; simpl.
  - intros [= <-]. unfold occupied, ShowPreview. simpl.
    destruct (PreviewItem.stream (preview_item_ (app s))) eqn:Hslot; simpl;
      rewrite ?Hslot; destruct stream; lia.
  - unfold mbind, result_bind.
    destruct (previewThread YUV420 quit info_text s) as [t| | | |] eqn:Hturn;
      try discriminate.
    intros [= <-]. destruct t as [| |s1]; try lia.
    apply previewThread_shown in Hturn
      as (cr & stream & b & plane0 & planes' & span & spans' & _ & Hitem & _ & _ & _
          & _ & Hitem' & Hdropped & _ & Hdisplayed & _).
    unfold occupied. rewrite Hitem, Hitem', Hdropped, Hdisplayed. simpl. lia.
  - unfold previewDoneCallback.
    destruct (preview_completed_requests_ s !! fd); [|discriminate].
    intros [= <-]. unfold occupied. simpl. lia.
Qed.

Lemma arrivals_cons e es : arrivals (e :: es) = (arrivals [e] + arrivals es)%N.
Proof. destruct e; simpl; lia. Qed.

Lemma arrivals_with_stream_cons e es :
  arrivals_with_stream (e :: es)
  = (arrivals_with_stream [e] + arrivals_with_stream es)%N.
Proof. destruct e as [? [?|]| |]; simpl; lia. Qed.

End PreviewThreadProps.

(** X15.  What the preview counters account for.  Over any run of arrivals
    (with a null or a non-null stream pointer), turns of the preview thread
    and done callbacks that raises no error, the frames displayed, the
    frames dropped and the item waiting in the slot (0 or 1) add up to at
    least what they were before plus the arrivals that came with a non-null
    stream, and to at most that plus all arrivals.  So when every frame is
    handed over with a non-null stream each one is shown once, dropped once
    or still pending.  A frame handed over with a null stream while the slot
    is free is the exception: it is stored, and neither the counters nor the
    occupancy of the slot change. *)
Theorem preview_frames_accounted YUV420 info_text es (s s' : PreviewThread.t) :
  PreviewThread.steps YUV420 info_text es s = Ok s' ->
  (PreviewThread.accounted s + PreviewThread.arrivals_with_stream es
   <= PreviewThread.accounted s')%N /\
  (PreviewThread.accounted s'
   <= PreviewThread.accounted s + PreviewThread.arrivals es)%N /\
  (PreviewThread.arrivals_with_stream es = PreviewThread.arrivals es ->
   PreviewThread.accounted s'
   = (PreviewThread.accounted s + PreviewThread.arrivals es)%N) /\
  (forall cr,
     PreviewThread.occupied s' = 0%N ->
     exists s'',
       PreviewThread.step YUV420 info_text (PreviewThread.Arrival cr None) s'
         = Ok s'' /\
       PreviewItem.completed_request (preview_item_ (PreviewThread.app s''))
         = Some cr /\
       PreviewThread.preview_frames_displayed_ s''
         = PreviewThread.preview_frames_displayed_ s' /\
       preview_frames_dropped_ (PreviewThread.app s'')
         = preview_frames_dropped_ (PreviewThread.app s') /\
       PreviewThread.occupied s'' = 0%N).
Proof.
  intros Hrun.
  assert (Hbounds :
    (PreviewThread.accounted s + PreviewThread.arrivals_with_stream es
     <= PreviewThread.accounted s')%N /\
    (PreviewThread.accounted s'
     <= PreviewThread.accounted s + PreviewThread.arrivals es)%N).
  { revert s Hrun. induction es as [|e es IH]; intros s.
    - intros [= <-]. simpl. lia.
    - cbn [PreviewThread.steps]. unfold mbind, result_bind.
      destruct (PreviewThread.step YUV420 info_text e s) as [s1| | | |] eqn:Hstep;
        try discriminate.
      intros Hrest. apply IH in Hrest.
      apply PreviewThreadProps.step_accounted in Hstep.
      rewrite (PreviewThreadProps.arrivals_cons e es).
      rewrite (PreviewThreadProps.arrivals_with_stream_cons e es). lia. }
  destruct Hbounds as [Hlow Hhigh].
  split; [exact Hlow|]. split; [exact Hhigh|]. split; [lia|].
  intros cr Hfree. eexists. split; [reflexivity|].
  unfold PreviewThread.occupied in *. simpl. unfold ShowPreview.
  destruct (PreviewItem.stream (preview_item_ (PreviewThread.app s'))) eqn:Hslot;
    [discriminate|].
  simpl. done.
Qed.

Lemma preview_frames_accounted_witness :
  exists s' s'',
    PreviewThread.steps 1 "" PreviewSample.busy_run PreviewSample.idle = Ok s' /\
    PreviewThread.accounted s' = 3%N /\
    PreviewThread.steps 1 "" PreviewSample.null_run PreviewSample.idle = Ok s'' /\
    (3 <= PreviewThread.accounted s'' <= 4)%N.
Proof.
  destruct (PreviewThread.steps 1 "" PreviewSample.busy_run PreviewSample.idle)
    as [s'| | | |] eqn:Hrun; try (vm_compute in Hrun; discriminate).
  destruct (PreviewThread.steps 1 "" PreviewSample.null_run PreviewSample.idle)
    as [s''| | | |] eqn:Hnull; try (vm_compute in Hnull; discriminate).
  exists s', s''. split; [reflexivity|].
  destruct (preview_frames_accounted _ _ _ _ _ Hrun) as (_ & _ & Hsum & _).
  destruct (preview_frames_accounted _ _ _ _ _ Hnull) as (Hlow & Hhigh & _).
  change (PreviewThread.arrivals PreviewSample.busy_run) with 3%N in Hsum.
  change (PreviewThread.arrivals_with_stream PreviewSample.busy_run)
    with 3%N in Hsum.
  change (PreviewThread.arrivals PreviewSample.null_run) with 4%N in Hhigh.
  change (PreviewThread.arrivals_with_stream PreviewSample.null_run)
    with 3%N in Hlow.
  change (PreviewThread.accounted PreviewSample.idle) with 0%N in Hsum, Hlow, Hhigh.
  split; [exact (Hsum eq_refl)|]. split; [reflexivity|]. lia.
Defined.

(** X16.  A turn of the preview thread that shows a frame takes the item
    out of the slot: the slot is free afterwards, the request is held under
    the file descriptor of its buffer's first plane, the window gets one
    [Show] for that descriptor with the first mapped span and the stream's
    dimensions (then the info text, when one is configured), and the next
    turn finds nothing to show and waits, whatever the window answers.  No
    frame is rendered twice. *)
Theorem previewThread_shows_once YUV420 quit info_text (s s' : PreviewThread.t) :
  PreviewThread.previewThread YUV420 quit info_text s = Ok (PreviewThread.Shown s') ->
  exists cr stream fd span,
    preview_item_ (PreviewThread.app s)
      = {| PreviewItem.completed_request := Some cr;
           PreviewItem.stream := Some stream |} /\
    pending_fd s = Some fd /\
    head (Mmap (buffers cr !! stream_id stream) (PreviewThread.app s)) = Some span /\
    preview_item_ (PreviewThread.app s') = PreviewItem.default /\
    PreviewThread.preview_completed_requests_ s'
      = <[fd := cr]> (PreviewThread.preview_completed_requests_ s) /\
    PreviewThread.preview_frames_displayed_ s'
      = (PreviewThread.preview_frames_displayed_ s + 1)%N /\
    PreviewThread.preview_calls s'
      = PreviewThread.preview_calls s
        ++ PreviewThread.Show fd span
             (StreamConfiguration.size_width (configuration stream))
             (StreamConfiguration.size_height (configuration stream))
             (StreamConfiguration.stride (configuration stream))
           :: (if decide (info_text = "") then []
               else [PreviewThread.SetInfoText info_text (sequence cr) (framerate cr)]) /\
    forall quit' info_text',
      PreviewThread.previewThread YUV420 quit' info_text' s' = Ok PreviewThread.Waiting.
Proof.
  intros Hturn.
  apply PreviewThreadProps.previewThread_shown in Hturn
    as (cr & stream & b & plane0 & planes' & span & spans' & Habort & Hitem & Hb
        & Hplanes & Hspans & Habort' & Hitem' & _ & Hmap & Hdisplayed & Hcalls).
  exists cr, stream, (plane_fd plane0), span.
  split; [done|]. split.
  { unfold pending_fd. rewrite Hitem. simpl. rewrite Hb. simpl. by rewrite Hplanes. }
  split.
  { rewrite Hb. unfold Mmap. by rewrite Hspans. }
  do 4 (split; [done|]).
  intros quit' info_text'. unfold PreviewThread.previewThread.
  by rewrite Habort', Hitem'.
Qed.

Lemma previewThread_shows_once_witness :
  exists s',
    PreviewThread.previewThread 1 false "#%frame"
      (PreviewThread.set_app
         (ShowPreview (Sample.payload 7 0) (Some Sample.viewfinder)
            (PreviewThread.app PreviewSample.idle)) PreviewSample.idle)
      = Ok (PreviewThread.Shown s') /\
    PreviewThread.preview_calls s'
      = [ PreviewThread.Show 5 {| span_data := 24576; span_size := 307200 |}
            640 480 640;
          PreviewThread.SetInfoText "#%frame" 0 0 ] /\
    PreviewThread.previewThread 1 true "" s' = Ok PreviewThread.Waiting.
Proof.
  destruct (PreviewThread.previewThread 1 false "#%frame"
              (PreviewThread.set_app
                 (ShowPreview (Sample.payload 7 0) (Some Sample.viewfinder)
                    (PreviewThread.app PreviewSample.idle)) PreviewSample.idle))
    as [[| |s']| | | |] eqn:Hturn; try (vm_compute in Hturn; discriminate).
  exists s'. split; [reflexivity|].
  destruct (previewThread_shows_once _ _ _ _ _ Hturn)
    as (cr & stream & fd & span & Hitem & Hfd & Hspan & _ & _ & _ & Hcalls & Hnext).
  split; [|apply Hnext].
  vm_compute in Hitem. injection Hitem as <- <-.
  vm_compute in Hfd. injection Hfd as <-.
  vm_compute in Hspan. injection Hspan as <-.
  rewrite Hcalls. reflexivity.
Defined.

(** X17.  The done callback releases what the turn recorded, once.  After a
    turn that showed a frame whose descriptor was not held before, the
    window's done callback for that descriptor succeeds and leaves
    [preview_completed_requests_] as it was before the turn; a second done
    callback for the same descriptor throws "previewDoneCallback: missing
    fd" followed by the descriptor in decimal. *)
Theorem previewDoneCallback_releases_once YUV420 quit info_text fd
    (s s' : PreviewThread.t) :
  PreviewThread.previewThread YUV420 quit info_text s = Ok (PreviewThread.Shown s') ->
  pending_fd s = Some fd ->
  PreviewThread.preview_completed_requests_ s !! fd = None ->
  exists s'',
    PreviewThread.previewDoneCallback fd s' = Ok s'' /\
    PreviewThread.preview_completed_requests_ s''
      = PreviewThread.preview_completed_requests_ s /\
    PreviewThread.preview_calls s'' = PreviewThread.preview_calls s' /\
    PreviewThread.previewDoneCallback fd s''
      = Throw ("previewDoneCallback: missing fd " +:+ pretty fd).
Proof.
  intros Hturn Hfd Hfresh.
  apply PreviewThreadProps.previewThread_shown in Hturn
    as (cr & stream & b & plane0 & planes' & span & spans' & _ & Hitem & Hb
        & Hplanes & _ & _ & _ & _ & Hmap & _ & _).
  unfold pending_fd in Hfd. rewrite Hitem in Hfd. simpl in Hfd.
  rewrite Hb in Hfd. simpl in Hfd. rewrite Hplanes in Hfd. injection Hfd as <-.
  unfold PreviewThread.previewDoneCallback at 1.
  rewrite Hmap, lookup_insert_eq.
  eexists. split; [reflexivity|]. simpl.
  rewrite delete_insert_id by done. split; [done|]. split; [done|].
  unfold PreviewThread.previewDoneCallback. simpl. by rewrite Hfresh.
Qed.

Lemma previewDoneCallback_releases_once_witness :
  exists s' s'',
    PreviewThread.previewThread 1 false ""
      (PreviewThread.set_app
         (ShowPreview (Sample.payload 7 0) (Some Sample.viewfinder)
            (PreviewThread.app PreviewSample.idle)) PreviewSample.idle)
      = Ok (PreviewThread.Shown s') /\
    PreviewThread.previewDoneCallback 5 s' = Ok s'' /\
    PreviewThread.preview_completed_requests_ s'' = ∅ /\
    PreviewThread.previewDoneCallback 5 s''
      = Throw "previewDoneCallback: missing fd 5".
Proof.
  destruct (PreviewThread.previewThread 1 false ""
              (PreviewThread.set_app
                 (ShowPreview (Sample.payload 7 0) (Some Sample.viewfinder)
                    (PreviewThread.app PreviewSample.idle)) PreviewSample.idle))
    as [[| |s']| | | |] eqn:Hturn; try (vm_compute in Hturn; discriminate).
  destruct (previewDoneCallback_releases_once _ _ _ 5%Z _ _ Hturn)
    as (s'' & Hdone & Hmap & _ & Hagain); [reflexivity|reflexivity|].
  exists s', s''. split; [reflexivity|]. split; [done|]. split; [done|].
  rewrite Hagain. reflexivity.
Defined.

(** ** The encoder's input check *)

(** X18.  [EncodeBuffer] throws only "no buffer to encode", and only when
    the encoder exists, the stream is non-null, the request has a buffer
    for the stream, that buffer is mapped and its first span starts at the
    null address.  A request with no buffer for the stream never reaches
    the check: element 0 of the empty vector that [Mmap] returns is read
    first, which is undefined behaviour, and so is a buffer that was never
    mapped. *)
Theorem EncodeBuffer_throws_iff cr stream (e : LibcameraEncoder.t) msg :
  (LibcameraEncoder.EncodeBuffer cr stream e = Throw msg
   <-> msg = "no buffer to encode" /\
       LibcameraEncoder.encoder_ e = true /\
       exists st b span spans,
         stream = Some st /\
         buffers cr !! stream_id st = Some b /\
         mapped_buffers_ (LibcameraEncoder.app e) !! fb_id b = Some (span :: spans) /\
         span_data span = 0%Z) /\
  (forall st,
     LibcameraEncoder.encoder_ e = true ->
     stream = Some st ->
     buffers cr !! stream_id st = None
     \/ (exists b, buffers cr !! stream_id st = Some b /\
                   mapped_buffers_ (LibcameraEncoder.app e) !! fb_id b = None) ->
     LibcameraEncoder.EncodeBuffer cr stream e = Undefined).
Proof.
  split.
  - unfold LibcameraEncoder.EncodeBuffer.
    destruct (LibcameraEncoder.encoder_ e); simpl.
    2:{ split; [discriminate|]. by intros (_ & ? & _). }
    destruct stream as [st|].
    2:{ split; [discriminate|]. by intros (_ & _ & ? & ? & ? & ? & ? & _). }
    unfold StreamDimensions. simpl.
    destruct (buffers cr !! stream_id st) as [b|] eqn:Hb; simpl.
    2:{ split; [discriminate|].
        intros (_ & _ & st0 & b0 & sp & sps & [= <-] & Hb' & _). congruence. }
    destruct (mapped_buffers_ (LibcameraEncoder.app e) !! fb_id b) as [spans|] eqn:Hm;
      simpl.
    2:{ split; [discriminate|].
        intros (_ & _ & st0 & b0 & sp & sps & [= <-] & Hb' & Hm' & _). congruence. }
    destruct spans as [|span spans].
    { split; [discriminate|].
      intros (_ & _ & st0 & b0 & sp & sps & [= <-] & Hb' & Hm' & _). congruence. }
    case_decide as Hmem.
    + split.
      * intros [= <-]. split; [done|]. split; [done|]. by exists st, b, span, spans.
      * by intros (-> & _).
    + destruct (planes b); (split; [discriminate|]);
        intros (_ & _ & st0 & b0 & sp & sps & [= <-] & Hb' & Hm' & Hnull);
        congruence.
  - intros st Henc -> Hmissing. unfold LibcameraEncoder.EncodeBuffer.
    rewrite Henc. simpl. unfold StreamDimensions. simpl.
    destruct Hmissing as [Hb|(b & Hb & Hm)]; rewrite Hb; simpl; [done|].
    by rewrite Hm.
Qed.

Lemma EncodeBuffer_throws_iff_witness :
  LibcameraEncoder.EncodeBuffer (Sample.payload 7 0) (Some Sample.lores)
    Sample.encoder = Undefined /\
  LibcameraEncoder.EncodeBuffer (Sample.payload 7 0) (Some Sample.viewfinder)
    (LibcameraEncoder.set_app
       (set_mapped_buffers_ {[ 1%N := [ {| span_data := 0; span_size := 307200 |} ] ]}
          Sample.opened) Sample.encoder)
    = Throw "no buffer to encode".
Proof.
  split.
  - apply (proj2 (EncodeBuffer_throws_iff _ (Some Sample.lores) Sample.encoder "")
             Sample.lores); [reflexivity|reflexivity|by left].
  - apply (proj1 (EncodeBuffer_throws_iff _ _ _ _)).
    split; [done|]. split; [done|].
    by exists Sample.viewfinder, (Sample.frame 1 5 1000),
         {| span_data := 0; span_size := 307200 |}, [].
Defined.

(** ** Opening and closing the camera *)

Module LifecycleProps.
Import Lifecycle.

Lemma count_call c c' s :
  count c (calls (call c' s))
  = count c (calls s) + (if decide (c' = c) then 1 else 0).
Proof.
  unfold count, call. simpl. rewrite filter_app, length_app.
  rewrite filter_cons, filter_nil. by destruct (decide (c' = c)).
Qed.

Lemma count_set_app c a s : count c (calls (set_app a s)) = count c (calls s).
Proof. done. Qed.

Lemma count_set_camera_manager_ c v s :
  count c (calls (set_camera_manager_ v s)) = count c (calls s).
Proof. done. Qed.

Lemma count_set_camera_acquired_ c v s :
  count c (calls (set_camera_acquired_ v s)) = count c (calls s).
Proof. done. Qed.

(** [OpenCamera] acquires the camera exactly when the hardware allows it,
    returns normally exactly then, and never releases. *)
Lemma OpenCamera_acquires hw s s1 e1 :
  OpenCamera hw s = (s1, e1) ->
  e1 <> UndefinedBehaviour ->
  (e1 = Normal <-> acquirable hw = true) /\
  camera_acquired_ s1 = camera_acquired_ s || acquirable hw /\
  (acquirable hw = true -> camera_ (app s1) = true) /\
  count CameraRelease (calls s1) = count CameraRelease (calls s) /\
  count CameraAcquire (calls s1)
    = count CameraAcquire (calls s)
      + (if bool_decide (manager_start hw = 0%Z)
            && match manager_cameras hw with
               | [] => false
               | cam_id :: _ => manager_get hw cam_id
               end
         then 1 else 0) /\
  options_verbose (app s1) = options_verbose (app s) /\
  options_help (app s1) = options_help (app s).
Proof.
  unfold OpenCamera, acquirable.
  destruct (decide (manager_start hw ≠ 0%Z)) as [Hret|Hret].
  - rewrite (bool_decide_eq_false_2 _ Hret).
    case_decide; intros [= <- <-] Hub; [done|].
    rewrite orb_false_r.
    destruct (options_verbose (app s)) eqn:Hv; simpl;
      rewrite ?Hv, ?count_call; simpl;
      repeat split; try done; try discriminate; try lia;
      unfold count; simpl;
      rewrite ?filter_app, ?length_app; simpl; lia.
  - apply dec_stable in Hret. rewrite (bool_decide_eq_true_2 _ Hret). simpl.
    destruct (manager_cameras hw) as [|cam_id cams].
    { intros [= <- <-] _. rewrite orb_false_r.
      destruct (options_verbose (app s)) eqn:Hv; simpl; rewrite ?Hv;
        repeat split; try done; try discriminate;
        unfold count; simpl; rewrite ?filter_app, ?length_app; simpl; lia. }
    destruct (manager_get hw cam_id) eqn:Hget; simpl.
    2:{ intros [= <- <-] _. rewrite orb_false_r.
        destruct (options_verbose (app s)) eqn:Hv; simpl; rewrite ?Hv;
          repeat split; try done; try discriminate;
          unfold count; simpl; rewrite ?filter_app, ?length_app; simpl; lia. }
    destruct (decide (camera_acquire hw ≠ 0%Z)) as [Hacq|Hacq].
    + rewrite (bool_decide_eq_false_2 _ Hacq).
      intros [= <- <-] _. rewrite orb_false_r.
      destruct (options_verbose (app s)) eqn:Hv; simpl; rewrite ?Hv;
        repeat split; try done; try discriminate;
        unfold count; simpl; rewrite ?filter_app, ?length_app; simpl; lia.
    + apply dec_stable in Hacq. rewrite (bool_decide_eq_true_2 _ Hacq).
      intros [= <- <-] _. rewrite orb_true_r.
      destruct (options_verbose (app s)) eqn:Hv; simpl; rewrite ?Hv; simpl;
        case_decide; simpl; rewrite ?Hv;
        repeat split; try done;
        unfold count; simpl; rewrite ?filter_app, ?length_app; simpl; lia.
Qed.

(** [CloseCamera] releases the camera exactly when it was acquired and
    leaves every pointer null. *)
Lemma CloseCamera_releases s s2 e2 :
  (camera_acquired_ s = true -> camera_ (app s) = true) ->
  CloseCamera s = (s2, e2) ->
  e2 = Normal /\
  count CameraRelease (calls s2)
    = count CameraRelease (calls s) + (if camera_acquired_ s then 1 else 0) /\
  count CameraAcquire (calls s2) = count CameraAcquire (calls s) /\
  camera_ (app s2) = false /\ preview_ (app s2) = false /\
  camera_manager_ s2 = false /\ camera_acquired_ s2 = false /\
  options_verbose (app s2) = options_verbose (app s) /\
  options_help (app s2) = options_help (app s).
Proof.
  intros Hinv. unfold CloseCamera. simpl.
  destruct (camera_acquired_ s) eqn:Hacq; simpl.
  - rewrite Hinv by done. simpl. intros [= <- <-].
    destruct (options_verbose (app s) && negb (options_help (app s))); simpl;
      repeat split; try done;
      unfold count; simpl; rewrite ?filter_app, ?length_app; simpl; lia.
  - intros [= <- <-].
    destruct (options_verbose (app s) && negb (options_help (app s))); simpl;
      repeat split; try done;
      unfold count; simpl; rewrite ?filter_app, ?length_app; simpl; lia.
Qed.

End LifecycleProps.

(** X19.  [acquire] and [release] are balanced.  Starting from an object
    that has not acquired a camera, [OpenCamera] returns normally exactly
    when the manager starts, lists a camera, finds it and the camera can be
    acquired; however it ends, a following [CloseCamera] returns normally,
    releases the camera once if it was acquired and not at all otherwise,
    and leaves the preview, the camera and the manager reset.  Closing
    again releases nothing. *)
Theorem OpenCamera_CloseCamera_balance hw (s s1 s2 s3 : Lifecycle.t) e1 e2 e3 :
  Lifecycle.camera_acquired_ s = false ->
  Lifecycle.OpenCamera hw s = (s1, e1) ->
  e1 <> Lifecycle.UndefinedBehaviour ->
  Lifecycle.CloseCamera s1 = (s2, e2) ->
  Lifecycle.CloseCamera s2 = (s3, e3) ->
  (e1 = Lifecycle.Normal <-> Lifecycle.acquirable hw = true) /\
  Lifecycle.camera_acquired_ s1 = Lifecycle.acquirable hw /\
  e2 = Lifecycle.Normal /\ e3 = Lifecycle.Normal /\
  Lifecycle.count Lifecycle.CameraRelease (Lifecycle.calls s2)
    = Lifecycle.count Lifecycle.CameraRelease (Lifecycle.calls s)
      + (if Lifecycle.acquirable hw then 1 else 0) /\
  Lifecycle.count Lifecycle.CameraRelease (Lifecycle.calls s3)
    = Lifecycle.count Lifecycle.CameraRelease (Lifecycle.calls s2) /\
  camera_ (Lifecycle.app s2) = false /\ preview_ (Lifecycle.app s2) = false /\
  Lifecycle.camera_manager_ s2 = false /\ Lifecycle.camera_acquired_ s2 = false.
Proof.
  intros Hfresh Hopen Hub Hclose Hagain.
  destruct (LifecycleProps.OpenCamera_acquires _ _ _ _ Hopen Hub)
    as (Hnormal & Hacq & Hcam & Hrel & _).
  rewrite Hfresh in Hacq. simpl in Hacq.
  destruct (LifecycleProps.CloseCamera_releases _ _ _
              (fun H => Hcam (eq_trans (eq_sym Hacq) H)) Hclose)
    as (-> & Hrel2 & _ & Hc2 & Hp2 & Hm2 & Ha2 & _).
  destruct (LifecycleProps.CloseCamera_releases s2 s3 e3) as (-> & Hrel3 & _);
    [by rewrite Ha2|done|].
  rewrite Ha2 in Hrel3. rewrite Hacq, Hrel in Hrel2.
  repeat split; try done; try apply Hnormal. lia.
Qed.

Lemma OpenCamera_CloseCamera_balance_witness :
  exists s1 s2 s3,
    Lifecycle.OpenCamera LifecycleSample.camera_in_use LifecycleSample.constructed
      = (s1, Lifecycle.Exception "failed to acquire camera imx477") /\
    Lifecycle.CloseCamera s1 = (s2, Lifecycle.Normal) /\
    Lifecycle.CloseCamera s2 = (s3, Lifecycle.Normal) /\
    Lifecycle.count Lifecycle.CameraRelease (Lifecycle.calls s2) = 0.
Proof.
  destruct (Lifecycle.OpenCamera LifecycleSample.camera_in_use
              LifecycleSample.constructed) as [s1 e1] eqn:Hopen.
  destruct (Lifecycle.CloseCamera s1) as [s2 e2] eqn:Hclose.
  destruct (Lifecycle.CloseCamera s2) as [s3 e3] eqn:Hagain.
  assert (He1 : e1 = Lifecycle.Exception "failed to acquire camera imx477").
  { vm_compute in Hopen. by injection Hopen as <- <-. }
  assert (Hub : e1 <> Lifecycle.UndefinedBehaviour) by (by rewrite He1).
  destruct (OpenCamera_CloseCamera_balance LifecycleSample.camera_in_use
              LifecycleSample.constructed s1 s2 s3 e1 e2 e3 eq_refl Hopen Hub
              Hclose Hagain)
    as (_ & _ & -> & -> & Hrel & _).
  exists s1, s2, s3. rewrite He1.
  split; [reflexivity|]. split; [exact Hclose|]. split; [exact Hagain|].
  exact Hrel.
Defined.
